(** * KR3k0059 maintenance scripts: [rename_by_chapter.py] and [merge_files.py]

    A shallow embedding of the two scripts and the properties their
    specification states about them.

    Python values are embedded as follows:
    - [str] is a sequence of Unicode code points: [pystr := list N];
      [len] is [length], so one Chinese character has length one;
    - [int] is [Z] (unbounded, signed);
    - [None]-or-value is [option];
    - a directory is a finite map from file names to entries ([gmap]);
    - [print] appends a line to the log of standard output, or raises
      [UnicodeEncodeError] when standard output cannot encode the line;
    - an exception is the left summand of a result, threaded by a small
      state-and-exception monad; what the scripts depend on outside
      their directories (the encoding of standard output, whether the
      output directory can be made and written) is a type class the
      properties quantify over. *)

From Stdlib Require Import ZArith NArith List String Ascii Lia Bool Decimal DecimalN.
From stdpp Require Import base option list gmap sorting.
Import ListNotations.

(** ** Text *)

Module Text.

(** A code point and a Python [str]. *)
Abbreviation pychar := N.
Abbreviation pystr := (list N).

(** Source literals are written in this file as UTF-8 byte strings and
    decoded to code points, so that ["百"] below is the one-element
    sequence [[0x767E]] exactly as in the Python source. *)
Fixpoint bytes_of (s : string) : list N :=
  match s with
  | EmptyString => []
  | String a r => N_of_ascii a :: bytes_of r
  end.

Fixpoint utf8_decode (bs : list N) : pystr :=
  match bs with
  | [] => []
  | b0 :: r0 =>
    if (b0 <? 0x80)%N then b0 :: utf8_decode r0
    else
      match r0 with
      | [] => [b0]
      | b1 :: r1 =>
        if (b0 <? 0xE0)%N then
          ((b0 - 0xC0) * 0x40 + (b1 - 0x80))%N :: utf8_decode r1
        else
          match r1 with
          | [] => [b0; b1]
          | b2 :: r2 =>
            if (b0 <? 0xF0)%N then
              ((b0 - 0xE0) * 0x1000 + (b1 - 0x80) * 0x40 + (b2 - 0x80))%N
                :: utf8_decode r2
            else
              match r2 with
              | [] => [b0; b1; b2]
              | b3 :: r3 =>
                ((b0 - 0xF0) * 0x40000 + (b1 - 0x80) * 0x1000
                 + (b2 - 0x80) * 0x40 + (b3 - 0x80))%N :: utf8_decode r3
              end
          end
      end
  end.

Definition str (s : string) : pystr := utf8_decode (bytes_of s).

(** The single character written in a one-character literal. *)
Definition chr (s : string) : pychar := hd 0%N (str s).

(** [a == b] on [str]. *)
Definition str_eqb (a b : pystr) : bool := bool_decide (a = b).

(** [s.startswith(p)], and what follows the prefix. *)
Fixpoint strip_prefix (p s : pystr) : option pystr :=
  match p, s with
  | [], _ => Some s
  | c :: p', d :: s' => if (c =? d)%N then strip_prefix p' s' else None
  | _ :: _, [] => None
  end.

Definition startswith (s p : pystr) : bool :=
  match strip_prefix p s with Some _ => true | None => false end.

(** [s.find(p)]: the least index at which [p] occurs in [s]. *)
Fixpoint find (p s : pystr) : option nat :=
  if startswith s p then Some 0
  else match s with
       | [] => None
       | _ :: s' => option_map S (find p s')
       end.

(** [s.split('\n')]: the lines of [s]; never empty, and no line holds
    the separator. *)
Definition LF : pychar := 10%N.

Fixpoint split_lines (s : pystr) : list pystr :=
  match s with
  | [] => [[]]
  | c :: s' =>
    if (c =? LF)%N then [] :: split_lines s'
    else match split_lines s' with
         | l :: ls => (c :: l) :: ls
         | [] => [[c]]
         end
  end.

(** [chars.isspace()] for one character, which is what [\s] matches in a
    [str] pattern: the Unicode white-space code points. *)
Definition py_isspace (c : pychar) : bool :=
  ((0x09 <=? c) && (c <=? 0x0D) || (0x1C <=? c) && (c <=? 0x20)
   || (c =? 0x85) || (c =? 0xA0) || (c =? 0x1680)
   || (0x2000 <=? c) && (c <=? 0x200A)
   || (c =? 0x2028) || (c =? 0x2029) || (c =? 0x202F) || (c =? 0x205F)
   || (c =? 0x3000))%N.

(** [str(n)] for a natural number. *)
Fixpoint uint_chars (d : Decimal.uint) : pystr :=
  match d with
  | Nil => []
  | D0 r => 48%N :: uint_chars r
  | D1 r => 49%N :: uint_chars r
  | D2 r => 50%N :: uint_chars r
  | D3 r => 51%N :: uint_chars r
  | D4 r => 52%N :: uint_chars r
  | D5 r => 53%N :: uint_chars r
  | D6 r => 54%N :: uint_chars r
  | D7 r => 55%N :: uint_chars r
  | D8 r => 56%N :: uint_chars r
  | D9 r => 57%N :: uint_chars r
  end.

Definition decimal_chars (n : N) : pystr := uint_chars (N.to_uint n).

Definition zfill (width : nat) (s : pystr) : pystr :=
  repeat 48%N (width - length s) ++ s.

(** [f"{n:0{width}d}"]: sign-aware zero padding to a minimum width. *)
Definition format_0d (width : nat) (n : Z) : pystr :=
  if (n <? 0)%Z then chr "-" :: zfill (width - 1) (decimal_chars (Z.to_N (- n)))
  else zfill width (decimal_chars (Z.to_N n)).

(** *** Vocabulary of the properties (not in the source) *)

(** The first of the lines of [s]. *)
Definition first_line (s : pystr) : pystr := hd [] (split_lines s).

(** Reading the digits back. *)
Fixpoint chars_uint (s : pystr) : Decimal.uint :=
  match s with
  | [] => Nil
  | c :: s' =>
    let r := chars_uint s' in
    if (c =? 48)%N then D0 r else if (c =? 49)%N then D1 r
    else if (c =? 50)%N then D2 r else if (c =? 51)%N then D3 r
    else if (c =? 52)%N then D4 r else if (c =? 53)%N then D5 r
    else if (c =? 54)%N then D6 r else if (c =? 55)%N then D7 r
    else if (c =? 56)%N then D8 r else D9 r
  end.

Definition parse_nat (s : pystr) : N := N.of_uint (chars_uint s).

Arguments str _ : simpl never.
Arguments chr _ : simpl never.

End Text.
Import Text.

(** ** Regular expressions

    The fragment of Python's [re] the two scripts use, with its
    backtracking semantics: alternatives are tried in priority order
    (greedy repetition longest first, lazy repetition shortest first) and
    the first complete match wins. Repetition is only ever applied to a
    single-character matcher in the source patterns, which is all the
    syntax below offers. *)

Module Re.

Inductive regex : Type :=
| Bos                              (* ^  (no MULTILINE) *)
| Eos                              (* $  (no MULTILINE) *)
| Eps                              (* the empty pattern *)
| Chr (p : pychar -> bool)         (* one character: x, [...], \s, \d, . *)
| Cat (r1 r2 : regex)              (* r1 r2 *)
| Plus (p : pychar -> bool)        (* x+ *)
| Star (p : pychar -> bool)        (* x* *)
| LazyStar (p : pychar -> bool)    (* x*? *)
| Opt (r : regex)                  (* (?:r)? *)
| Group (i : nat) (r : regex).     (* (r), the i-th group *)

Definition lit (c : pychar) : pychar -> bool := N.eqb c.
Definition one_of (cs : pystr) : pychar -> bool :=
  fun c => existsb (N.eqb c) cs.
(** [.] under [re.DOTALL]. *)
Definition any : pychar -> bool := fun _ => true.

(** A literal string inside a pattern. *)
Fixpoint lits (s : pystr) : regex :=
  match s with
  | [] => Eps
  | c :: s' => Cat (Chr (lit c)) (lits s')
  end.

(** What [m.group(i)] reads: the text each group matched. *)
Abbreviation groups := (gmap nat pystr).

Section Backtracking.
Context {A : Type}.

(** [x*] then [k]: take the longest run first, give back one character
    at a time. *)
Fixpoint star_greedy (p : pychar -> bool) (s : pystr)
    (k : pystr -> option A) : option A :=
  match s with
  | c :: s' =>
    if p c then
      match star_greedy p s' k with
      | Some a => Some a
      | None => k s
      end
    else k s
  | [] => k s
  end.

(** [x*?] then [k]: try [k] first, take one more character when it
    fails. *)
Fixpoint star_lazy (p : pychar -> bool) (s : pystr)
    (k : pystr -> option A) : option A :=
  match k s with
  | Some a => Some a
  | None =>
    match s with
    | c :: s' => if p c then star_lazy p s' k else None
    | [] => None
    end
  end.

End Backtracking.

(** [run n r s g k]: match [r] at the head of [s], the rest of a subject
    of length [n], with groups [g] so far, then continue with [k]. *)
Fixpoint run (n : nat) (r : regex) (s : pystr) (g : groups)
    (k : pystr -> groups -> option groups) : option groups :=
  match r with
  | Bos => if (length s =? n)%nat then k s g else None
  | Eos =>
    match s with
    | [] => k s g
    | [c] => if (c =? LF)%N then k s g else None
    | _ => None
    end
  | Eps => k s g
  | Chr p =>
    match s with
    | c :: s' => if p c then k s' g else None
    | [] => None
    end
  | Cat r1 r2 => run n r1 s g (fun s' g' => run n r2 s' g' k)
  | Plus p =>
    match s with
    | c :: s' => if p c then star_greedy p s' (fun s'' => k s'' g) else None
    | [] => None
    end
  | Star p => star_greedy p s (fun s' => k s' g)
  | LazyStar p => star_lazy p s (fun s' => k s' g)
  | Opt r' =>
    match run n r' s g k with
    | Some g' => Some g'
    | None => k s g
    end
  | Group i r' =>
    run n r' s g
      (fun s' g' => k s' (<[i := take (length s - length s') s]> g'))
  end.

(** [re.match(r, s)]: a match anchored at the start of [s]. *)
Definition re_match (r : regex) (s : pystr) : option groups :=
  run (length s) r s ∅ (fun _ g => Some g).

(** [re.search(r, s)]: the leftmost position at which [r] matches. *)
Fixpoint search_from (n : nat) (r : regex) (s : pystr) : option groups :=
  match run n r s ∅ (fun _ g => Some g) with
  | Some g => Some g
  | None =>
    match s with
    | [] => None
    | _ :: s' => search_from n r s'
    end
  end.

Definition re_search (r : regex) (s : pystr) : option groups :=
  search_from (length s) r s.

(** [m.group(i)]. Every group of the source patterns is a mandatory one
    and so takes part in every match (lemma [source_patterns_groups]):
    the default, which stands for Python's [None], is never read. *)
Definition group (m : groups) (i : nat) : pystr := default [] (m !! i).

Notation "r1 ~> r2" := (Cat r1 r2) (at level 60, right associativity).

(** *** Vocabulary of the properties (not in the source) *)

(** The groups that stand outside every optional part of a pattern. *)
Fixpoint mandatory (r : regex) : list nat :=
  match r with
  | Cat r1 r2 => mandatory r1 ++ mandatory r2
  | Group i r' => i :: mandatory r'
  | _ => []
  end.

End Re.
Import Re.

(** ** Files and effects *)

Module Sys.

(** What is at a name of a directory: a file whose text
    [open(path).read()] returns; something that exists but whose opening
    or decoding raises (a directory, a file without read permission,
    bytes that are not UTF-8); or a symbolic link that points nowhere,
    which [glob] lists, for which [exists()] is false and [open] raises
    [FileNotFoundError], and which [rename] replaces like a free name. *)
Inductive node : Type :=
| Readable (content : pystr)
| Unreadable
| Dangling.

(** A directory: its entries by name, and whether entries may be moved
    in it ([rename] raises [PermissionError] otherwise). *)
Record directory : Type := Directory {
  entries : gmap pystr node;
  writable : bool
}.

(** The exceptions of the two scripts. [UnicodeEncodeError] is what
    [print] raises for a line that [sys.stdout] cannot encode; [OSError]
    stands for the failures of making the output directory and of
    opening a file in it for writing. *)
Inductive exn : Type :=
| FileNotFoundError (name : pystr)
| ReadError (name : pystr)
| PermissionError (name : pystr)
| UnicodeEncodeError
| OSError.

(** A lone surrogate, U+D800 to U+DFFF: what Python puts in a file name
    for a byte it cannot decode, and what strict UTF-8 cannot encode. *)
Definition surrogate (c : pychar) : bool := (55296 <=? c)%N && (c <=? 57343)%N.

Definition encodable_utf8 (s : pystr) : bool :=
  forallb (fun c => negb (surrogate c)) s.

(** The names an exception's text quotes. *)
Definition exn_names (e : exn) : list pystr :=
  match e with
  | FileNotFoundError name | ReadError name | PermissionError name => [name]
  | UnicodeEncodeError | OSError => []
  end.

(** The order [sorted] puts file names in: code point by code point. *)
Fixpoint str_leb (a b : pystr) : bool :=
  match a, b with
  | [], _ => true
  | _ :: _, [] => false
  | c :: a', d :: b' => (c <? d)%N || ((c =? d)%N && str_leb a' b')
  end.

Definition str_le (a b : pystr) : Prop := str_leb a b = true.

#[global] Instance str_le_dec a b : Decision (str_le a b).
Proof. unfold str_le. apply _. Defined.

Definition sorted (l : list pystr) : list pystr := merge_sort str_le l.

Definition endswith (s p : pystr) : bool := startswith (rev s) (rev p).

(** [fnmatch(name, prefix + "*" + suffix)]. *)
Definition fnmatch_star (prefix suffix name : pystr) : bool :=
  match strip_prefix prefix name with
  | Some rest => endswith rest suffix
  | None => false
  end.

(** [Path(d).glob("KR3k0059_*.md")], as names; a missing directory has
    no matches. *)
Definition glob_KR3k0059 (d : option directory) : list pystr :=
  match d with
  | Some d =>
    filter (fun name => Is_true (fnmatch_star (str "KR3k0059_") (str ".md") name))
           (map_to_list (entries d)).*1
  | None => []
  end.

(** [open(path, 'r', encoding='utf-8').read()] for a name in [d]. *)
Definition read_text (d : option directory) (name : pystr) : exn + pystr :=
  match d with
  | None => inl (FileNotFoundError name)
  | Some d =>
    match entries d !! name with
    | None | Some Dangling => inl (FileNotFoundError name)
    | Some Unreadable => inl (ReadError name)
    | Some (Readable content) => inr content
    end
  end.

(** [(Path(d) / name).exists()]: links are followed. *)
Definition exists_in (d : directory) (name : pystr) : bool :=
  match entries d !! name with
  | Some (Readable _) | Some Unreadable => true
  | Some Dangling | None => false
  end.

(** A computation over a state [S] that returns an [A] or raises. State
    changes made before a [raise] stay. *)
Definition M (S A : Type) : Type := S -> (exn + A) * S.

Section Monad.
Context {S : Type}.

Definition ret {A} (a : A) : M S A := fun s => (inr a, s).

Definition raise {A} (e : exn) : M S A := fun s => (inl e, s).

Definition bind {A B} (m : M S A) (f : A -> M S B) : M S B :=
  fun s =>
    match m s with
    | (inr a, s') => f a s'
    | (inl e, s') => (inl e, s')
    end.

(** [try: body / except Exception as e: handler(e)]. *)
Definition try_except {A} (body : M S A) (handler : exn -> M S A) : M S A :=
  fun s =>
    match body s with
    | (inr a, s') => (inr a, s')
    | (inl e, s') => handler e s'
    end.

Definition get : M S S := fun s => (inr s, s).

(** [for x in xs: acc = body(x, acc)]. *)
Fixpoint for_each {A B} (xs : list A) (body : A -> B -> M S B) (acc : B)
    : M S B :=
  match xs with
  | [] => ret acc
  | x :: xs' => bind (body x acc) (for_each xs' body)
  end.

End Monad.

Notation "x <- m ;; k" := (bind m (fun x => k))
  (at level 100, m at next level, right associativity).
Notation "m ;;; k" := (bind m (fun _ => k))
  (at level 100, right associativity).

End Sys.
Import Sys.

(** ** [rename_by_chapter.py] *)

Module Renamer.

(** *** [chinese_to_number] *)

(** The dict [chinese_nums], in source order. *)
Definition chinese_nums : list (pychar * Z) :=
  [ (chr "零", 0%Z); (chr "一", 1%Z); (chr "二", 2%Z); (chr "三", 3%Z);
    (chr "四", 4%Z); (chr "五", 5%Z); (chr "六", 6%Z); (chr "七", 7%Z);
    (chr "八", 8%Z); (chr "九", 9%Z); (chr "十", 10%Z); (chr "百", 100%Z) ].

(** [d.get(key, dflt)]. *)
Fixpoint dict_get (d : list (pychar * Z)) (key : pychar) (dflt : Z) : Z :=
  match d with
  | [] => dflt
  | (k, v) :: d' => if (k =? key)%N then v else dict_get d' key dflt
  end.

(** The body of the [for] loop, on the local variables [(result, temp)]. *)
Definition loop_body (st : Z * Z) (char : pychar) : Z * Z :=
  let '(result, temp) := st in
  if (char =? chr "百")%N then
    let temp := if (temp =? 0)%Z then 1%Z else temp in
    let result := (result + temp * 100)%Z in
    let temp := 0%Z in
    (result, temp)
  else if (char =? chr "十")%N then
    let temp := if (temp =? 0)%Z then 1%Z else temp in
    let result := (result + temp * 10)%Z in
    let temp := 0%Z in
    (result, temp)
  else
    let temp := dict_get chinese_nums char 0 in
    (result, temp).

Fixpoint for_loop (st : Z * Z) (chars : pystr) : Z * Z :=
  match chars with
  | [] => st
  | char :: rest => for_loop (loop_body st char) rest
  end.

Definition chinese_to_number (chinese_str : pystr) : Z :=
  match chinese_str with
  | [c] => dict_get chinese_nums c 0
  | _ =>
    let result := 0%Z in
    let temp := 0%Z in
    let '(result, temp) := for_loop (result, temp) chinese_str in
    (result + temp)%Z
  end.

(** *** [parse_chapter_title] *)

Definition numerals : pystr := str "一二三四五六七八九十百".

(** The pattern "^#\s+卷([一二三四五六七八九十百]+)之([一二三四五六七八九十百]+)". *)
Definition pattern_with_section : regex :=
  Bos ~> Chr (lit (chr "#")) ~> Plus py_isspace ~> Chr (lit (chr "卷"))
  ~> Group 1 (Plus (one_of numerals)) ~> Chr (lit (chr "之"))
  ~> Group 2 (Plus (one_of numerals)).

(** The pattern "^#\s+卷([一二三四五六七八九十百]+)(?:目録)?$". *)
Definition pattern_without_section : regex :=
  Bos ~> Chr (lit (chr "#")) ~> Plus py_isspace ~> Chr (lit (chr "卷"))
  ~> Group 1 (Plus (one_of numerals)) ~> Opt (lits (str "目録")) ~> Eos.

(** A chapter reference: [(volume, section)] or [(volume, None)]. *)
Definition chapter : Type := Z * option Z.

(** The [for line in content.split('\n')] loop; falling off its end is
    the final [return None]. *)
Fixpoint scan_lines (lines : list pystr) : option chapter :=
  match lines with
  | [] => None
  | line :: rest =>
    match re_match pattern_with_section line with
    | Some m =>
      let volume_str := group m 1 in
      let section_str := group m 2 in
      let volume_num := chinese_to_number volume_str in
      let section_num := chinese_to_number section_str in
      Some (volume_num, Some section_num)
    | None =>
      match re_match pattern_without_section line with
      | Some m =>
        let volume_str := group m 1 in
        let volume_num := chinese_to_number volume_str in
        Some (volume_num, None)
      | None => scan_lines rest
      end
    end
  end.

Definition parse_chapter_title (content : pystr) : option chapter :=
  scan_lines (split_lines content).

(** *** [format_chapter_number] *)

Definition format_chapter_number (volume : Z) (section : option Z) : pystr :=
  match section with
  | None => format_0d 3 volume
  | Some section => format_0d 3 volume ++ str "_" ++ format_0d 2 section
  end.

(** *** [process_md_files] *)

(** One constructor per [print] call of the function: a line of
    standard output. *)
Inductive message : Type :=
| Dir_missing                                       (* 错误: 目录 ... 不存在 *)
| Found (n : nat)                                   (* 找到 n 个文件 *)
| Blank                                             (* print() *)
| No_title (name : pystr)                           (* 跳过 ...: 无法找到章节标题 *)
| Already_named (name : pystr)                      (* 跳过 ...: 已经是正确的名称 *)
| Target_exists (name new_name : pystr)             (* 警告 ...: 目标文件已存在 *)
| Would_rename (name new_name : pystr) (c : chapter) (* [试运行] ... -> ... *)
| Renamed (name new_name : pystr) (c : chapter)     (* ✓ ... -> ... *)
| Failed_with (name : pystr) (e : exn)              (* 处理 ... 时出错: e *)
| Rule                                              (* "=" * 60 *)
| Finished                                          (* 处理完成! *)
| Renamed_total (n : Z)                             (* 重命名: n 个文件 *)
| Skipped_total (n : Z)                             (* 跳过: n 个文件 *)
| Failed_total (n : Z)                              (* 失败: n 个文件 *)
| Dry_run_note                                      (* 注意: 这是试运行 ... *)
| Dry_run_hint.                                     (* 要实际执行重命名 ... *)

(** The part of the world the function touches: directory [md_dir], if
    there is one, and the lines written to standard output. *)
Record world : Type := World {
  md_dir : option directory;
  stdout : list message
}.

(** [sys.stdout], as far as [print] depends on it: which lines its
    encoding can encode. That depends on the encoding and on the text of
    the line, file names and exception text included. *)
Class Stdout : Type := { printable : message -> bool }.

(** [print(line)]: the line is encoded whole before any of it is
    written, and [UnicodeEncodeError] is raised when it cannot be. *)
Definition print `{Stdout} (m : message) : M world unit :=
  fun w =>
    if printable m then (inr tt, World (md_dir w) (stdout w ++ [m]))
    else (inl UnicodeEncodeError, w).

(** [with open(file_path, 'r', encoding='utf-8') as f: f.read()] *)
Definition open_read (name : pystr) : M world pystr :=
  fun w => (read_text (md_dir w) name, w).

(** [path.exists()] *)
Definition path_exists (name : pystr) : M world bool :=
  fun w =>
    match md_dir w with
    | None => (inr false, w)
    | Some d => (inr (exists_in d name), w)
    end.

(** [file_path.rename(new_file_path)], both in [md_dir]. *)
Definition rename (name new_name : pystr) : M world unit :=
  fun w =>
    match md_dir w with
    | None => (inl (FileNotFoundError name), w)
    | Some d =>
      match entries d !! name with
      | None => (inl (FileNotFoundError name), w)
      | Some x =>
        if writable d then
          (inr tt,
           World (Some (Directory (<[new_name := x]> (delete name (entries d)))
                                  (writable d)))
                 (stdout w))
        else (inl (PermissionError name), w)
      end
    end.

(** The three counters of the function. *)
Record counts : Type := Counts {
  renamed_count : Z;
  failed_count : Z;
  skipped_count : Z
}.

Definition renamed_incr (c : counts) : counts :=
  Counts (renamed_count c + 1) (failed_count c) (skipped_count c).
Definition failed_incr (c : counts) : counts :=
  Counts (renamed_count c) (failed_count c + 1) (skipped_count c).
Definition skipped_incr (c : counts) : counts :=
  Counts (renamed_count c) (failed_count c) (skipped_count c + 1).

(** The body of [try:] for one file; each [continue] is a return. *)
Definition try_body `{Stdout} (dry_run : bool) (file_name : pystr) (c : counts)
    : M world counts :=
  content <- open_read file_name ;;
  match parse_chapter_title content with
  | None =>
    print (No_title file_name) ;;;
    ret (skipped_incr c)
  | Some (volume, section) =>
    let new_name := format_chapter_number volume section in
    let new_file := new_name ++ str ".md" in
    if str_eqb file_name new_file then
      print (Already_named file_name) ;;;
      ret (skipped_incr c)
    else
      target_exists <- path_exists new_file ;;
      if target_exists && negb (str_eqb new_file file_name) then
        print (Target_exists file_name new_file) ;;;
        ret (failed_incr c)
      else
        (if dry_run then
           print (Would_rename file_name new_file (volume, section))
         else
           rename file_name new_file ;;;
           print (Renamed file_name new_file (volume, section))) ;;;
        ret (renamed_incr c)
  end.

(** One iteration of [for file_path in md_files], with its [except]:
    the handler's own [print] is outside every [try]. *)
Definition iteration `{Stdout} (dry_run : bool) (file_name : pystr) (c : counts)
    : M world counts :=
  try_except (try_body dry_run file_name c)
    (fun e =>
       print (Failed_with file_name e) ;;;
       ret (failed_incr c)).

Definition process_md_files `{Stdout} (dry_run : bool) : M world unit :=
  w <- get ;;
  match md_dir w with
  | None => print Dir_missing
  | Some _ =>
    let md_files := sorted (glob_KR3k0059 (md_dir w)) in
    print (Found (length md_files)) ;;;
    print Blank ;;;
    c <- for_each md_files (iteration dry_run) (Counts 0 0 0) ;;
    print Blank ;;;
    print Rule ;;;
    print Finished ;;;
    print (Renamed_total (renamed_count c)) ;;;
    print (Skipped_total (skipped_count c)) ;;;
    print (Failed_total (failed_count c)) ;;;
    if dry_run then
      print Blank ;;;
      print Dry_run_note ;;;
      print Dry_run_hint
    else ret tt
  end.

(** *** Vocabulary of the properties (not in the source) *)

(** Neither heading pattern matches the line. *)
Definition no_heading (line : pystr) : Prop :=
  re_match pattern_with_section line = None
  /\ re_match pattern_without_section line = None.

(** The file a status line is about. *)
Definition subject (m : Renamer.message) : option pystr :=
  match m with
  | No_title name | Already_named name | Target_exists name _
  | Would_rename name _ _ | Renamed name _ _ | Failed_with name _ => Some name
  | Dir_missing | Found _ | Blank | Rule | Finished | Renamed_total _
  | Skipped_total _ | Failed_total _ | Dry_run_note | Dry_run_hint => None
  end.

(** The file names in the text of a line. *)
Definition names (m : Renamer.message) : list pystr :=
  match m with
  | No_title name | Already_named name => [name]
  | Target_exists name new | Would_rename name new _ | Renamed name new _ =>
    [name; new]
  | Failed_with name e => name :: exn_names e
  | Dir_missing | Found _ | Blank | Rule | Finished | Renamed_total _
  | Skipped_total _ | Failed_total _ | Dry_run_note | Dry_run_hint => []
  end.

(** Standard output in UTF-8 with strict error handling, Python's
    default, and a directory whose own path is encodable: the fixed text
    and the numbers of every line are encodable, so a line is unless one
    of its file names holds a lone surrogate. *)
Definition strict_utf8 : Stdout :=
  {| printable m := forallb encodable_utf8 (names m) |}.

(** Standard output that replaces or escapes what it cannot encode
    (UTF-8 with [errors] set to [backslashreplace], say): every line is
    printed. *)
Definition lenient : Stdout := {| printable _ := true |}.

(** Lines printed one after the other. *)
Fixpoint print_all `{Stdout} (lines : list Renamer.message) : M world unit :=
  match lines with
  | [] => ret tt
  | m :: lines' => print m ;;; print_all lines'
  end.

(** The lines after the loop. *)
Definition closing_lines (dry_run : bool) (c : counts)
    : list Renamer.message :=
  [ Blank; Rule; Finished; Renamed_total (renamed_count c);
    Skipped_total (skipped_count c); Failed_total (failed_count c) ]
  ++ (if dry_run then [Blank; Dry_run_note; Dry_run_hint] else []).

(** How many files the counters account for. *)
Definition counted (c : counts) : Z :=
  (renamed_count c + failed_count c + skipped_count c)%Z.

(** The name the Renamer gives a file with chapter reference [c]. *)
Definition canonical_name (c : chapter) : pystr :=
  format_chapter_number c.1 c.2 ++ str ".md".

(** Every file of the directory is a readable document that already
    carries the name of its chapter. *)
Definition all_canonical (d : directory) : Prop :=
  forall name node,
    entries d !! name = Some node ->
    exists content c,
      node = Readable content
      /\ parse_chapter_title content = Some c
      /\ name = canonical_name c.

End Renamer.
Import Renamer.

(** ** [merge_files.py] *)

Module Merger.

(** *** [extract_frontmatter_and_content] *)

(** The pattern "^---\n(.*?)\n---\n(.* )$" under [re.DOTALL] (the blank in
    the last group is not in the source). *)
Definition frontmatter_pattern : regex :=
  Bos ~> lits (str "---" ++ [LF]) ~> Group 1 (LazyStar any)
  ~> lits ([LF] ++ str "---" ++ [LF]) ~> Group 2 (Star any) ~> Eos.

(** The function after the file has been read: [(frontmatter, body)],
    or [(None, content)]. *)
Definition frontmatter_and_content (content : pystr)
    : option pystr * pystr :=
  match re_match frontmatter_pattern content with
  | Some m =>
    let frontmatter := group m 1 in
    let body := group m 2 in
    (Some frontmatter, body)
  | None => (None, content)
  end.

(** *** [merge_files] *)

(** One constructor per [print] call of the function. *)
Inductive message : Type :=
| Merging (catalog_name content_name : pystr)   (* 合并 ... 和 ... *)
| No_content_file (catalog_name : pystr)        (* 警告: ... 没有对应的内容文件 *)
| Done (merged_count : Z)                       (* 完成！共合并了 n 对文件 *)
| Output_dir_line.                              (* 输出目录: ... *)

(** Source directory [md_dir], the files of [output_dir] (none before
    the directory is made), and standard output. The two directories
    are different ones, as in the script's own call. *)
Record world : Type := World {
  md_dir : option directory;
  output_dir : option (gmap pystr pystr);
  stdout : list message
}.

(** What the function depends on outside its two directories: which
    lines [sys.stdout] can encode, whether the output directory can be
    made when it is not there, and which of its files can be opened for
    writing. *)
Class Host : Type := {
  printable : message -> bool;
  may_create : bool;
  may_write : pystr -> bool
}.

(** [print(line)]: [UnicodeEncodeError] for a line that cannot be
    encoded, with nothing of it written. *)
Definition print `{Host} (m : message) : M world unit :=
  fun w =>
    if printable m then
      (inr tt, World (md_dir w) (output_dir w) (stdout w ++ [m]))
    else (inl UnicodeEncodeError, w).

(** [output_path.mkdir(exist_ok=True)] *)
Definition mkdir_exist_ok `{Host} : M world unit :=
  fun w =>
    match output_dir w with
    | Some _ => (inr tt, w)
    | None =>
      if may_create then (inr tt, World (md_dir w) (Some ∅) (stdout w))
      else (inl OSError, w)
    end.

(** [with open(output_file, 'w', encoding='utf-8') as f: f.write(text)];
    the text comes from files read as UTF-8 and from literals, so it can
    be encoded. *)
Definition write_text `{Host} (name text : pystr) : M world unit :=
  fun w =>
    if may_write name then
      (inr tt,
       World (md_dir w) (Some (<[name := text]> (default ∅ (output_dir w))))
             (stdout w))
    else (inl OSError, w).

Definition extract_frontmatter_and_content (file_name : pystr)
    : M world (option pystr * pystr) :=
  fun w =>
    match read_text (md_dir w) file_name with
    | inr content => (inr (frontmatter_and_content content), w)
    | inl e => (inl e, w)
    end.

(** [bool(x)] for [x] a [str] or [None]. *)
Definition truthy (x : option pystr) : bool :=
  match x with
  | Some (_ :: _) => true
  | Some [] => false
  | None => false
  end.

(** [f"{x}"] for [x] a [str] or [None]. *)
Definition format_value (x : option pystr) : pystr :=
  match x with
  | Some s => s
  | None => str "None"
  end.

(** Lines 66 and 69: the text written for one pair. *)
Definition merged_content (catalog_fm : option pystr) (catalog_body : pystr)
    (content_fm : option pystr) (content_body : pystr) : pystr :=
  let frontmatter := if truthy catalog_fm then catalog_fm else content_fm in
  str "---" ++ [LF] ++ format_value frontmatter ++ [LF] ++ str "---" ++ [LF]
  ++ catalog_body ++ [LF] ++ content_body.

(** [f"KR3k0059_{num:03d}.md"] *)
Definition output_name (num : Z) : pystr :=
  str "KR3k0059_" ++ format_0d 3 num ++ str ".md".

Section Digits.

(** [unicodedata.decimal(c, None)]: the value of a decimal digit of any
    script. [\d] matches the characters that have one, and [int] reads
    them. *)
Variable decimal : pychar -> option Z.

Definition is_digit (c : pychar) : bool :=
  match decimal c with Some _ => true | None => false end.

(** [int(s)] for a string of digits. *)
Definition py_int (s : pystr) : Z :=
  fold_left (fun acc c => (acc * 10 + default 0 (decimal c))%Z) s 0%Z.

(** The pattern "KR3k0059_(\d+)\.md". *)
Definition file_number_pattern : regex :=
  lits (str "KR3k0059_") ~> Group 1 (Plus is_digit) ~> lits (str ".md").

(** Lines 41 to 46: [file_dict]. *)
Definition add_file (file_dict : gmap Z pystr) (file : pystr)
    : gmap Z pystr :=
  match re_search file_number_pattern file with
  | Some m =>
    let num := py_int (group m 1) in
    <[num := file]> file_dict
  | None => file_dict
  end.

Definition build_file_dict (files : list pystr) : gmap Z pystr :=
  fold_left add_file files ∅.

(** [sorted(file_dict.keys())] *)
Definition sorted_keys (file_dict : gmap Z pystr) : list Z :=
  merge_sort Z.le (map_to_list file_dict).*1.

(** The body of [for num in sorted(file_dict.keys())], on the local
    variable [merged_count]. *)
Definition merge_step `{Host} (file_dict : gmap Z pystr) (num : Z)
    (merged_count : Z) : M world Z :=
  if (num mod 2 =? 1)%Z then
    let catalog_file := file_dict !! num in
    let content_file := file_dict !! (num + 1)%Z in
    match catalog_file, content_file with
    | Some catalog_file, Some content_file =>
      print (Merging catalog_file content_file) ;;;
      catalog <- extract_frontmatter_and_content catalog_file ;;
      content <- extract_frontmatter_and_content content_file ;;
      let '(catalog_fm, catalog_body) := catalog in
      let '(content_fm, content_body) := content in
      write_text (output_name num)
        (merged_content catalog_fm catalog_body content_fm content_body) ;;;
      ret (merged_count + 1)%Z
    | Some catalog_file, None =>
      print (No_content_file catalog_file) ;;;
      ret merged_count
    | None, _ => ret merged_count
    end
  else ret merged_count.

Definition merge_files `{Host} : M world unit :=
  mkdir_exist_ok ;;;
  w <- get ;;
  let files := sorted (glob_KR3k0059 (md_dir w)) in
  let file_dict := build_file_dict files in
  merged_count <- for_each (sorted_keys file_dict) (merge_step file_dict) 0%Z ;;
  print (Done merged_count) ;;;
  print Output_dir_line.

(** *** Vocabulary of the properties (not in the source) *)

(** The sequence number the loop reads off a file name, if any. *)
Definition file_number (file : pystr) : option Z :=
  (fun m => py_int (group m 1)) <$> re_search file_number_pattern file.

(** The [file_dict] a run builds from its source directory. *)
Definition run_file_dict (w : Merger.world) : gmap Z pystr :=
  build_file_dict (sorted (glob_KR3k0059 (Merger.md_dir w))).

End Digits.

(** What is written for a pair, from the texts of its two files: lines
    60 to 69 with the two reads done. *)
Definition merge_texts (catalog content : pystr) : pystr :=
  let '(catalog_fm, catalog_body) := frontmatter_and_content catalog in
  let '(content_fm, content_body) := frontmatter_and_content content in
  merged_content catalog_fm catalog_body content_fm content_body.

(** The text a pair's output file must hold: there is one when both
    files of the pair can be read. *)
Definition pair_output (d : option directory) (file_dict : gmap Z pystr)
    (num : Z) : option pystr :=
  match file_dict !! num, file_dict !! (num + 1)%Z with
  | Some catalog_file, Some content_file =>
    match read_text d catalog_file, read_text d content_file with
    | inr catalog, inr content => Some (merge_texts catalog content)
    | _, _ => None
    end
  | _, _ => None
  end.

(** Every file of the directory can be read. *)
Definition all_readable (d : option directory) : Prop :=
  forall d' name node,
    d = Some d' -> entries d' !! name = Some node ->
    exists content, node = Readable content.

(** The files of the output directory. *)
Definition output_files (w : Merger.world) : gmap pystr pystr :=
  default ∅ (output_dir w).

(** [num] is a catalog number whose content file exists too. *)
Definition complete_pair (file_dict : gmap Z pystr) (num : Z) : bool :=
  (num mod 2 =? 1)%Z
  && bool_decide (is_Some (file_dict !! num))
  && bool_decide (is_Some (file_dict !! (num + 1)%Z)).

(** The decimal digits of ASCII, the ones the corpus uses. *)
Definition ascii_decimal (c : pychar) : option Z :=
  if ((48 <=? c) && (c <=? 57))%N then Some (Z.of_N c - 48)%Z else None.

(** The file names in the text of a line. *)
Definition line_names (m : Merger.message) : list pystr :=
  match m with
  | Merging catalog_name content_name => [catalog_name; content_name]
  | No_content_file catalog_name => [catalog_name]
  | Done _ | Output_dir_line => []
  end.

(** A host whose standard output is strict UTF-8, Python's default (a
    line is encodable unless a file name in it holds a lone surrogate),
    and whose output directory can be made and written. *)
Definition utf8_host : Host :=
  {| printable m := forallb encodable_utf8 (line_names m);
     may_create := true;
     may_write _ := true |}.

(** Nothing of the host stands in the way: every line can be printed,
    the output directory made and every file in it written. *)
Definition obliging (H : Host) : Prop :=
  (forall m, printable m = true)
  /\ may_create = true
  /\ (forall name, may_write name = true).

End Merger.
Import Merger.

(** ** The specification's own words

    Definitions written from the specification, to be compared with the
    ones above, which are written from the source. *)

Module Spec.

(** The Converter as the specification describes it: a left-to-right
    fold over the state [(pending digit, running total)]. *)
Definition ones_digit (c : pychar) : option Z :=
  if (c =? chr "零")%N then Some 0%Z
  else if (c =? chr "一")%N then Some 1%Z
  else if (c =? chr "二")%N then Some 2%Z
  else if (c =? chr "三")%N then Some 3%Z
  else if (c =? chr "四")%N then Some 4%Z
  else if (c =? chr "五")%N then Some 5%Z
  else if (c =? chr "六")%N then Some 6%Z
  else if (c =? chr "七")%N then Some 7%Z
  else if (c =? chr "八")%N then Some 8%Z
  else if (c =? chr "九")%N then Some 9%Z
  else None.

Definition hundreds_marker : pychar := chr "百".
Definition tens_marker : pychar := chr "十".

Definition pending_or_one (pending : Z) : Z :=
  if (pending =? 0)%Z then 1%Z else pending.

(** A marker commits and clears the pending digit; a ones-digit
    overwrites it; any other character counts as zero. *)
Definition step (st : Z * Z) (c : pychar) : Z * Z :=
  let '(pending, total) := st in
  if (c =? hundreds_marker)%N then (0, total + pending_or_one pending * 100)%Z
  else if (c =? tens_marker)%N then (0, total + pending_or_one pending * 10)%Z
  else (default 0%Z (ones_digit c), total).

Definition converter_fold (s : pystr) : Z :=
  let '(pending, total) := fold_left step s (0%Z, 0%Z) in
  (total + pending)%Z.

(** The delimited form of a document: opening marker line, metadata,
    closing marker line, body. *)
Definition opening : pystr := str "---" ++ [LF].
Definition closing : pystr := [LF] ++ str "---" ++ [LF].

Definition wrap (metadata body : pystr) : pystr :=
  opening ++ metadata ++ closing ++ body.

(** The closing marker line of [wrap metadata body] is the first one
    after the opening line: no closing marker line starts inside the
    metadata. *)
Definition closes_first (metadata : pystr) : Prop :=
  find closing (metadata ++ closing) = Some (length metadata).

(** No line of the metadata is itself a marker line. *)
Definition no_marker_line (metadata : pystr) : Prop :=
  str "---" ∉ split_lines metadata.

End Spec.

(** ** The Splitter by string search *)

(** What the pattern computes, by string search: the text must start
    with the opening line, and the metadata ends at the first closing
    line after it. *)
Definition frontmatter_by_search (content : pystr) : option pystr * pystr :=
  match strip_prefix Spec.opening content with
  | Some rest =>
    match find Spec.closing rest with
    | Some i => (Some (take i rest), drop (i + length Spec.closing) rest)
    | None => (None, content)
    end
  | None => (None, content)
  end.

(** ** The heading patterns by inspection of the line *)

(** The longest run of characters satisfying [p] at the head of [s], and
    what follows it. *)
Fixpoint leading (p : pychar -> bool) (s : pystr) : pystr :=
  match s with
  | c :: s' => if p c then c :: leading p s' else []
  | [] => []
  end.

Fixpoint after_leading (p : pychar -> bool) (s : pystr) : pystr :=
  match s with
  | c :: s' => if p c then after_leading p s' else s
  | [] => []
  end.

(** The character [c], then the rest. *)
Definition expect (c : pychar) (s : pystr) : option pystr :=
  match s with
  | d :: s' => if (c =? d)%N then Some s' else None
  | [] => None
  end.

(** A run of one or more characters satisfying [p], then the rest. *)
Definition some_of (p : pychar -> bool) (s : pystr) : option (pystr * pystr) :=
  match leading p s with
  | [] => None
  | run => Some (run, after_leading p s)
  end.

(** Where [$] matches: at the end, or before a last line feed. *)
Definition at_end (s : pystr) : bool :=
  match s with
  | [] => true
  | [c] => (c =? LF)%N
  | _ => false
  end.

(** A heading up to its volume numerals: "#", white space, "卷",
    numerals; the numerals and what follows them. *)
Definition heading_volume (line : pystr) : option (pystr * pystr) :=
  r ← expect (chr "#") line;
  wr ← some_of py_isspace r;
  r ← expect (chr "卷") wr.2;
  some_of (one_of numerals) r.

(** Then "之" and section numerals, anything after. *)
Definition heading_with_section (line : pystr) : option (pystr * pystr) :=
  vr ← heading_volume line;
  r ← expect (chr "之") vr.2;
  sr ← some_of (one_of numerals) r;
  Some (vr.1, sr.1).

(** Or the end of the line, with "目録" before it or not. *)
Definition heading_without_section (line : pystr) : option pystr :=
  vr ← heading_volume line;
  if at_end vr.2
     || match strip_prefix (str "目録") vr.2 with
        | Some r => at_end r
        | None => false
        end
  then Some vr.1 else None.

(** ** Sample inputs *)

Module Examples.

Definition metadata : pystr := str "title: 卷一" ++ [LF] ++ str "id: 7".
Definition body : pystr := str "# 卷一之一" ++ [LF].

(** A catalog file whose metadata block is empty, and a content file
    with a metadata block of its own. *)
Definition catalog_empty_block : pystr :=
  str "---" ++ [LF] ++ [LF] ++ str "---" ++ [LF] ++ str "目録".
Definition content_with_block : pystr :=
  str "---" ++ [LF] ++ str "title: 正文" ++ [LF] ++ str "---" ++ [LF]
  ++ str "正文".

(** A document whose third line is the first heading. *)
Definition document_with_section : pystr :=
  str "---" ++ [LF] ++ str "卷一 目録" ++ [LF] ++ str "# 卷一之一" ++ [LF]
  ++ str "# 卷三目録" ++ [LF].
Definition document_without_section : pystr :=
  str "#卷九" ++ [LF] ++ str "# 卷三目録" ++ [LF] ++ str "# 卷一之一".
Definition document_without_heading : pystr :=
  str "卷一之一" ++ [LF] ++ str "# 卷三目" ++ [LF] ++ str "## 卷四".

(** A directory with an unreadable file between two good ones, and one
    whose only file already has its chapter name. *)
Definition md_with_unreadable : directory :=
  Directory
    (list_to_map
       [ (str "KR3k0059_001.md", Readable (str "# 卷三目録"));
         (str "KR3k0059_002.md", Unreadable);
         (str "KR3k0059_003.md", Readable (str "# 卷一之一")) ])
    true.

Definition md_renamed : directory :=
  Directory (list_to_map [ (str "001_01.md", Readable (str "# 卷一之一")) ]) true.

(** Two complete pairs around a catalog file without its content
    file. *)
Definition md_with_gap : directory :=
  Directory
    (list_to_map
       [ (str "KR3k0059_001.md", Readable (str "目録一"));
         (str "KR3k0059_002.md", Readable (str "正文一"));
         (str "KR3k0059_003.md", Readable (str "目録二"));
         (str "KR3k0059_005.md", Readable (str "目録三"));
         (str "KR3k0059_006.md", Readable (str "正文三")) ])
    true.

Definition content_plain : pystr := str "正文".

End Examples.

(** ** Vocabulary of the further properties *)

Module More.

(** The ones-digits, by value. *)
Definition digit_chars : list pychar :=
  [ chr "零"; chr "一"; chr "二"; chr "三"; chr "四";
    chr "五"; chr "六"; chr "七"; chr "八"; chr "九" ].

Definition digit_char (d : nat) : pychar := nth d digit_chars (chr "零").

(** A number below one thousand as the corpus writes it: each digit that
    is not zero, followed by its marker; "一百六十一", "一百二", "四十三". *)
Definition write_numeral (h t o : nat) : pystr :=
  (match h with 0 => [] | _ => [digit_char h; chr "百"] end)
  ++ (match t with 0 => [] | _ => [digit_char t; chr "十"] end)
  ++ (match o with 0 => [] | _ => [digit_char o] end).

(** The hundreds or the tens marker. *)
Definition is_marker (c : pychar) : bool :=
  (c =? chr "百")%N || (c =? chr "十")%N.

(** No digit is pending after [s]: it is empty or ends with a marker. *)
Definition ends_committed (s : pystr) : Prop :=
  s = [] \/ exists s' m, s = s' ++ [m] /\ is_marker m = true.

(** What the loop of [chinese_to_number] returns. *)
Definition loop_value (s : pystr) : Z :=
  let '(result, temp) := for_loop (0%Z, 0%Z) s in (result + temp)%Z.

(** The name is one the two scripts list. *)
Definition listed (name : pystr) : bool :=
  fnmatch_star (str "KR3k0059_") (str ".md") name.

(** The entry is something [exists()] sees: not a dangling link. *)
Definition present (entry : pystr * node) : Prop := entry.2 <> Dangling.

#[global] Instance present_dec entry : Decision (present entry).
Proof. unfold present. destruct entry.2; first [by left | right; by intros ?]. Defined.

(** What a run of the Renamer may have done to a directory: nothing
    that exists is lost and nothing that exists is overwritten. The
    number of entries that are not dangling links is the same, such
    entries under names that are not listed are where they were, each of
    them is still there under some name, and an entry under a listed
    name was under that name before. *)
Definition kept (d d' : directory) : Prop :=
  writable d' = writable d
  /\ size (filter present (entries d')) = size (filter present (entries d))
  /\ (forall name node,
        entries d !! name = Some node -> node <> Dangling ->
        listed name = false ->
        entries d' !! name = Some node)
  /\ (forall name node,
        entries d !! name = Some node -> node <> Dangling ->
        exists name', entries d' !! name' = Some node)
  /\ (forall name node,
        entries d' !! name = Some node -> listed name = true ->
        entries d !! name = Some node).

(** The Renamer cannot move the file: the directory is not writable,
    the file is not there or cannot be read, its text has no heading,
    or something exists under the name of its chapter. *)
Definition blocked (d : directory) (file : pystr) : Prop :=
  writable d = false
  \/ match entries d !! file with
     | None | Some Unreadable | Some Dangling => True
     | Some (Readable content) =>
       match parse_chapter_title content with
       | None => True
       | Some chap => exists_in d (canonical_name chap) = true
       end
     end.



(** A directory whose first file has a name with a lone surrogate, as
    Python reads a name with a byte that is not UTF-8. *)
Definition surrogate_name : pystr :=
  str "KR3k0059_0" ++ [56575%N] ++ str ".md".

Definition md_surrogate : directory :=
  Directory
    (list_to_map
       [ (surrogate_name, Readable (str "# 卷一"));
         (str "KR3k0059_1.md", Readable (str "# 卷二")) ])
    true.

(** A chapter name taken by a dangling link. *)
Definition md_dangling : directory :=
  Directory
    (list_to_map
       [ (str "KR3k0059_001.md", Readable (str "# 卷一之一"));
         (str "001_01.md", Dangling) ])
    true.

(** A catalog file without content file whose name has a lone
    surrogate, before a complete pair. *)
Definition surrogate_catalog : pystr :=
  str "KR3k0059_001.md" ++ [56575%N] ++ str ".md".

Definition md_surrogate_catalog : directory :=
  Directory
    (list_to_map
       [ (surrogate_catalog, Readable (str "目録一"));
         (str "KR3k0059_003.md", Readable (str "目録二"));
         (str "KR3k0059_004.md", Readable (str "正文二")) ])
    true.

(** A source directory and an output directory that already holds a
    file of another kind. *)
Definition world_with_notes : Merger.world :=
  Merger.World (Some Examples.md_with_gap)
    (Some {[ str "notes.txt" := str "x" ]}) [].

(** A source directory whose second pair has an unreadable file. *)
Definition md_pair_unreadable : directory :=
  Directory
    (list_to_map
       [ (str "KR3k0059_001.md", Readable (str "目録一"));
         (str "KR3k0059_002.md", Readable (str "正文一"));
         (str "KR3k0059_003.md", Readable (str "目録二"));
         (str "KR3k0059_004.md", Unreadable);
         (str "KR3k0059_005.md", Readable (str "目録三"));
         (str "KR3k0059_006.md", Readable (str "正文三")) ])
    true.

(** Two listed files with the same chapter. *)
Definition md_same_chapter : directory :=
  Directory
    (list_to_map
       [ (str "KR3k0059_001.md", Readable (str "# 卷一之一"));
         (str "KR3k0059_002.md", Readable (str "# 卷一之一")) ])
    true.

(** The lines of a run's output that report a rename done. *)
Definition is_renamed (m : Renamer.message) : bool :=
  match m with Renamed _ _ _ => true | _ => false end.

End More.

(** ** Tactics *)

Ltac run_renamer :=
  unfold iteration, try_except, try_body, bind, ret, raise, Renamer.print,
    open_read, path_exists, rename, get; cbn [Renamer.md_dir Renamer.stdout].

(** Closes a case of one loop iteration: the result, its one status line
    and its one count are read off the goal. *)
Ltac one_report :=
  eexists _, _, _; (split; [reflexivity|]); split; [done | cbn; lia].

Ltac run_merger :=
  unfold merge_step, bind, ret, Merger.print, write_text,
    extract_frontmatter_and_content;
  cbn [Merger.md_dir Merger.output_dir Merger.stdout].

(** Splits on whether the next line can be printed. *)
Ltac case_print :=
  match goal with
  | |- context [Renamer.printable ?m] =>
    destruct (Renamer.printable m) eqn:?; cbn
  | |- context [Merger.printable ?m] =>
    destruct (Merger.printable m) eqn:?; cbn
  end.

(** * Properties *)

(** ** Strings *)

Section Strings.

Lemma strip_prefix_app p s : strip_prefix p (p ++ s) = Some s.
Proof. induction p as [|c p IH]; cbn; [done|]. by rewrite N.eqb_refl. Qed.

Lemma strip_prefix_Some p : forall s t, strip_prefix p s = Some t -> s = p ++ t.
Proof.
  induction p as [|c p IH]; intros s t; cbn.
  - by intros [= ->].
  - destruct s as [|d s]; [done|].
    destruct (N.eqb_spec c d) as [->|]; [|done].
    intros H. by rewrite (IH _ _ H).
Qed.

Lemma strip_prefix_app_r p : forall s t,
  length p <= length s ->
  strip_prefix p (s ++ t) = (fun r => r ++ t) <$> strip_prefix p s.
Proof.
  induction p as [|c p IH]; intros s t Hlen; cbn; [done|].
  destruct s as [|d s]; cbn in *; [lia|].
  destruct (c =? d)%N; [|done]. apply IH. lia.
Qed.

Lemma startswith_true s p :
  startswith s p = true <-> exists t, s = p ++ t.
Proof.
  unfold startswith. split.
  - destruct (strip_prefix p s) as [t|] eqn:H; [|done].
    intros _. exists t. by apply strip_prefix_Some.
  - intros [t ->]. by rewrite strip_prefix_app.
Qed.

Lemma startswith_app_ge p s t :
  length p <= length s -> startswith (s ++ t) p = startswith s p.
Proof.
  intros Hlen. unfold startswith. rewrite strip_prefix_app_r by done.
  by destruct (strip_prefix p s).
Qed.

Lemma find_unfold p s :
  find p s =
  if startswith s p then Some 0
  else match s with
       | [] => None
       | _ :: s' => S <$> find p s'
       end.
Proof. by destruct s. Qed.

Lemma find_bound p : forall s i, find p s = Some i -> i + length p <= length s.
Proof.
  induction s as [|c s IH]; intros i; rewrite find_unfold.
  - destruct (startswith [] p) eqn:Hsw; [|done].
    apply startswith_true in Hsw as [t Ht]. intros [= <-].
    apply (f_equal length) in Ht. rewrite length_app in Ht. cbn in *. lia.
  - destruct (startswith (c :: s) p) eqn:Hsw.
    + apply startswith_true in Hsw as [t Ht]. intros [= <-].
      apply (f_equal length) in Ht. rewrite length_app in Ht. cbn in *. lia.
    + destruct (find p s) as [j|] eqn:Hj; [|done].
      intros [= <-]. specialize (IH _ eq_refl). cbn. lia.
Qed.

(** An occurrence found in [s] is still the first one in [s ++ t]. *)
Lemma find_app p t : forall s i, find p s = Some i -> find p (s ++ t) = Some i.
Proof.
  induction s as [|c s IH]; intros i Hi.
  - pose proof (find_bound _ _ _ Hi) as Hb. cbn in Hb.
    destruct p; [|cbn in Hb; lia]. cbn in Hi. injection Hi as <-.
    by rewrite find_unfold.
  - pose proof (find_bound _ _ _ Hi) as Hb.
    rewrite find_unfold in Hi. rewrite find_unfold.
    change ((c :: s) ++ t) with (c :: (s ++ t)).
    change (c :: (s ++ t)) with ((c :: s) ++ t) at 1.
    rewrite startswith_app_ge by lia.
    destruct (startswith (c :: s) p); [done|].
    destruct (find p s) as [j|] eqn:Hj; [|done].
    by rewrite (IH _ eq_refl).
Qed.

(** Where [find] points, the pattern stands. *)
Lemma find_Some_app p : forall s i,
  find p s = Some i -> s = take i s ++ p ++ drop (i + length p) s.
Proof.
  induction s as [|c s IH]; intros i; rewrite find_unfold.
  - destruct (startswith [] p) eqn:Hsw; [|done].
    apply startswith_true in Hsw as [t Ht]. intros [= <-].
    destruct p; [|done]. done.
  - destruct (startswith (c :: s) p) eqn:Hsw.
    + apply startswith_true in Hsw as [t Ht]. intros [= <-].
      rewrite Ht. change (0 + length p) with (length p).
      by rewrite drop_app_length.
    + destruct (find p s) as [j|] eqn:Hj; [|done].
      intros [= <-]. cbn. f_equal. by apply IH.
Qed.

(** A pattern that occurs is found, at its occurrence or before. *)
Lemma find_occurs p pre post :
  exists i, find p (pre ++ p ++ post) = Some i /\ i <= length pre.
Proof.
  induction pre as [|c pre (i & IH & Hi)]; rewrite find_unfold.
  - exists 0. split; [|done]. cbn [app].
    by rewrite (proj2 (startswith_true (p ++ post) p)) by by exists post.
  - destruct (startswith _ p); [exists 0; split; [done | lia]|].
    cbn [app]. rewrite IH. exists (S i). split; [done | cbn; lia].
Qed.

(** The first occurrence stays the first when the text is cut right
    after it. *)
Lemma find_take p s i : find p s = Some i -> find p (take i s ++ p) = Some i.
Proof.
  revert i. induction s as [|c s IH]; intros i Hi.
  - pose proof (find_bound _ _ _ Hi) as Hb.
    destruct p; [|cbn in Hb; lia]. cbn in Hb. by replace i with 0 by lia.
  - pose proof (find_Some_app _ _ _ Hi) as Hs.
    pose proof (find_bound _ _ _ Hi) as Hb.
    rewrite find_unfold in Hi.
    assert (Hsw : startswith (take i (c :: s) ++ p) p = startswith (c :: s) p).
    { remember (take i (c :: s)) as pre eqn:Hpre.
      remember (drop (i + length p) (c :: s)) as post eqn:Hpost.
      rewrite Hs, (assoc_L (++)). symmetry. apply startswith_app_ge.
      rewrite length_app. lia. }
    rewrite find_unfold, Hsw.
    destruct (startswith (c :: s) p) eqn:Hc; [done|].
    destruct (find p s) as [j|] eqn:Hj; [|done].
    injection Hi as <-. cbn [firstn app]. by rewrite (IH _ eq_refl).
Qed.

End Strings.

(** ** Lines *)

Section Lines.

Lemma split_lines_cons_lf s : split_lines (LF :: s) = [] :: split_lines s.
Proof. reflexivity. Qed.

Lemma split_lines_nonempty s : split_lines s <> [].
Proof.
  induction s as [|c s IH]; [done|]. cbn.
  destruct (c =? LF)%N; [done|]. by destruct (split_lines s).
Qed.

(** Lines before a line feed and lines after it. *)
Lemma split_lines_app a b :
  Forall (fun c => c <> LF) a ->
  split_lines (a ++ LF :: b) = a :: split_lines b.
Proof.
  induction 1 as [|c a Hc _ IH]; [done|].
  cbn [app split_lines]. apply N.eqb_neq in Hc. by rewrite Hc, IH.
Qed.

Lemma split_lines_cons c s :
  c <> LF -> split_lines (c :: s) = (c :: first_line s) :: tl (split_lines s).
Proof.
  intros Hc%N.eqb_neq. unfold first_line. cbn [split_lines]. rewrite Hc.
  pose proof (split_lines_nonempty s). by destruct (split_lines s).
Qed.

Lemma first_line_app_lf s t : first_line (s ++ LF :: t) = first_line s.
Proof.
  induction s as [|c s IH]; [done|]. cbn [app].
  destruct (N.eqb_spec c LF) as [->|Hc]; [done|].
  unfold first_line in *. rewrite !split_lines_cons by done. cbn. by f_equal.
Qed.

Lemma first_line_no_lf l : Forall (fun c => c <> LF) l -> first_line l = l.
Proof.
  induction 1 as [|c l Hc _ IH]; [done|].
  unfold first_line in *. rewrite split_lines_cons by done. cbn. by f_equal.
Qed.

(** A text followed by a line feed starts with its first line and a
    line feed. *)
Lemma first_line_prefix s t :
  exists rest, s ++ LF :: t = first_line s ++ LF :: rest.
Proof.
  induction s as [|c s [rest IH]]; [by exists t|]. cbn [app].
  destruct (N.eqb_spec c LF) as [->|Hc]; [by eexists|].
  unfold first_line in *. rewrite split_lines_cons by done. cbn.
  rewrite IH. by eexists.
Qed.

Lemma startswith_first_line l s t :
  Forall (fun c => c <> LF) l ->
  startswith (s ++ LF :: t) (l ++ [LF]) = true <-> first_line s = l.
Proof.
  intros Hl. rewrite startswith_true. split.
  - intros [rest H]. rewrite <- (assoc_L (++)) in H. cbn [app] in H.
    apply (f_equal first_line) in H.
    by rewrite !first_line_app_lf, (first_line_no_lf _ Hl) in H.
  - intros <-. destruct (first_line_prefix s t) as [rest ->].
    exists rest. by rewrite <- (assoc_L (++)).
Qed.

(** The closing marker line is the first one exactly when no line of the
    metadata after its first line is a marker line. *)
Lemma closes_first_lines metadata :
  Spec.closes_first metadata <-> str "---" ∉ tl (split_lines metadata).
Proof.
  unfold Spec.closes_first.
  induction metadata as [|c m IH].
  - split; [intros _; cbn; by intros ?%elem_of_nil | done].
  - rewrite find_unfold. cbn [app length].
    destruct (N.eqb_spec c LF) as [->|Hc].
    + change (split_lines (LF :: m)) with ([] :: split_lines m). cbn [tl].
      pose proof (split_lines_nonempty m) as Hne.
      assert (Hsw : startswith (LF :: m ++ Spec.closing) Spec.closing
                    = startswith (m ++ Spec.closing) (str "---" ++ [LF])).
      { reflexivity. }
      rewrite Hsw.
      destruct (startswith (m ++ Spec.closing) (str "---" ++ [LF])) eqn:Hs.
      * apply (startswith_first_line (str "---") m (str "---" ++ [LF])) in Hs;
          [|by repeat constructor].
        split; [done|]. intros Hno. exfalso. apply Hno.
        unfold first_line in Hs. destruct (split_lines m); [done|].
        cbn in Hs. subst. by left.
      * assert (Hfl : first_line m <> str "---").
        { intros Hfl.
          apply (startswith_first_line (str "---") m (str "---" ++ [LF])) in Hfl;
            [|by repeat constructor].
          unfold Spec.closing in Hs. cbn [app] in Hs, Hfl. congruence. }
        unfold first_line in Hfl. destruct (split_lines m) as [|l ls]; [done|].
        cbn [hd tl] in *. rewrite not_elem_of_cons.
        destruct (find Spec.closing (m ++ Spec.closing)) as [i|]; cbn.
        -- split.
           ++ intros [= ->]. split; [done | by apply IH].
           ++ intros [_ Hls]. f_equal. apply IH in Hls. congruence.
        -- split; [done|]. intros [_ Hls]. by apply IH in Hls.
    + rewrite split_lines_cons by done. cbn [tl].
      assert (Hsw : startswith (c :: m ++ Spec.closing) Spec.closing = false).
      { unfold startswith, Spec.closing. cbn [app strip_prefix].
        apply not_eq_sym, N.eqb_neq in Hc. by rewrite Hc. }
      rewrite Hsw.
      destruct (find Spec.closing (m ++ Spec.closing)) as [i|]; cbn.
      * split.
        -- intros [= ->]. by apply IH.
        -- intros Hls. f_equal. apply IH in Hls. congruence.
      * split; [done|]. intros Hls. by apply IH in Hls.
Qed.

Lemma no_marker_line_closes_first metadata :
  Spec.no_marker_line metadata -> Spec.closes_first metadata.
Proof.
  unfold Spec.no_marker_line. intros Hno. apply closes_first_lines.
  intros Hin. apply Hno. pose proof (split_lines_nonempty metadata).
  destruct (split_lines metadata); [done|]. by right.
Qed.

End Lines.

(** ** Formatted numbers *)

Section Formatting.

Lemma uint_chars_digits d :
  Forall (fun c => (48 <= c <= 57)%N) (uint_chars d).
Proof. induction d; cbn; constructor; (lia || assumption). Qed.

Lemma chars_uint_chars d : chars_uint (uint_chars d) = d.
Proof. induction d; cbn; by f_equal. Qed.

Lemma parse_nat_zfill width n : parse_nat (zfill width (decimal_chars n)) = n.
Proof.
  unfold parse_nat, zfill, decimal_chars.
  induction (width - length (uint_chars (N.to_uint n))) as [|k IH].
  - cbn. rewrite chars_uint_chars. apply DecimalN.Unsigned.of_to.
  - exact IH.
Qed.

Lemma zfill_digits width n :
  Forall (fun c => (48 <= c <= 57)%N) (zfill width (decimal_chars n)).
Proof.
  unfold zfill, decimal_chars. apply Forall_app. split.
  - apply Forall_forall. intros c Hc.
    apply list_elem_of_In, repeat_spec in Hc. lia.
  - apply uint_chars_digits.
Qed.

Lemma format_0d_inj width a b : format_0d width a = format_0d width b -> a = b.
Proof.
  unfold format_0d.
  destruct (Z.ltb_spec a 0) as [Ha|Ha], (Z.ltb_spec b 0) as [Hb|Hb]; intros H.
  - injection H as H. apply (f_equal parse_nat) in H.
    rewrite !parse_nat_zfill in H. lia.
  - pose proof (zfill_digits width (Z.to_N b)) as Hd. rewrite <- H in Hd.
    apply Forall_cons_1 in Hd as [Hd _]. change (chr "-") with 45%N in Hd. lia.
  - pose proof (zfill_digits width (Z.to_N a)) as Hd. rewrite H in Hd.
    apply Forall_cons_1 in Hd as [Hd _]. change (chr "-") with 45%N in Hd. lia.
  - apply (f_equal parse_nat) in H. rewrite !parse_nat_zfill in H. lia.
Qed.

(** Different numbers give different output files. *)
Lemma output_name_inj a b : output_name a = output_name b -> a = b.
Proof.
  unfold output_name. intros H. apply app_inv_head, app_inv_tail in H.
  by apply format_0d_inj in H.
Qed.

End Formatting.

(** ** The regular-expression engine *)

Section Engine.

Lemma run_cat n r1 r2 s g k :
  run n (r1 ~> r2) s g k = run n r1 s g (fun s' g' => run n r2 s' g' k).
Proof. reflexivity. Qed.

Lemma run_bos s g k : run (length s) Bos s g k = k s g.
Proof. cbn. by rewrite Nat.eqb_refl. Qed.

Lemma run_lits n p : forall s g k,
  run n (lits p) s g k =
  match strip_prefix p s with Some s' => k s' g | None => None end.
Proof.
  induction p as [|c p IH]; intros s g k; [done|].
  cbn [lits]. rewrite run_cat. cbn [run strip_prefix].
  destruct s as [|d s]; [done|]. unfold lit.
  destruct (c =? d)%N; [apply IH | done].
Qed.

(** A greedy [.*] takes everything when what follows accepts the end. *)
Lemma star_greedy_any_all {A} (k : pystr -> option A) a :
  k [] = Some a -> forall s, star_greedy any s k = Some a.
Proof.
  intros Hk. induction s as [|c s IH]; cbn; [done|]. by rewrite IH.
Qed.

(** A lazy [.*?] followed by a literal stops at the literal's first
    occurrence. *)
Lemma star_lazy_any_find {A} (p : pystr) (f : pystr -> pystr -> A)
    (k : pystr -> option A) :
  (forall s', k s' = f s' <$> strip_prefix p s') ->
  forall s,
    star_lazy any s k
    = (fun i => f (drop i s) (drop (i + length p) s)) <$> find p s.
Proof.
  intros Hk. induction s as [|c s IH].
  - cbn [star_lazy]. rewrite Hk, find_unfold. unfold startswith.
    destruct (strip_prefix p []) as [t|] eqn:Hp; [|done].
    apply strip_prefix_Some in Hp. by destruct p, t.
  - cbn [star_lazy]. rewrite Hk, find_unfold. unfold startswith.
    destruct (strip_prefix p (c :: s)) as [t|] eqn:Hp.
    + apply strip_prefix_Some in Hp. cbn [fmap option_fmap option_map].
      rewrite Hp. change (0 + length p) with (length p).
      by rewrite drop_app_length.
    + cbn [fmap option_fmap option_map any]. rewrite IH.
      by destruct (find p s).
Qed.

Lemma star_greedy_Some {A} p (k : pystr -> option A) a : forall s,
  star_greedy p s k = Some a -> exists s', k s' = Some a.
Proof.
  induction s as [|c s IH]; cbn; [by eauto|].
  destruct (p c); [|by eauto].
  destruct (star_greedy p s k) eqn:H; [|by eauto].
  intros [= ->]. by apply IH.
Qed.

Lemma star_lazy_Some {A} p (k : pystr -> option A) a : forall s,
  star_lazy p s k = Some a -> exists s', k s' = Some a.
Proof.
  induction s as [|c s IH]; cbn.
  - destruct (k []) eqn:H; [|done]. intros [= ->]. by eauto.
  - destruct (k (c :: s)) eqn:H; [intros [= ->]; by eauto|].
    destruct (p c); [exact IH | done].
Qed.

(** A match reaches its continuation with every earlier group kept and
    every mandatory group of the pattern set. *)
Lemma run_groups n r : forall s g k m,
  run n r s g k = Some m ->
  exists s' g',
    k s' g' = Some m
    /\ (forall i, is_Some (g !! i) -> is_Some (g' !! i))
    /\ (forall i, i ∈ mandatory r -> is_Some (g' !! i)).
Proof.
  induction r as [| | |p|r1 IH1 r2 IH2|p|p|p|r IH|j r IH]; intros s g k m;
    cbn [run mandatory].
  - destruct (length s =? n); [|done]. intros H. exists s, g.
    split; [done|]. split; [done|]. by intros i ?%elem_of_nil.
  - intros H. exists s, g. split; [|split; [done | by intros i ?%elem_of_nil]].
    destruct s as [|c [|??]]; [done| |done]. by destruct (c =? LF)%N.
  - intros H. exists s, g. split; [done|]. split; [done|].
    by intros i ?%elem_of_nil.
  - destruct s as [|c s]; [done|]. destruct (p c); [|done]. intros H.
    exists s, g. split; [done|]. split; [done|]. by intros i ?%elem_of_nil.
  - intros H. apply IH1 in H as (s1 & g1 & H & Hkeep1 & Hset1).
    apply IH2 in H as (s2 & g2 & H & Hkeep2 & Hset2).
    exists s2, g2. split; [done|]. split; [by auto|].
    intros i [Hi|Hi]%elem_of_app; by auto.
  - destruct s as [|c s]; [done|]. destruct (p c); [|done].
    intros (s' & H)%star_greedy_Some. exists s', g.
    split; [done|]. split; [done|]. by intros i ?%elem_of_nil.
  - intros (s' & H)%star_greedy_Some. exists s', g.
    split; [done|]. split; [done|]. by intros i ?%elem_of_nil.
  - intros (s' & H)%star_lazy_Some. exists s', g.
    split; [done|]. split; [done|]. by intros i ?%elem_of_nil.
  - destruct (run n r s g k) eqn:Hr.
    + intros [= ->]. apply IH in Hr as (s' & g' & H & Hkeep & _).
      exists s', g'. split; [done|]. split; [done|]. by intros i ?%elem_of_nil.
    + intros H. exists s, g. split; [done|]. split; [done|].
      by intros i ?%elem_of_nil.
  - intros H. apply IH in H as (s' & g' & H & Hkeep & Hset).
    eexists s', _. split; [exact H|]. split.
    + intros i Hi. destruct (decide (j = i)) as [->|Hne].
      * rewrite lookup_insert_eq. by eexists.
      * rewrite lookup_insert_ne by done. by auto.
    + intros i [->|Hi]%elem_of_cons.
      * rewrite lookup_insert_eq. by eexists.
      * destruct (decide (j = i)) as [->|Hne].
        -- rewrite lookup_insert_eq. by eexists.
        -- rewrite lookup_insert_ne by done. by auto.
Qed.

Lemma re_match_groups r s m i :
  re_match r s = Some m -> i ∈ mandatory r -> is_Some (m !! i).
Proof.
  unfold re_match. intros (s' & g' & [= <-] & _ & Hset)%run_groups. by apply Hset.
Qed.

Lemma re_search_groups r s m i :
  re_search r s = Some m -> i ∈ mandatory r -> is_Some (m !! i).
Proof.
  unfold re_search. generalize (length s). intros n.
  induction s as [|c s IH]; cbn [search_from].
  - destruct (run n r [] ∅ _) eqn:H; [|done]. intros [= ->].
    apply run_groups in H as (s' & g' & [= <-] & _ & Hset). by apply Hset.
  - destruct (run n r (c :: s) ∅ _) eqn:H; [|exact IH]. intros [= ->].
    apply run_groups in H as (s' & g' & [= <-] & _ & Hset). by apply Hset.
Qed.

(** The groups the scripts read are set by every match of their
    patterns. *)
Lemma source_patterns_groups decimal s m :
  (re_match pattern_with_section s = Some m ->
   is_Some (m !! 1) /\ is_Some (m !! 2))
  /\ (re_match pattern_without_section s = Some m -> is_Some (m !! 1))
  /\ (re_match frontmatter_pattern s = Some m ->
      is_Some (m !! 1) /\ is_Some (m !! 2))
  /\ (re_search (file_number_pattern decimal) s = Some m -> is_Some (m !! 1)).
Proof.
  split; [|split; [|split]]; intros H.
  - split.
    + apply (re_match_groups _ _ _ 1 H). cbn. set_solver.
    + apply (re_match_groups _ _ _ 2 H). cbn. set_solver.
  - apply (re_match_groups _ _ _ 1 H). cbn. set_solver.
  - split.
    + apply (re_match_groups _ _ _ 1 H). cbn. set_solver.
    + apply (re_match_groups _ _ _ 2 H). cbn. set_solver.
  - apply (re_search_groups _ _ _ 1 H). cbn. set_solver.
Qed.

End Engine.

(** ** The heading patterns *)

Section Headings.

Lemma leading_app p s : leading p s ++ after_leading p s = s.
Proof. induction s as [|c s IH]; cbn; [done|]. destruct (p c); cbn; by f_equal. Qed.

(** When what follows a greedy run rejects every text that starts with
    a character of the run, giving characters back never helps. *)
Lemma star_greedy_commit {A} p (k : pystr -> option A) :
  (forall c s', p c = true -> k (c :: s') = None) ->
  forall s, star_greedy p s k = k (after_leading p s).
Proof.
  intros Hk. induction s as [|c s IH]; cbn; [done|].
  destruct (p c) eqn:Hc; [|done]. rewrite IH.
  destruct (k (after_leading p s)); [done|]. by apply Hk.
Qed.

(** When it accepts right after the longest run, that is the match. *)
Lemma star_greedy_accept {A} p (k : pystr -> option A) a : forall s,
  k (after_leading p s) = Some a -> star_greedy p s k = Some a.
Proof.
  induction s as [|c s IH]; cbn; [done|].
  destruct (p c); [|done]. intros H. by rewrite (IH H).
Qed.

Lemma run_chr n c s g k :
  run n (Chr (lit c)) s g k =
  match expect c s with Some s' => k s' g | None => None end.
Proof. destruct s as [|d s]; [done|]. cbn. unfold lit. by destruct (c =? d)%N. Qed.

Lemma run_opt n r s g k :
  run n (Opt r) s g k =
  match run n r s g k with Some m => Some m | None => k s g end.
Proof. reflexivity. Qed.

Lemma run_eos n s g k : run n Eos s g k = if at_end s then k s g else None.
Proof. by destruct s as [|c [|??]]. Qed.

Lemma take_leading p c s :
  take (length (c :: s) - length (after_leading p s)) (c :: s)
  = c :: leading p s.
Proof.
  pose proof (leading_app p s) as Happ.
  set (l := leading p s) in *. set (a := after_leading p s) in *.
  rewrite <- Happ. cbn [length]. rewrite length_app.
  replace (S (length l + length a) - length a) with (S (length l)) by lia.
  cbn [firstn]. by rewrite take_app_length.
Qed.

Lemma run_plus_commit n p s g k :
  (forall c s', p c = true -> k (c :: s') g = None) ->
  run n (Plus p) s g k =
  match some_of p s with Some wr => k wr.2 g | None => None end.
Proof.
  intros Hk. unfold some_of. destruct s as [|c s]; [done|]. cbn.
  destruct (p c); [|done]. by rewrite star_greedy_commit.
Qed.

Lemma run_group_plus_commit n i p s g k :
  (forall c s' g', p c = true -> k (c :: s') g' = None) ->
  run n (Group i (Plus p)) s g k =
  match some_of p s with
  | Some vr => k vr.2 (<[i := vr.1]> g)
  | None => None
  end.
Proof.
  intros Hk. unfold some_of. destruct s as [|c s]; [done|].
  cbn [run leading after_leading]. destruct (p c); [|done].
  rewrite star_greedy_commit by (intros; by apply Hk).
  cbn [fst snd]. by rewrite take_leading.
Qed.

Lemma run_group_plus_accept n i p s g :
  run n (Group i (Plus p)) s g (fun _ g' => Some g') =
  match some_of p s with
  | Some vr => Some (<[i := vr.1]> g)
  | None => None
  end.
Proof.
  unfold some_of. destruct s as [|c s]; [done|].
  cbn [run leading after_leading]. destruct (p c); [|done].
  erewrite star_greedy_accept; [|reflexivity].
  cbn [fst]. by rewrite take_leading.
Qed.

Lemma space_not_juan c : py_isspace c = true -> (chr "卷" =? c)%N = false.
Proof.
  intros H. apply N.eqb_neq. intros <-. vm_compute in H. discriminate.
Qed.

Lemma numeral_not c d :
  one_of numerals d = false -> one_of numerals c = true -> (d =? c)%N = false.
Proof. intros Hd Hc. apply N.eqb_neq. intros ->. congruence. Qed.

(** Both patterns start alike. *)
Lemma heading_volume_run n i line k :
  (forall c s' g', one_of numerals c = true -> k (c :: s') g' = None) ->
  run n
    (Chr (lit (chr "#")) ~> Plus py_isspace ~> Chr (lit (chr "卷"))
     ~> Group i (Plus (one_of numerals)))
    line ∅ k
  = match heading_volume line with
    | Some vr => k vr.2 (<[i := vr.1]> ∅)
    | None => None
    end.
Proof.
  intros Hk. unfold heading_volume. rewrite run_cat, run_chr.
  destruct (expect (chr "#") line) as [r|]; [|done].
  rewrite run_cat, run_plus_commit.
  2:{ intros c s' Hc. by rewrite run_cat, run_chr; cbn; rewrite space_not_juan. }
  cbn [mbind option_bind].
  destruct (some_of py_isspace r) as [wr|]; [|done].
  rewrite run_cat, run_chr. cbn [mbind option_bind].
  destruct (expect (chr "卷") wr.2) as [r'|]; [|done].
  by rewrite run_group_plus_commit.
Qed.

Lemma run_assoc n r1 r2 r3 s g k :
  run n (r1 ~> r2 ~> r3) s g k = run n ((r1 ~> r2) ~> r3) s g k.
Proof. reflexivity. Qed.

(** What the pattern with a section matches, and its two groups. *)
Lemma pattern_with_section_match line :
  re_match pattern_with_section line
  = (fun vs => <[2 := vs.2]> (<[1 := vs.1]> (∅ : groups)))
    <$> heading_with_section line.
Proof.
  unfold re_match, pattern_with_section, heading_with_section.
  rewrite run_cat, run_bos.
  change (run ?n (?a ~> ?b ~> ?c ~> ?d ~> ?e) ?s ?g ?k)
    with (run n (a ~> b ~> c ~> d) s g (fun s' g' => run n e s' g' k)).
  rewrite heading_volume_run.
  2:{ intros c s' g' Hc. rewrite run_cat, run_chr. cbn [expect].
      by rewrite (numeral_not c (chr "之")). }
  destruct (heading_volume line) as [vr|]; [|done]. cbn [mbind option_bind].
  rewrite run_cat, run_chr.
  destruct (expect (chr "之") vr.2) as [r|]; [|done]. cbn [mbind option_bind].
  rewrite run_group_plus_accept.
  by destruct (some_of (one_of numerals) r).
Qed.

(** What the pattern without a section matches, and its group. *)
Lemma pattern_without_section_match line :
  re_match pattern_without_section line
  = (fun v => <[1 := v]> (∅ : groups)) <$> heading_without_section line.
Proof.
  unfold re_match, pattern_without_section, heading_without_section.
  rewrite run_cat, run_bos.
  change (run ?n (?a ~> ?b ~> ?c ~> ?d ~> ?e) ?s ?g ?k)
    with (run n (a ~> b ~> c ~> d) s g (fun s' g' => run n e s' g' k)).
  rewrite heading_volume_run.
  - destruct (heading_volume line) as [vr|]; [|done]. cbn [mbind option_bind].
    rewrite run_cat, run_opt, run_lits.
    destruct (strip_prefix (str "目録") vr.2) as [r|].
    + rewrite !run_eos. destruct (at_end r); [by rewrite orb_true_r|].
      rewrite orb_false_r. by destruct (at_end vr.2).
    + rewrite run_eos, orb_false_r. by destruct (at_end vr.2).
  - intros c s' g' Hc. rewrite run_cat, run_opt, run_lits, run_eos.
    change (str "目録") with (chr "目" :: [chr "録"]). cbn [strip_prefix].
    rewrite (numeral_not c (chr "目")) by done.
    destruct s' as [|??]; [|done]. cbn [at_end].
    by rewrite N.eqb_sym, (numeral_not c LF).
Qed.

(** A line matches at most one of the two patterns. *)
Lemma heading_patterns_exclusive line :
  is_Some (re_match pattern_with_section line) ->
  re_match pattern_without_section line = None.
Proof.
  rewrite pattern_with_section_match, pattern_without_section_match.
  unfold heading_with_section, heading_without_section.
  destruct (heading_volume line) as [[v r]|]; [|by intros [? [=]]].
  cbn [mbind option_bind fst snd]. destruct r as [|z r]; [by intros [? [=]]|].
  cbn [expect]. destruct (N.eqb_spec (chr "之") z) as [<-|]; [|by intros [? [=]]].
  intros _. by destruct r as [|? [|??]].
Qed.

End Headings.

(** ** The Converter *)

Section Converter.
Local Open Scope Z_scope.

Lemma dict_get_nonneg d key dflt :
  Forall (fun kv => 0 <= kv.2) d -> 0 <= dflt -> 0 <= dict_get d key dflt.
Proof.
  intros Hd Hdflt. induction Hd as [|[k v] d Hv _ IH]; simpl; [done|].
  destruct (k =? key)%N; [exact Hv | exact IH].
Qed.

Lemma chinese_nums_nonneg : Forall (fun kv => 0 <= kv.2) chinese_nums.
Proof. unfold chinese_nums. repeat constructor; simpl; lia. Qed.

Lemma loop_body_nonneg st char :
  0 <= st.1 -> 0 <= st.2 -> 0 <= (loop_body st char).1 /\ 0 <= (loop_body st char).2.
Proof.
  destruct st as [result temp]. cbn [fst snd]. intros Hr Ht.
  unfold loop_body.
  destruct (char =? chr "百")%N; [|destruct (char =? chr "十")%N].
  - destruct (Z.eqb_spec temp 0); cbn [fst snd]; lia.
  - destruct (Z.eqb_spec temp 0); cbn [fst snd]; lia.
  - cbn [fst snd]. split; [lia|].
    apply dict_get_nonneg; [apply chinese_nums_nonneg | lia].
Qed.

Lemma for_loop_nonneg chars : forall st,
  0 <= st.1 -> 0 <= st.2 ->
  0 <= (for_loop st chars).1 /\ 0 <= (for_loop st chars).2.
Proof.
  induction chars as [|c chars IH]; intros st Hr Ht; cbn [for_loop]; [done|].
  destruct (loop_body_nonneg st c Hr Ht). by apply IH.
Qed.

Lemma chinese_to_number_nonneg s : 0 <= chinese_to_number s.
Proof.
  assert (Hloop : 0 <= (let '(result, temp) := for_loop (0, 0) s in result + temp)).
  { pose proof (for_loop_nonneg s (0, 0)) as H. simpl in H.
    destruct (for_loop (0, 0) s) as [r t]. simpl in H. lia. }
  destruct s as [|c [|c' s']]; try exact Hloop.
  change (0 <= dict_get chinese_nums c 0).
  apply dict_get_nonneg; [apply chinese_nums_nonneg | lia].
Qed.

(** The source's loop body and the specification's step agree on every
    state and character, the two components swapped. *)
Lemma loop_body_step result temp c :
  loop_body (result, temp) c =
  ((Spec.step (temp, result) c).2, (Spec.step (temp, result) c).1).
Proof.
  unfold loop_body, Spec.step, Spec.hundreds_marker, Spec.tens_marker,
    Spec.pending_or_one.
  destruct (N.eqb_spec c (chr "百")) as [->|H100]; [done|].
  destruct (N.eqb_spec c (chr "十")) as [->|H10]; [done|].
  cbn [fst snd]. f_equal.
  unfold Spec.ones_digit, chinese_nums, dict_get.
  rewrite !(N.eqb_sym _ c).
  apply N.eqb_neq in H100, H10. rewrite H100, H10. clear H100 H10.
  repeat (destruct (c =? _)%N; [reflexivity|]).
  reflexivity.
Qed.

Lemma for_loop_fold s : forall result temp,
  for_loop (result, temp) s =
  ((fold_left Spec.step s (temp, result)).2,
   (fold_left Spec.step s (temp, result)).1).
Proof.
  induction s as [|c s IH]; intros result temp; cbn [for_loop fold_left]; [done|].
  rewrite loop_body_step, IH.
  by destruct (Spec.step (temp, result) c).
Qed.

Lemma loop_eq_fold s :
  (let '(result, temp) := for_loop (0, 0) s in result + temp)
  = Spec.converter_fold s.
Proof.
  unfold Spec.converter_fold. rewrite for_loop_fold.
  by destruct (fold_left Spec.step s (0, 0)).
Qed.

(** The fold also covers the inputs the source answers from the table. *)
Lemma chinese_to_number_fold_all s : chinese_to_number s = Spec.converter_fold s.
Proof.
  destruct s as [|c [|c' s']]; try apply loop_eq_fold.
  rewrite <- loop_eq_fold.
  change (dict_get chinese_nums c 0
          = (let '(result, temp) := loop_body (0, 0) c in result + temp)).
  unfold loop_body.
  destruct (N.eqb_spec c (chr "百")) as [->|H100]; [done|].
  destruct (N.eqb_spec c (chr "十")) as [->|H10]; [done|].
  lia.
Qed.

(** C3: on every input of length at least two the Converter is the fold
    over [(pending, total)] described by the specification: a marker
    adds pending-or-one times its weight and clears pending, any other
    character overwrites pending with its digit value, and the leftover
    pending digit is added at the end; a marker met with pending zero
    acts as if pending were one. *)
Theorem chinese_to_number_is_fold (s : pystr) :
  (2 <= length s)%nat ->
  chinese_to_number s = Spec.converter_fold s
  /\ (forall total,
        Spec.step (0, total) Spec.hundreds_marker
          = Spec.step (1, total) Spec.hundreds_marker
        /\ Spec.step (0, total) Spec.tens_marker
          = Spec.step (1, total) Spec.tens_marker
        /\ loop_body (total, 0) (chr "百") = loop_body (total, 1) (chr "百")
        /\ loop_body (total, 0) (chr "十") = loop_body (total, 1) (chr "十")).
Proof.
  intros Hlen. split.
  - destruct s as [|c [|c' s']]; simpl in Hlen; try lia.
    apply loop_eq_fold.
  - intros total. repeat split.
Qed.

Lemma chinese_to_number_is_fold_witness :
  (2 <= length (str "一百六十一"))%nat
  /\ chinese_to_number (str "一百六十一") = Spec.converter_fold (str "一百六十一")
  /\ Spec.converter_fold (str "一百六十一") = 161.
Proof.
  split; [vm_compute; lia|].
  split; [apply (chinese_to_number_is_fold (str "一百六十一")); vm_compute; lia|].
  reflexivity.
Defined.

(** C6: the values the specification lists. *)
Theorem chinese_to_number_examples :
  chinese_to_number (str "一") = 1
  /\ chinese_to_number (str "十") = 10
  /\ chinese_to_number (str "四十三") = 43
  /\ chinese_to_number (str "一百") = 100
  /\ chinese_to_number (str "一百二") = 102
  /\ chinese_to_number (str "一百六") = 106
  /\ chinese_to_number (str "一百六十一") = 161.
Proof. repeat split; vm_compute; reflexivity. Qed.

(** C10: the Converter is a total function on strings and its value is
    never negative; the empty string and a string of unrecognised
    characters give zero. *)
Theorem chinese_to_number_total (s : pystr) :
  (exists n : Z, chinese_to_number s = n /\ 0 <= n)
  /\ chinese_to_number [] = 0
  /\ chinese_to_number (str "abc") = 0.
Proof.
  split; [|split; reflexivity].
  exists (chinese_to_number s). split; [reflexivity | apply chinese_to_number_nonneg].
Qed.

End Converter.

(** ** The Parser *)

Section Parser.

Lemma scan_lines_skip pre rest :
  Forall no_heading pre -> scan_lines (pre ++ rest) = scan_lines rest.
Proof.
  induction 1 as [|l pre [H1 H2] _ IH]; [done|].
  cbn [app scan_lines]. by rewrite H1, H2.
Qed.

(** C5: the first line, from the top, that matches either heading
    pattern decides the result, the pattern with a section being tried
    first on it; when no line matches the result is [None]. A first
    matching line "# 卷一之一" gives (1, 1), and "# 卷三目録" gives
    (3, None). *)
Theorem parser_first_match (content : pystr) :
  (forall pre line post,
     split_lines content = pre ++ line :: post ->
     Forall no_heading pre ->
     (forall m,
        re_match pattern_with_section line = Some m ->
        parse_chapter_title content
        = Some (chinese_to_number (group m 1),
                Some (chinese_to_number (group m 2))))
     /\ (forall m,
           re_match pattern_with_section line = None ->
           re_match pattern_without_section line = Some m ->
           parse_chapter_title content
           = Some (chinese_to_number (group m 1), None))
     /\ (line = str "# 卷一之一" ->
         parse_chapter_title content = Some (1%Z, Some 1%Z))
     /\ (line = str "# 卷三目録" ->
         parse_chapter_title content = Some (3%Z, None)))
  /\ (Forall no_heading (split_lines content) ->
      parse_chapter_title content = None).
Proof.
  unfold parse_chapter_title. split.
  - intros pre line post -> Hpre. rewrite (scan_lines_skip _ _ Hpre).
    cbn [scan_lines]. repeat split.
    + intros m ->. reflexivity.
    + intros m -> ->. reflexivity.
    + intros ->. vm_compute. reflexivity.
    + intros ->. vm_compute. reflexivity.
  - intros Hall. rewrite <- (app_nil_r (split_lines content)).
    by rewrite (scan_lines_skip _ _ Hall).
Qed.

Lemma parser_first_match_witness :
  parse_chapter_title Examples.document_with_section = Some (1%Z, Some 1%Z)
  /\ parse_chapter_title Examples.document_without_section = Some (3%Z, None)
  /\ parse_chapter_title Examples.document_without_heading = None.
Proof.
  split; [|split].
  - refine (proj1 (proj2 (proj2
      (proj1 (parser_first_match Examples.document_with_section)
         [str "---"; str "卷一 目録"] (str "# 卷一之一") [str "# 卷三目録"; []]
         _ _))) eq_refl).
    + vm_compute. reflexivity.
    + repeat constructor; vm_compute; reflexivity.
  - refine (proj2 (proj2 (proj2
      (proj1 (parser_first_match Examples.document_without_section)
         [str "#卷九"] (str "# 卷三目録") [str "# 卷一之一"]
         _ _))) eq_refl).
    + vm_compute. reflexivity.
    + repeat constructor; vm_compute; reflexivity.
  - apply (proj2 (parser_first_match Examples.document_without_heading)).
    repeat constructor; vm_compute; reflexivity.
Defined.

End Parser.

(** ** The Renamer *)

Section RenamerNames.

(** A formatted number starts with a digit or a minus sign. *)
Lemma format_0d_head width n :
  0 < width ->
  exists c rest,
    format_0d width n = c :: rest /\ (c = chr "-" \/ (48 <= c <= 57)%N).
Proof.
  intros Hw. unfold format_0d. destruct (n <? 0)%Z; [by eauto|].
  unfold zfill, decimal_chars.
  pose proof (uint_chars_digits (N.to_uint (Z.to_N n))) as Hd.
  destruct (width - length (uint_chars (N.to_uint (Z.to_N n)))) as [|k] eqn:Hk.
  - destruct Hd as [|c rest Hc _]; [cbn in Hk; lia|]. cbn. eauto.
  - cbn. exists 48%N. eexists. split; [reflexivity|]. right. lia.
Qed.

Lemma canonical_name_head c :
  exists c0 rest,
    canonical_name c = c0 :: rest /\ (c0 = chr "-" \/ (48 <= c0 <= 57)%N).
Proof.
  unfold canonical_name, format_chapter_number.
  destruct (format_0d_head 3 c.1) as (c0 & rest & Hf & Hc0); [lia|].
  destruct c.2; rewrite Hf; cbn; eauto.
Qed.

Lemma glob_name_head name :
  fnmatch_star (str "KR3k0059_") (str ".md") name = true ->
  exists rest, name = chr "K" :: rest.
Proof.
  unfold fnmatch_star.
  destruct (strip_prefix (str "KR3k0059_") name) as [t|] eqn:Hp; [|done].
  intros _. apply strip_prefix_Some in Hp. rewrite Hp. by eexists.
Qed.

(** A chapter name never matches the pattern the Renamer lists files
    by. *)
Lemma canonical_name_not_listed c :
  fnmatch_star (str "KR3k0059_") (str ".md") (canonical_name c) = false.
Proof.
  destruct (fnmatch_star _ _ _) eqn:H; [|done].
  apply glob_name_head in H as [rest H].
  destruct (canonical_name_head c) as (c0 & rest' & Hc & Hc0).
  rewrite Hc in H. injection H as -> _.
  change (chr "K") with 75%N in Hc0. change (chr "-") with 45%N in Hc0. lia.
Qed.

(** So the already-named branch of the loop is never taken: a listed
    file never has the name computed for it. *)
Lemma listed_name_not_canonical name c :
  fnmatch_star (str "KR3k0059_") (str ".md") name = true ->
  str_eqb name (canonical_name c) = false.
Proof.
  intros Hn. unfold str_eqb. apply bool_decide_eq_false. intros ->.
  by rewrite canonical_name_not_listed in Hn.
Qed.

Lemma glob_all_canonical d : all_canonical d -> glob_KR3k0059 (Some d) = [].
Proof.
  intros Hd. unfold glob_KR3k0059.
  assert (Hall : Forall (fun name =>
            ¬ Is_true (fnmatch_star (str "KR3k0059_") (str ".md") name))
            (map_to_list (entries d)).*1).
  { apply Forall_forall. intros name Hin.
    apply list_elem_of_fmap in Hin as ([name' node] & -> & Hin).
    apply elem_of_map_to_list in Hin. cbn.
    destruct (Hd _ _ Hin) as (content & c & _ & _ & ->).
    rewrite canonical_name_not_listed. exact id. }
  induction Hall as [|name l Hname _ IH]; [done|].
  by rewrite filter_cons_False.
Qed.

Lemma md_renamed_canonical : all_canonical Examples.md_renamed.
Proof.
  intros name node. cbn. intros [[<- <-]|[_ H]]%lookup_insert_Some; [|done].
  exists (str "# 卷一之一"), (1%Z, Some 1%Z).
  repeat split; vm_compute; reflexivity.
Qed.

(** The files the loop visits: the listed names of the directory, each
    once. *)
Lemma elem_of_sorted_glob d name :
  name ∈ sorted (glob_KR3k0059 (Some d))
  <-> More.listed name = true /\ is_Some (entries d !! name).
Proof.
  unfold sorted. rewrite merge_sort_Permutation. unfold glob_KR3k0059.
  rewrite list_elem_of_filter, list_elem_of_fmap. unfold More.listed.
  split.
  - intros [Hl ([name' node] & -> & Hin)]. cbn in *.
    apply elem_of_map_to_list in Hin. split; [by apply Is_true_eq_true|].
    by exists node.
  - intros [Hl [node Hnode]]. split; [by apply Is_true_eq_left|].
    exists (name, node). split; [done|]. by apply elem_of_map_to_list.
Qed.

Lemma NoDup_sorted_glob d : NoDup (sorted (glob_KR3k0059 (Some d))).
Proof.
  unfold sorted. rewrite merge_sort_Permutation. unfold glob_KR3k0059.
  apply NoDup_filter, NoDup_fst_map_to_list.
Qed.

Lemma kept_refl d : More.kept d d.
Proof. unfold More.kept. by eauto 10. Qed.

Lemma kept_trans d1 d2 d3 : More.kept d1 d2 -> More.kept d2 d3 -> More.kept d1 d3.
Proof.
  intros (Hw & Hs & Hk & He & Hn) (Hw' & Hs' & Hk' & He' & Hn').
  split; [congruence|]. split; [congruence|]. split; [|split].
  - intros name node H Hp Hl. by eauto.
  - intros name node H Hp. destruct (He _ _ H Hp) as [name' H']. by eauto.
  - intros name node H Hl. by eauto.
Qed.

(** Whether something exists at a name, by the entry there. *)
Lemma exists_in_true d name :
  exists_in d name = true
  <-> exists node, entries d !! name = Some node /\ node <> Dangling.
Proof.
  unfold exists_in. destruct (entries d !! name) as [[content| |]|]; split;
    first [done | by eauto | by intros (? & [= <-] & ?) | by intros (? & [=] & ?)].
Qed.

Lemma exists_in_false d name :
  exists_in d name = false
  <-> entries d !! name = None \/ entries d !! name = Some Dangling.
Proof.
  unfold exists_in. destruct (entries d !! name) as [[content| |]|]; split;
    first [done | by eauto | by intros [[=]|[=]]].
Qed.

(** Moving a listed file to a name that is not listed and at which
    nothing exists. *)
Lemma kept_rename d file new content :
  More.listed file = true -> More.listed new = false ->
  entries d !! file = Some (Readable content) -> exists_in d new = false ->
  More.kept d
    (Directory (<[new := Readable content]> (delete file (entries d)))
       (writable d)).
Proof.
  intros Hfile Hnew Hnode Hfree.
  assert (Hne : file <> new) by (intros ->; congruence).
  apply exists_in_false in Hfree.
  split; [done|]. cbn [entries]. split; [|split; [|split]].
  - rewrite map_filter_insert_True by done. rewrite map_filter_delete.
    rewrite map_size_insert_None.
    2:{ rewrite lookup_delete_ne by done. apply map_lookup_filter_None.
        destruct Hfree as [H|H]; [by left|]. right. intros node' Hn.
        rewrite H in Hn. injection Hn as <-. by intros ?. }
    assert (Hin : filter More.present (entries d) !! file
                  = Some (Readable content))
      by (by apply map_lookup_filter_Some).
    rewrite map_size_delete_Some by (by eexists).
    assert (size (filter More.present (entries d)) <> 0)
      by (apply (map_size_ne_0_lookup_2 _ file); by eexists).
    lia.
  - intros name node' H Hp Hl.
    assert (name <> file) by (intros ->; congruence).
    assert (name <> new) by (intros ->; destruct Hfree; congruence).
    rewrite lookup_insert_ne by done. by rewrite lookup_delete_ne.
  - intros name node' H Hp. destruct (decide (name = file)) as [->|Hnf].
    + exists new. rewrite lookup_insert_eq. congruence.
    + exists name.
      assert (name <> new) by (intros ->; destruct Hfree; congruence).
      rewrite lookup_insert_ne by done. by rewrite lookup_delete_ne.
  - intros name node' H Hl. assert (new <> name) by (intros ->; congruence).
    rewrite lookup_insert_ne in H by done.
    destruct (decide (file = name)) as [->|?];
      [by rewrite lookup_delete_eq in H | by rewrite lookup_delete_ne in H].
Qed.

(** A file that cannot be moved in a directory cannot be moved after
    more of the run either. *)
Lemma blocked_kept d d' file :
  More.listed file = true -> More.kept d d' ->
  More.blocked d file -> More.blocked d' file.
Proof.
  intros Hl (Hw & _ & Hk & _ & Hb) [Hd|Hd]; [left; congruence|]. right.
  destruct (entries d' !! file) as [[content| |]|] eqn:Hfile; [|done..].
  rewrite (Hb _ _ Hfile Hl) in Hd.
  destruct (parse_chapter_title content) as [chap|]; [|done].
  apply exists_in_true in Hd as (node & Hnode & Hp).
  apply exists_in_true. exists node. split; [|done].
  apply Hk; [done..|]. apply canonical_name_not_listed.
Qed.

End RenamerNames.

Section RenamerRun.
Context {console : Stdout}.

(** Lines printed in a row: the first that cannot be encoded stops
    them. *)
Lemma print_all_spec lines : forall w,
  exists k,
    k <= length lines
    /\ print_all lines w
       = (if decide (k = length lines) then inr tt else inl UnicodeEncodeError,
          Renamer.World (Renamer.md_dir w) (Renamer.stdout w ++ take k lines))
    /\ (Forall (fun m => Renamer.printable m = true) lines -> k = length lines).
Proof.
  induction lines as [|m lines IH]; intros w.
  - exists 0. cbn. rewrite app_nil_r. by destruct w.
  - cbn [print_all]. unfold bind, Renamer.print.
    destruct (Renamer.printable m) eqn:Hm.
    + destruct (IH (Renamer.World (Renamer.md_dir w) (Renamer.stdout w ++ [m])))
        as (k & Hk & -> & Hall).
      exists (S k). cbn. split; [lia|]. split.
      * rewrite <- (assoc_L (++)).
        destruct (decide (k = length lines)), (decide (S k = S (length lines)));
          first [done | lia].
      * intros [_ Hl]%Forall_cons_1. by rewrite Hall.
    + exists 0. cbn. rewrite app_nil_r. split; [lia|]. split; [by destruct w|].
      intros [Hm' _]%Forall_cons_1. congruence.
Qed.

Lemma print_all_app lines1 lines2 w :
  print_all (lines1 ++ lines2) w = (print_all lines1 ;;; print_all lines2) w.
Proof.
  revert w. induction lines1 as [|m lines1 IH]; intros w; [done|].
  cbn [app print_all]. unfold bind.
  destruct (Renamer.print m w) as [[e|[]] w1]; [done|].
  rewrite IH. done.
Qed.

(** The function as the lines before its loop, the loop and the lines
    after it. *)
Lemma process_md_files_parts dry_run d out :
  process_md_files dry_run (Renamer.World (Some d) out)
  = (print_all [Found (length (sorted (glob_KR3k0059 (Some d)))); Blank] ;;;
     c <- for_each (sorted (glob_KR3k0059 (Some d))) (iteration dry_run)
            (Counts 0 0 0) ;;
     print_all (closing_lines dry_run c))
      (Renamer.World (Some d) out).
Proof.
  unfold process_md_files, closing_lines, get, bind at 1.
  cbn [Renamer.md_dir].
  destruct dry_run; cbn [print_all app]; unfold bind, ret;
    repeat match goal with
    | |- context [Renamer.print ?m ?w] =>
      destruct (Renamer.print m w) as [[?|[]] ?]; try reflexivity
    | |- context [for_each ?l ?b ?c ?w] =>
      destruct (for_each l b c w) as [[?|?] ?]; try reflexivity
    end.
Qed.

(** The [try] body for a listed file: it leaves the directory alone, in
    a dry run and for a file that cannot be moved, or it moves the file
    to the name of its chapter; it ends with one line about the file and
    its count, or with an exception and no line. *)
Lemma try_body_spec dry_run file c d out :
  More.listed file = true ->
  exists r d1 msgs,
    try_body dry_run file c (Renamer.World (Some d) out)
    = (r, Renamer.World (Some d1) (out ++ msgs))
    /\ ((d1 = d /\ (dry_run = true \/ More.blocked d file)
         /\ Forall (fun m => More.is_renamed m = false) msgs)
        \/ (dry_run = false /\ writable d = true
            /\ exists content chap,
                entries d !! file = Some (Readable content)
                /\ parse_chapter_title content = Some chap
                /\ exists_in d (canonical_name chap) = false
                /\ d1 = Directory
                          (<[canonical_name chap := Readable content]>
                             (delete file (entries d)))
                          (writable d)
                /\ Forall (fun m => m = Renamed file (canonical_name chap) chap)
                          msgs))
    /\ ((exists c' m,
           r = inr c' /\ msgs = [m] /\ subject m = Some file
           /\ (forall name, m <> Already_named name)
           /\ counted c' = (counted c + 1)%Z)
        \/ (exists e, r = inl e /\ msgs = [])).
Proof.
  intros Hlisted. unfold More.blocked, counted.
  assert (Hsilent : forall (r : exn + counts) (d1 : directory) P Q,
    P d1 [] -> Q r [] ->
    exists r' d1' msgs,
      (r, Renamer.World (Some d1) out)
      = (r', Renamer.World (Some d1') (out ++ msgs))
      /\ P d1' msgs /\ Q r' msgs).
  { intros r d1 P Q HP HQ. exists r, d1, []. by rewrite app_nil_r. }
  run_renamer. unfold read_text.
  destruct (entries d !! file) as [[content| |]|] eqn:Hfile; cbn;
    [|apply Hsilent; [left; by eauto 10 | right; by eauto]..].
  destruct (parse_chapter_title content) as [[volume section]|] eqn:Hparse; cbn.
  2:{ case_print.
      - eexists _, _, [_]. split; [done|].
        split; [left; split; [done|]; split; [by eauto | by repeat constructor]|].
        left. eexists _, _. repeat split; cbn; first [done | lia].
      - apply Hsilent; [left; by eauto 10 | right; by eauto]. }
  change (format_chapter_number volume section ++ str ".md")
    with (canonical_name (volume, section)).
  pose proof (listed_name_not_canonical _ (volume, section) Hlisted) as Hne.
  rewrite Hne. cbn.
  assert (Hne' : str_eqb (canonical_name (volume, section)) file = false).
  { unfold str_eqb in *. apply bool_decide_eq_false.
    apply bool_decide_eq_false in Hne. congruence. }
  rewrite Hne'. cbn [negb]. rewrite andb_true_r.
  destruct (exists_in d (canonical_name (volume, section))) eqn:Hex; cbn.
  { case_print.
    - eexists _, _, [_]. split; [done|].
      split; [left; split; [done|]; split; [by eauto | by repeat constructor]|].
      left. eexists _, _. repeat split; cbn; first [done | lia].
    - apply Hsilent; [left; by eauto 10 | right; by eauto]. }
  destruct dry_run; cbn.
  { case_print.
    - eexists _, _, [_]. split; [done|].
      split; [left; split; [done|]; split; [by eauto | by repeat constructor]|].
      left. eexists _, _. repeat split; cbn; first [done | lia].
    - apply Hsilent; [left; by eauto 10 | right; by eauto]. }
  rewrite Hfile. destruct (writable d) eqn:Hw; cbn;
    [|apply Hsilent; [left; by eauto 10 | right; by eauto]].
  case_print.
  - eexists _, _, [_]. split; [done|]. split.
    + right. split; [done|]. split; [done|].
      exists content, (volume, section). by repeat split; try constructor.
    + left. eexists _, _. repeat split; cbn; first [done | lia].
  - apply Hsilent; [|right; by eauto].
    right. split; [done|]. split; [done|].
    exists content, (volume, section). by repeat split; try constructor.
Qed.

(** One iteration for a listed file. The directory is left alone or the
    file is moved, as in the [try] body. Either the iteration ends with
    one line about the file and one count, or the handler's own line
    cannot be printed: then nothing is printed and the exception leaves
    the iteration. *)
Lemma iteration_spec dry_run file c d out :
  More.listed file = true ->
  exists r d1 msgs,
    iteration dry_run file c (Renamer.World (Some d) out)
    = (r, Renamer.World (Some d1) (out ++ msgs))
    /\ ((d1 = d /\ (dry_run = true \/ More.blocked d file)
         /\ Forall (fun m => More.is_renamed m = false) msgs)
        \/ (dry_run = false /\ writable d = true
            /\ exists content chap,
                entries d !! file = Some (Readable content)
                /\ parse_chapter_title content = Some chap
                /\ exists_in d (canonical_name chap) = false
                /\ d1 = Directory
                          (<[canonical_name chap := Readable content]>
                             (delete file (entries d)))
                          (writable d)
                /\ Forall (fun m => More.is_renamed m = true ->
                                    m = Renamed file (canonical_name chap) chap)
                          msgs))
    /\ ((exists c' m,
           r = inr c' /\ msgs = [m] /\ subject m = Some file
           /\ (forall name, m <> Already_named name)
           /\ counted c' = (counted c + 1)%Z)
        \/ (r = inl UnicodeEncodeError /\ msgs = []
            /\ exists e, Renamer.printable (Failed_with file e) = false)).
Proof.
  intros Hlisted.
  destruct (try_body_spec dry_run file c d out Hlisted)
    as (r & d1 & msgs & Htry & Hdir & Hres).
  unfold iteration, try_except. rewrite Htry.
  destruct Hres as [(c' & m & -> & -> & Hm)|(e & -> & ->)].
  - exists (inr c'), d1, [m]. split; [done|]. split.
    + destruct Hdir as [?|(? & ? & content & chap & ? & ? & ? & ? & Hall)];
        [by left|].
      right. split; [done|]. split; [done|]. exists content, chap.
      repeat split; try done. eapply Forall_impl; [exact Hall | by intros ? ->].
    + left. by exists c', m.
  - rewrite app_nil_r. unfold bind, Renamer.print, ret.
    cbn [Renamer.md_dir Renamer.stdout].
    destruct (Renamer.printable (Failed_with file e)) eqn:He.
    + exists (inr (failed_incr c)), d1, [Failed_with file e]. split; [done|].
      split.
      * destruct Hdir as [(? & ? & _)|(? & ? & content & chap & ? & ? & ? & ? & _)].
        -- left. split; [done|]. split; [done|]. by repeat constructor.
        -- right. split; [done|]. split; [done|]. exists content, chap.
           repeat split; try done. by repeat constructor.
      * left. eexists _, _.
        repeat split; first [done | unfold counted; cbn; lia].
    + exists (inl UnicodeEncodeError), d1, []. rewrite app_nil_r.
      split; [done|]. split.
      * destruct Hdir as [(? & ? & _)|(? & ? & content & chap & ? & ? & ? & ? & _)].
        -- left. split; [done|]. split; [done|]. constructor.
        -- right. split; [done|]. split; [done|]. exists content, chap.
           repeat split; first [done | constructor].
      * right. split; [done|]. split; [done|]. by exists e.
Qed.

(** The loop over distinct listed files. *)
Lemma for_each_renamer dry_run files : forall c d out,
  Forall (fun file => More.listed file = true) files -> NoDup files ->
  exists r d' msgs,
    for_each files (iteration dry_run) c (Renamer.World (Some d) out)
    = (r, Renamer.World (Some d') (out ++ msgs))
    /\ More.kept d d'
    /\ (dry_run = true \/ (forall file, file ∈ files -> More.blocked d file) ->
        d' = d /\ Forall (fun m => More.is_renamed m = false) msgs)
    /\ (dry_run = false -> (exists c', r = inr c') ->
        forall file, file ∈ files -> More.blocked d' file)
    /\ (forall name new chap,
          Renamed name new chap ∈ msgs ->
          name ∈ files /\ new = canonical_name chap
          /\ entries d' !! name = None
          /\ exists content,
              entries d !! name = Some (Readable content)
              /\ parse_chapter_title content = Some chap
              /\ entries d' !! new = Some (Readable content))
    /\ Forall (fun m => (exists file, file ∈ files /\ subject m = Some file)
                        /\ forall name, m <> Already_named name) msgs
    /\ ((exists c',
           r = inr c' /\ length msgs = length files
           /\ counted c' = (counted c + Z.of_nat (length files))%Z)
        \/ (r = inl UnicodeEncodeError
            /\ exists file e,
                file ∈ files
                /\ Renamer.printable (Failed_with file e) = false)).
Proof.
  induction files as [|file files IH]; intros c d out Hfiles Hnodup.
  { exists (inr c), d, []. rewrite app_nil_r.
    split; [done|]. split; [apply kept_refl|]. split; [done|].
    split; [by intros _ _ file Hin%elem_of_nil|].
    split; [by intros name new chap Hin%elem_of_nil|].
    split; [constructor|]. left. exists c. cbn. split; [done|]. split; [done|]. lia. }
  apply Forall_cons_1 in Hfiles as [Hfile Hfiles].
  apply NoDup_cons in Hnodup as [Hnotin Hnodup].
  cbn [for_each]. unfold bind at 1.
  destruct (iteration_spec dry_run file c d out Hfile)
    as (r1 & d1 & msgs1 & -> & Hdir & Hres).
  assert (Hd1 : More.kept d d1).
  { destruct Hdir as [(-> & _)|(_ & _ & content & chap & ? & ? & ? & -> & _)];
      [apply kept_refl|].
    apply kept_rename; [done | apply canonical_name_not_listed | done..]. }
  assert (Hsame : dry_run = true
                  \/ (forall f, f ∈ file :: files -> More.blocked d f) ->
                  d1 = d /\ Forall (fun m => More.is_renamed m = false) msgs1).
  { intros Hall.
    destruct Hdir as [(-> & _ & ?)|(Hdry & Hw & content & chap & Hn & Hp & Hx & _)];
      [done|]. exfalso.
    destruct Hall as [?|Hall]; [congruence|].
    destruct (Hall file) as [Hb|Hb]; [by left | congruence|].
    rewrite Hn, Hp in Hb. congruence. }
  assert (Hgone : forall d', More.kept d1 d' ->
            d1 <> d \/ More.blocked d file ->
            dry_run = false -> More.blocked d' file).
  { intros d' Hk Hwhy Hdry.
    destruct Hdir as [(-> & [?|Hb] & _)|(_ & _ & content & chap & _ & _ & _ & -> & _)];
      [congruence | by apply (blocked_kept d) |].
    right. destruct Hk as (_ & _ & _ & _ & Hb).
    destruct (entries d' !! file) as [node|] eqn:Hf; [|done].
    apply Hb in Hf; [|done]. cbn [entries] in Hf.
    rewrite lookup_insert_ne, lookup_delete_eq in Hf; [done|].
    intros Heq. pose proof (canonical_name_not_listed chap) as Hc.
    unfold More.listed in Hfile. congruence. }
  destruct Hres as [(c1 & m & -> & -> & Hsub & Hnot & Hc1)
                   |(-> & -> & e & He)].
  - destruct (IH c1 d1 (out ++ [m]) Hfiles Hnodup)
      as (r & d' & msgs & Hrest & Hkept & Hsame' & Hblocked & Hrenamed
          & Hmsgs & Hend).
    exists r, d', (m :: msgs). rewrite Hrest, <- (assoc_L (++)).
    split; [done|]. split; [by apply (kept_trans d d1)|].
    split; [|split; [|split; [|split]]].
    + intros Hall. destruct (Hsame Hall) as [-> Hm].
      destruct Hsame' as [-> Hms].
      { destruct Hall as [?|Hall]; [by left|]. right. intros f Hf.
        apply Hall. by right. }
      split; [done|]. apply Forall_cons_1 in Hm as [Hm _]. by constructor.
    + intros Hdry Hr f [->|Hf]%elem_of_cons; [|by apply Hblocked].
      apply Hgone; [done | | done].
      destruct Hdir as [(-> & [?|?] & _)|(_ & _ & content & chap & Hn & _ & _ & -> & _)];
        [congruence | by right |].
      left. intros Heq. apply (f_equal (fun x => entries x !! file)) in Heq.
      cbn [entries] in Heq. rewrite Hn in Heq.
      rewrite lookup_insert_ne, lookup_delete_eq in Heq; [done|].
      intros Hc. pose proof (canonical_name_not_listed chap) as Hcc.
      unfold More.listed in Hfile. congruence.
    + intros name new ch [Hm|Hin]%elem_of_cons.
      * subst m.
        destruct Hdir as [(_ & _ & Hren)|(_ & _ & content & chap & Hn & Hp & Hx & -> & Hren)].
        { apply Forall_cons_1 in Hren as [Hren _]. discriminate Hren. }
        apply Forall_cons_1 in Hren as [Hren _].
        specialize (Hren eq_refl). injection Hren as -> -> ->.
        split; [by left|]. split; [done|]. split.
        { destruct Hkept as (_ & _ & _ & _ & Hb).
          destruct (entries d' !! file) as [node|] eqn:Hf; [|done].
          apply Hb in Hf; [|done]. cbn [entries] in Hf.
          rewrite lookup_insert_ne, lookup_delete_eq in Hf; [done|].
          intros Heq. pose proof (canonical_name_not_listed chap) as Hc.
          unfold More.listed in Hfile. congruence. }
        exists content. split; [done|]. split; [done|].
        destruct Hkept as (_ & _ & Hk & _). apply Hk.
        -- cbn [entries]. by rewrite lookup_insert_eq.
        -- done.
        -- apply canonical_name_not_listed.
      * destruct (Hrenamed _ _ _ Hin)
          as (Hname & -> & Hnone & content' & Hnode' & Hparse' & Hnew).
        split; [by right|]. split; [done|]. split; [done|].
        exists content'. split; [|done].
        destruct Hd1 as (_ & _ & _ & _ & Hb). apply Hb; [done|].
        rewrite Forall_forall in Hfiles. by apply Hfiles.
    + constructor.
      * split; [|done]. exists file. split; [by left | done].
      * eapply Forall_impl; [exact Hmsgs|].
        intros m' [(f & Hf & Hs) Hn]. split; [|done]. exists f.
        split; [by right | done].
    + destruct Hend as [(c' & -> & Hlen & Hc')|(-> & f & e & Hf & He)].
      * left. exists c'. split; [done|]. cbn [length].
        split; [by rewrite Hlen | lia].
      * right. split; [done|]. exists f, e. split; [by right | done].
  - exists (inl UnicodeEncodeError), d1, [].
    split; [done|]. split; [done|]. split; [|split; [|split; [|split]]].
    + intros Hall. by destruct (Hsame Hall) as [-> _].
    + by intros _ [c' [=]].
    + by intros name new chap Hin%elem_of_nil.
    + constructor.
    + right. split; [done|]. exists file, e. split; [by left | done].
Qed.

(** A whole run over an existing directory. *)
Lemma process_md_files_run dry_run d out :
  exists r d' msgs,
    process_md_files dry_run (Renamer.World (Some d) out)
    = (r, Renamer.World (Some d') (out ++ msgs))
    /\ More.kept d d'
    /\ (dry_run = true
        \/ (forall file, More.listed file = true -> More.blocked d file) ->
        d' = d /\ Forall (fun m => More.is_renamed m = false) msgs)
    /\ (dry_run = false -> r = inr tt ->
        forall file, More.listed file = true -> More.blocked d' file)
    /\ (forall name new chap,
          Renamed name new chap ∈ msgs ->
          More.listed name = true /\ new = canonical_name chap
          /\ entries d' !! name = None
          /\ exists content,
              entries d !! name = Some (Readable content)
              /\ parse_chapter_title content = Some chap
              /\ entries d' !! new = Some (Readable content))
    /\ (forall name, Already_named name ∉ msgs)
    /\ ((forall m, Renamer.printable m = true) -> r = inr tt).
Proof.
  rewrite process_md_files_parts.
  set (files := sorted (glob_KR3k0059 (Some d))).
  assert (Hfiles : Forall (fun file => More.listed file = true) files).
  { apply Forall_forall. intros f Hf. by apply elem_of_sorted_glob in Hf as [? _]. }
  unfold bind at 1.
  destruct (print_all_spec [Found (length files); Blank]
              (Renamer.World (Some d) out)) as (k & Hk & -> & Hkall).
  cbn [Renamer.md_dir Renamer.stdout].
  set (lines1 := take k [Found (length files); Blank]).
  assert (Hlines1 : Forall (fun m => More.is_renamed m = false
                                     /\ forall name, m <> Already_named name)
                           lines1).
  { unfold lines1. apply Forall_take. by repeat constructor. }
  assert (Hnone : forall lines (P : Renamer.message -> Prop),
            Forall P lines -> forall m, m ∈ lines -> P m)
    by (intros lines P HP; by apply Forall_forall).
  destruct (decide (k = length [Found (length files); Blank])) as [Hfull|Hcut].
  2:{ exists (inl UnicodeEncodeError), d, lines1.
      split; [done|]. split; [apply kept_refl|].
      split; [intros _; split; [done|];
              eapply Forall_impl; [exact Hlines1 | by intros ? [? _]]|].
      split; [done|]. split.
      { intros name new chap Hin. apply (Hnone _ _ Hlines1) in Hin as [Hin _].
        discriminate Hin. }
      split.
      { intros name Hin. apply (Hnone _ _ Hlines1) in Hin as [_ Hin].
        by apply (Hin name). }
      intros Hall. exfalso. apply Hcut, Hkall. by repeat constructor. }
  unfold bind at 1.
  destruct (for_each_renamer dry_run files (Counts 0 0 0) d (out ++ lines1)
              Hfiles (NoDup_sorted_glob d))
    as (r & d' & msgs & -> & Hkept & Hsame & Hblocked & Hrenamed & Hmsgs & Hend).
  assert (Hmsgs' : forall name, Already_named name ∉ msgs).
  { intros name Hin. apply (Hnone _ _ Hmsgs) in Hin as [_ Hin].
    by apply (Hin name). }
  assert (Hblocked' : dry_run = false -> (exists c', r = inr c') ->
            forall file, More.listed file = true -> More.blocked d' file).
  { intros Hdry Hr f Hf.
    destruct (entries d' !! f) as [node|] eqn:Hnode;
      [|right; by rewrite Hnode].
    apply Hblocked; [done..|]. apply elem_of_sorted_glob. split; [done|].
    destruct Hkept as (_ & _ & _ & _ & Hb). exists node. by apply Hb. }
  assert (Hsame' : dry_run = true
            \/ (forall file, More.listed file = true -> More.blocked d file) ->
            d' = d /\ Forall (fun m => More.is_renamed m = false) msgs).
  { intros Hall. apply Hsame. destruct Hall as [?|Hall]; [by left|].
    right. intros f Hf. apply Hall. by apply elem_of_sorted_glob in Hf as [? _]. }
  assert (Hrenamed' : forall name new chap,
            Renamed name new chap ∈ msgs ->
            More.listed name = true /\ new = canonical_name chap
            /\ entries d' !! name = None
            /\ exists content,
                entries d !! name = Some (Readable content)
                /\ parse_chapter_title content = Some chap
                /\ entries d' !! new = Some (Readable content)).
  { intros name new chap Hin.
    destruct (Hrenamed _ _ _ Hin) as (Hf & ? & ? & ?).
    split; [|done]. by apply elem_of_sorted_glob in Hf as [? _]. }
  destruct Hend as [(c' & -> & _ & _)|(-> & f & e & _ & He)].
  - destruct (print_all_spec (closing_lines dry_run c')
                (Renamer.World (Some d') ((out ++ lines1) ++ msgs)))
      as (k2 & Hk2 & -> & Hk2all).
    cbn [Renamer.md_dir Renamer.stdout].
    set (lines2 := take k2 (closing_lines dry_run c')).
    assert (Hlines2 : Forall (fun m => More.is_renamed m = false
                                       /\ forall name, m <> Already_named name)
                             lines2).
    { unfold lines2, closing_lines. apply Forall_take.
      destruct dry_run; by repeat constructor. }
    eexists _, d', (lines1 ++ msgs ++ lines2).
    split; [by rewrite <- !(assoc_L (++))|]. split; [done|].
    split; [|split; [|split; [|split]]].
    + intros Hall. destruct (Hsame' Hall) as [-> Hms]. split; [done|].
      apply Forall_app. split;
        [eapply Forall_impl; [exact Hlines1 | by intros ? [? _]]|].
      apply Forall_app. split; [done|].
      eapply Forall_impl; [exact Hlines2 | by intros ? [? _]].
    + intros Hdry _. apply Hblocked'; [done | by eexists].
    + intros name new chap Hin. apply Hrenamed'.
      apply elem_of_app in Hin as [Hin|Hin].
      { apply (Hnone _ _ Hlines1) in Hin as [Hin _]. discriminate Hin. }
      apply elem_of_app in Hin as [Hin|Hin]; [done|].
      apply (Hnone _ _ Hlines2) in Hin as [Hin _]. discriminate Hin.
    + intros name Hin.
      apply elem_of_app in Hin as [Hin|Hin].
      { apply (Hnone _ _ Hlines1) in Hin as [_ Hin]. by apply (Hin name). }
      apply elem_of_app in Hin as [Hin|Hin]; [by apply (Hmsgs' name)|].
      apply (Hnone _ _ Hlines2) in Hin as [_ Hin]. by apply (Hin name).
    + intros Hall. rewrite Hk2all; [by rewrite decide_True|].
      apply Forall_forall. intros m _. apply Hall.
  - exists (inl UnicodeEncodeError), d', (lines1 ++ msgs).
    split; [by rewrite <- !(assoc_L (++))|]. split; [done|].
    split; [|split; [|split; [|split]]].
    + intros Hall. destruct (Hsame' Hall) as [-> Hms]. split; [done|].
      apply Forall_app. split; [|done].
      eapply Forall_impl; [exact Hlines1 | by intros ? [? _]].
    + done.
    + intros name new chap Hin. apply Hrenamed'.
      apply elem_of_app in Hin as [Hin|Hin]; [|done].
      apply (Hnone _ _ Hlines1) in Hin as [Hin _]. discriminate Hin.
    + intros name Hin.
      apply elem_of_app in Hin as [Hin|Hin]; [|by apply (Hmsgs' name)].
      apply (Hnone _ _ Hlines1) in Hin as [_ Hin]. by apply (Hin name).
    + intros Hall. rewrite Hall in He. discriminate He.
Qed.

(** When the handler's line can be printed the exception of the [try]
    body is caught: the line is printed, the file counted as failed, and
    the loop goes on with the next file. *)
Lemma iteration_catches dry_run file c w e w1 :
  try_body dry_run file c w = (inl e, w1) ->
  Renamer.printable (Failed_with file e) = true ->
  iteration dry_run file c w
  = (inr (failed_incr c),
     Renamer.World (Renamer.md_dir w1)
       (Renamer.stdout w1 ++ [Failed_with file e]))
  /\ forall rest,
       for_each (file :: rest) (iteration dry_run) c w
       = for_each rest (iteration dry_run) (failed_incr c)
           (Renamer.World (Renamer.md_dir w1)
              (Renamer.stdout w1 ++ [Failed_with file e])).
Proof.
  intros Hraise Hprint.
  assert (Hit : iteration dry_run file c w
                = (inr (failed_incr c),
                   Renamer.World (Renamer.md_dir w1)
                     (Renamer.stdout w1 ++ [Failed_with file e]))).
  { unfold iteration, try_except. rewrite Hraise.
    unfold bind, Renamer.print, ret. by rewrite Hprint. }
  split; [exact Hit|]. intros rest. cbn [for_each]. unfold bind at 1.
  by rewrite Hit.
Qed.

(** When it cannot, the handler's own exception leaves the iteration,
    the loop and the function. *)
Lemma iteration_escapes dry_run file c w e w1 :
  try_body dry_run file c w = (inl e, w1) ->
  Renamer.printable (Failed_with file e) = false ->
  iteration dry_run file c w = (inl UnicodeEncodeError, w1)
  /\ forall rest,
       for_each (file :: rest) (iteration dry_run) c w
       = (inl UnicodeEncodeError, w1).
Proof.
  intros Hraise Hprint.
  assert (Hit : iteration dry_run file c w = (inl UnicodeEncodeError, w1)).
  { unfold iteration, try_except. rewrite Hraise.
    unfold bind, Renamer.print, ret. by rewrite Hprint. }
  split; [exact Hit|]. intros rest. cbn [for_each]. unfold bind at 1.
  by rewrite Hit.
Qed.

End RenamerRun.

Section RenamerFailures.
Context {console : Stdout}.

(** A formatted directory listing that is empty: the loop visits
    nothing, and what is printed are the lines before and after it, as
    far as standard output takes them. *)
Lemma process_md_files_all_canonical dry_run d out :
  all_canonical d ->
  exists k,
    k <= length ([Found 0; Blank] ++ closing_lines dry_run (Counts 0 0 0))
    /\ process_md_files dry_run (Renamer.World (Some d) out)
       = (if decide (k = length ([Found 0; Blank]
                                 ++ closing_lines dry_run (Counts 0 0 0)))
          then inr tt else inl UnicodeEncodeError,
          Renamer.World (Some d)
            (out ++ take k ([Found 0; Blank]
                            ++ closing_lines dry_run (Counts 0 0 0))))
    /\ (Forall (fun m => Renamer.printable m = true)
          ([Found 0; Blank] ++ closing_lines dry_run (Counts 0 0 0)) ->
        k = length ([Found 0; Blank] ++ closing_lines dry_run (Counts 0 0 0))).
Proof.
  intros Hd. rewrite process_md_files_parts, (glob_all_canonical _ Hd).
  change (sorted []) with (@nil pystr). cbn [length for_each].
  destruct (print_all_spec ([Found 0; Blank]
                            ++ closing_lines dry_run (Counts 0 0 0))
              (Renamer.World (Some d) out)) as (k & Hk & Hrun & Hall).
  exists k. split; [done|]. split; [|done].
  cbn [Renamer.md_dir Renamer.stdout] in Hrun.
  rewrite <- Hrun, print_all_app. unfold bind, ret.
  by destruct (print_all [Found 0; Blank] _) as [[e|[]] w1].
Qed.

(** C1: on a directory whose files all carry their chapter names a run
    lists no file at all, so it renames none, and it reports none
    either: the directory is left as it was, what is printed are lines
    of the count of files found (zero) and of the closing summary (three
    zeros), and no line says that a file already has the correct name.
    The branch of the loop that prints that line is never reached. *)
Theorem renamer_second_run (dry_run : bool) (d : directory)
    (out : list Renamer.message) :
  all_canonical d ->
  exists r out',
    process_md_files dry_run (Renamer.World (Some d) out)
    = (r, Renamer.World (Some d) (out ++ out'))
    /\ out' `prefix_of` [Found 0; Blank] ++ closing_lines dry_run (Counts 0 0 0)
    /\ (forall name, Already_named name ∉ out')
    /\ (Forall (fun m => Renamer.printable m = true)
          ([Found 0; Blank] ++ closing_lines dry_run (Counts 0 0 0)) ->
        r = inr tt
        /\ out' = [Found 0; Blank] ++ closing_lines dry_run (Counts 0 0 0)).
Proof.
  intros Hd.
  destruct (process_md_files_all_canonical dry_run d out Hd)
    as (k & Hk & Hrun & Hall).
  eexists _, _. split; [exact Hrun|]. split; [apply prefix_take|]. split.
  - intros name Hin%elem_of_take.
    destruct Hin as (i & Hin & _). apply list_elem_of_lookup_2 in Hin.
    unfold closing_lines in Hin.
    destruct dry_run; cbn in Hin;
      repeat (apply elem_of_cons in Hin as [Hin|Hin]; [done|]);
      by apply elem_of_nil in Hin.
  - intros Hp. rewrite (Hall Hp), decide_True by done.
    by rewrite firstn_all.
Qed.

End RenamerFailures.

Section RenamerStrictUtf8.
#[local] Existing Instance strict_utf8.

Lemma renamer_second_run_witness :
  all_canonical Examples.md_renamed
  /\ process_md_files false (Renamer.World (Some Examples.md_renamed) [])
     = (inr tt,
        Renamer.World (Some Examples.md_renamed)
          [ Found 0; Blank; Blank; Rule; Finished; Renamed_total 0;
            Skipped_total 0; Failed_total 0 ]).
Proof.
  split; [exact md_renamed_canonical|].
  destruct (renamer_second_run false Examples.md_renamed [] md_renamed_canonical)
    as (r & out' & Hrun & _ & _ & Hall).
  destruct Hall as [-> ->]; [by repeat constructor|]. exact Hrun.
Defined.

(** The directory holds one file, already at its chapter name; the run
    renames nothing, and does not report the file as skipped. *)
Lemma second_run_reports_no_file :
  all_canonical Examples.md_renamed
  /\ is_Some (entries Examples.md_renamed !! str "001_01.md")
  /\ Renamer.stdout
       (process_md_files false
          (Renamer.World (Some Examples.md_renamed) [])).2
     = [ Found 0; Blank; Blank; Rule; Finished; Renamed_total 0;
         Skipped_total 0; Failed_total 0 ].
Proof.
  split; [exact md_renamed_canonical|]. split; [by eexists|].
  vm_compute. reflexivity.
Qed.

(** C8, where the source departs from it. Standard output is strict
    UTF-8 and the first of two files has a name with a lone surrogate.
    The file is read and moved to the name of its chapter; the line that
    reports the move cannot be encoded; the exception is caught by the
    file's handler, whose own line names the file too and cannot be
    encoded either. That second exception is raised outside every [try]:
    it leaves the iteration, the loop and the function. No line about
    the file is printed, no count is made, and the second file is never
    looked at. *)
Theorem renamer_catches_per_file :
  sorted (glob_KR3k0059 (Some More.md_surrogate))
  = [More.surrogate_name; str "KR3k0059_1.md"]
  /\ try_body false More.surrogate_name (Counts 0 0 0)
       (Renamer.World (Some More.md_surrogate) [Found 2; Blank])
     = (inl UnicodeEncodeError,
        Renamer.World
          (Some (Directory
                   (<[str "001.md" := Readable (str "# 卷一")]>
                      (delete More.surrogate_name
                         (entries More.md_surrogate)))
                   true))
          [Found 2; Blank])
  /\ Renamer.printable (Failed_with More.surrogate_name UnicodeEncodeError)
     = false
  /\ process_md_files false (Renamer.World (Some More.md_surrogate) [])
     = (inl UnicodeEncodeError,
        Renamer.World
          (Some (Directory
                   (<[str "001.md" := Readable (str "# 卷一")]>
                      (delete More.surrogate_name
                         (entries More.md_surrogate)))
                   true))
          [Found 2; Blank])
  /\ entries More.md_surrogate !! str "KR3k0059_1.md"
     = Some (Readable (str "# 卷二"))
  /\ parse_chapter_title (str "# 卷二") = Some (2%Z, None).
Proof. repeat split; vm_compute; reflexivity. Qed.

End RenamerStrictUtf8.
(** ** The Splitter *)

Section Splitter.

Lemma frontmatter_pattern_match content :
  re_match frontmatter_pattern content =
  match strip_prefix Spec.opening content with
  | Some rest =>
    (fun i => <[2 := drop (i + length Spec.closing) rest]>
                (<[1 := take i rest]> (∅ : groups)))
    <$> find Spec.closing rest
  | None => None
  end.
Proof.
  unfold re_match.
  change frontmatter_pattern
    with (Bos ~> lits Spec.opening ~> Group 1 (LazyStar any)
          ~> lits Spec.closing ~> Group 2 (Star any) ~> Eos).
  rewrite run_cat, run_bos, run_cat, run_lits.
  destruct (strip_prefix Spec.opening content) as [rest|]; [|done].
  rewrite run_cat. cbn [run].
  erewrite (star_lazy_any_find Spec.closing
    (fun s' s'' => <[2 := s'']> (<[1 := take (length rest - length s') rest]>
                                   (∅ : groups)))).
  - destruct (find Spec.closing rest) as [i|] eqn:Hi; [|done].
    cbn [fmap option_fmap option_map]. do 3 f_equal.
    apply find_bound in Hi. rewrite length_drop. f_equal. lia.
  - intros s'. rewrite run_lits.
    destruct (strip_prefix Spec.closing s') as [s''|]; [|done].
    cbn [fmap option_fmap option_map].
    apply star_greedy_any_all. cbn [run length].
    by rewrite Nat.sub_0_r, firstn_all.
Qed.

Lemma frontmatter_and_content_search content :
  frontmatter_and_content content = frontmatter_by_search content.
Proof.
  unfold frontmatter_and_content, frontmatter_by_search.
  rewrite frontmatter_pattern_match.
  destruct (strip_prefix Spec.opening content) as [rest|]; [|done].
  destruct (find Spec.closing rest) as [i|]; [|done].
  cbn [fmap option_fmap option_map]. unfold group.
  rewrite lookup_insert_ne by done. rewrite !lookup_insert_eq. done.
Qed.

End Splitter.

Section Roundtrip.

Lemma frontmatter_and_content_wrap metadata body :
  Spec.closes_first metadata ->
  frontmatter_and_content (Spec.wrap metadata body) = (Some metadata, body).
Proof.
  intros Hfirst. rewrite frontmatter_and_content_search.
  unfold frontmatter_by_search, Spec.wrap. rewrite strip_prefix_app.
  rewrite (assoc_L (++) metadata), (find_app _ _ _ _ Hfirst).
  rewrite <- (assoc_L (++) metadata).
  by rewrite take_app_length, <- drop_drop, !drop_app_length.
Qed.

(** A text in the delimited form always has a metadata block. *)
Lemma frontmatter_and_content_wrap_Some metadata body :
  exists fm body',
    frontmatter_and_content (Spec.wrap metadata body) = (Some fm, body').
Proof.
  rewrite frontmatter_and_content_search.
  unfold frontmatter_by_search, Spec.wrap. rewrite strip_prefix_app.
  destruct (find_occurs Spec.closing metadata body) as (i & -> & _).
  by eexists _, _.
Qed.

(** Whatever the Splitter returns as metadata and body are the exact
    pieces of the text around its first two marker lines. *)
Lemma frontmatter_and_content_Some text metadata body :
  frontmatter_and_content text = (Some metadata, body) ->
  text = Spec.wrap metadata body /\ Spec.closes_first metadata.
Proof.
  rewrite frontmatter_and_content_search. unfold frontmatter_by_search.
  destruct (strip_prefix Spec.opening text) as [rest|] eqn:Hopen; [|done].
  destruct (find Spec.closing rest) as [i|] eqn:Hi; [|done].
  intros [= <- <-]. apply strip_prefix_Some in Hopen.
  pose proof (find_bound _ _ _ Hi) as Hb. split.
  - unfold Spec.wrap. rewrite Hopen at 1. f_equal. by apply find_Some_app.
  - unfold Spec.closes_first. rewrite length_take_le by lia.
    by apply find_take.
Qed.

Lemma frontmatter_and_content_None text body :
  frontmatter_and_content text = (None, body) -> body = text.
Proof.
  rewrite frontmatter_and_content_search. unfold frontmatter_by_search.
  destruct (strip_prefix Spec.opening text) as [rest|]; [|by intros [= <-]].
  destruct (find Spec.closing rest); [done | by intros [= <-]].
Qed.




End Roundtrip.

(** ** The metadata block of a merged pair *)

Section MergedMetadata.

Lemma merge_texts_unfold catalog content :
  merge_texts catalog content =
  merged_content (frontmatter_and_content catalog).1
                 (frontmatter_and_content catalog).2
                 (frontmatter_and_content content).1
                 (frontmatter_and_content content).2.
Proof.
  unfold merge_texts.
  by destruct (frontmatter_and_content catalog),
              (frontmatter_and_content content).
Qed.

Lemma merged_content_wrap catalog_fm catalog_body content_fm content_body :
  merged_content catalog_fm catalog_body content_fm content_body =
  Spec.wrap
    (format_value (if truthy catalog_fm then catalog_fm else content_fm))
    (catalog_body ++ [LF] ++ content_body).
Proof.
  unfold merged_content, Spec.wrap, Spec.opening, Spec.closing.
  by rewrite <- !(assoc_L (++)).
Qed.

(** A catalog metadata block that is not empty is the merged one. *)
Lemma merged_metadata_from_catalog catalog content metadata catalog_body :
  frontmatter_and_content catalog = (Some metadata, catalog_body) ->
  metadata <> [] ->
  (frontmatter_and_content (merge_texts catalog content)).1 = Some metadata.
Proof.
  intros Hcat Hne. rewrite merge_texts_unfold, Hcat, merged_content_wrap.
  apply frontmatter_and_content_Some in Hcat as [_ Hfirst].
  destruct metadata as [|c metadata]; [done|]. cbn [truthy format_value fst snd].
  by rewrite frontmatter_and_content_wrap.
Qed.

(** C2, at the input where the source departs from it: the catalog has
    a metadata block, an empty one, and the merged output carries the
    content file's metadata instead; with a content file that has none it
    carries the text None. *)
Theorem merged_metadata_empty_catalog :
  frontmatter_and_content Examples.catalog_empty_block = (Some [], str "目録")
  /\ frontmatter_and_content Examples.content_with_block
     = (Some (str "title: 正文"), str "正文")
  /\ (frontmatter_and_content
        (merge_texts Examples.catalog_empty_block Examples.content_with_block)).1
     = Some (str "title: 正文")
  /\ (frontmatter_and_content
        (merge_texts Examples.catalog_empty_block Examples.content_plain)).1
     = Some (str "None").
Proof. repeat split; vm_compute; reflexivity. Qed.



End MergedMetadata.

(** ** The Merger *)

Section MergerRun.
Variable decimal : pychar -> option Z.
Context {host : Host}.

(** The step for a catalog file without content file: a warning, and
    nothing else; the exception of [print] when the warning cannot be
    encoded. *)
Lemma merge_step_skip file_dict num catalog_file merged_count w :
  (num mod 2 = 1)%Z ->
  file_dict !! num = Some catalog_file ->
  file_dict !! (num + 1)%Z = None ->
  merge_step file_dict num merged_count w
  = if Merger.printable (No_content_file catalog_file) then
      (inr merged_count,
       Merger.World (Merger.md_dir w) (output_dir w)
                    (Merger.stdout w ++ [No_content_file catalog_file]))
    else (inl UnicodeEncodeError, w).
Proof.
  intros Hodd Hcat Hcon. run_merger.
  apply Z.eqb_eq in Hodd. rewrite Hodd, Hcat, Hcon.
  by destruct (Merger.printable _).
Qed.

(** A step reads the source directory and never writes it. It writes at
    most the output file of its own number, and only for a complete
    pair; it adds one to the count exactly then. What it prints is not
    the closing line. *)
Lemma merge_step_effect file_dict num merged_count w r w' :
  merge_step file_dict num merged_count w = (r, w') ->
  Merger.md_dir w' = Merger.md_dir w
  /\ (forall name,
        name <> output_name num \/ complete_pair file_dict num = false ->
        output_files w' !! name = output_files w !! name)
  /\ (forall merged_count',
        r = inr merged_count' ->
        merged_count'
        = (merged_count + if complete_pair file_dict num then 1 else 0)%Z)
  /\ exists msgs,
      Merger.stdout w' = Merger.stdout w ++ msgs
      /\ forall k, Done k ∉ msgs.
Proof.
  unfold complete_pair. run_merger. destruct w as [md out log].
  cbn [Merger.md_dir Merger.output_dir Merger.stdout].
  assert (Hnil : exists msgs : list Merger.message,
            log = log ++ msgs /\ forall k, Done k ∉ msgs).
  { exists []. rewrite app_nil_r. split; [done|]. intros k. apply not_elem_of_nil. }
  assert (Hone : forall m, (forall k, m <> Done k) ->
            exists msgs : list Merger.message,
              log ++ [m] = log ++ msgs /\ forall k, Done k ∉ msgs).
  { intros m Hm. exists [m]. split; [done|].
    intros k Hin%list_elem_of_singleton. by apply (Hm k). }
  destruct (num mod 2 =? 1)%Z; cbn [andb].
  2:{ intros [= <- <-]. repeat split; try done. intros ? [= <-]. lia. }
  destruct (file_dict !! num) as [catalog_file|]; cbn.
  2:{ intros [= <- <-]. repeat split; try done. intros ? [= <-]. lia. }
  destruct (file_dict !! (num + 1)%Z) as [content_file|]; cbn.
  2:{ case_print; intros [= <- <-]; repeat split; try done;
        first [by intros ? [= <-]; lia | by apply Hone]. }
  rewrite ?bool_decide_eq_true_2 by by eexists.
  case_print; [|intros [= <- <-]; by repeat split].
  destruct (read_text md catalog_file) as [e|catalog]; cbn.
  { intros [= <- <-]. repeat split; try done. by apply Hone. }
  destruct (read_text md content_file) as [e|content]; cbn.
  { intros [= <- <-]. repeat split; try done. by apply Hone. }
  destruct (frontmatter_and_content catalog) as [catalog_fm catalog_body].
  destruct (frontmatter_and_content content) as [content_fm content_body].
  cbn. destruct (may_write (output_name num)); cbn.
  2:{ intros [= <- <-]. repeat split; try done. by apply Hone. }
  intros [= <- <-]. split; [done|]. split; [|split].
  - intros name [Hname|Hc]; [|done]. unfold output_files. cbn.
    by rewrite lookup_insert_ne.
  - intros ? [= <-]. lia.
  - by apply Hone.
Qed.

Lemma for_each_merge_effect file_dict nums : forall merged_count w r w',
  for_each nums (merge_step file_dict) merged_count w = (r, w') ->
  Merger.md_dir w' = Merger.md_dir w
  /\ (forall name,
        (forall num, num ∈ nums -> complete_pair file_dict num = true ->
                     name <> output_name num) ->
        output_files w' !! name = output_files w !! name)
  /\ (forall merged_count',
        r = inr merged_count' ->
        merged_count'
        = (merged_count
           + Z.of_nat (length (filter (fun num => Is_true (complete_pair file_dict num))
                                      nums)))%Z)
  /\ exists msgs,
      Merger.stdout w' = Merger.stdout w ++ msgs
      /\ forall k, Done k ∉ msgs.
Proof.
  induction nums as [|num nums IH]; intros merged_count w r w'.
  - intros [= <- <-]. split; [done|]. split; [done|]. split.
    + intros ? [= <-]. cbn. lia.
    + exists []. rewrite app_nil_r. split; [done|]. intros k. apply not_elem_of_nil.
  - cbn [for_each]. unfold bind at 1.
    destruct (merge_step file_dict num merged_count w) as [[e|count1] w1] eqn:Hstep;
      apply merge_step_effect in Hstep as (Hmd & Hout & Hcount & msgs & Hlog & Hmsgs).
    + intros [= <- <-]. split; [done|]. split; [|split; [done|by exists msgs]].
      intros name Hname. apply Hout.
      destruct (complete_pair file_dict num) eqn:Hc; [left|by right].
      apply Hname; [apply elem_of_cons; by left | done].
    + intros Hrest.
      apply IH in Hrest as (Hmd' & Hout' & Hcount' & msgs' & Hlog' & Hmsgs').
      specialize (Hcount _ eq_refl). split; [congruence|]. split; [|split].
      * intros name Hname. rewrite Hout'.
        2:{ intros num' Hin. apply Hname, elem_of_cons. by right. }
        apply Hout.
        destruct (complete_pair file_dict num) eqn:Hc; [left|by right].
        apply Hname; [apply elem_of_cons; by left | done].
      * intros merged_count' ->. rewrite (Hcount' _ eq_refl), Hcount.
        destruct (complete_pair file_dict num) eqn:Hc.
        -- rewrite filter_cons_True; [|by rewrite Hc]. cbn [length]. lia.
        -- rewrite filter_cons_False; [|rewrite Hc; exact id]. lia.
      * exists (msgs ++ msgs'). rewrite Hlog', Hlog, (assoc_L (++)).
        split; [done|].
        intros k [?|?]%elem_of_app; [by apply (Hmsgs k) | by apply (Hmsgs' k)].
Qed.

(** The keys of [file_dict] are the numbers of the listed files. *)
Lemma fold_add_file_lookup files k : forall file_dict,
  is_Some (fold_left (add_file decimal) files file_dict !! k)
  <-> is_Some (file_dict !! k)
      \/ exists file, file ∈ files /\ file_number decimal file = Some k.
Proof.
  induction files as [|f files IH]; intros file_dict; cbn [fold_left].
  - split; [by left|]. intros [H|(file & Hin & _)]; [done|].
    by apply elem_of_nil in Hin.
  - rewrite IH. unfold add_file, file_number.
    destruct (re_search (file_number_pattern decimal) f) as [m|] eqn:Hm;
      cbn [fmap option_fmap option_map].
    + split.
      * intros [H|(file & Hin & Hfile)].
        -- destruct (decide (py_int decimal (group m 1) = k)) as [<-|Hne].
           ++ right. exists f. split; [by left|]. by rewrite Hm.
           ++ left. by rewrite lookup_insert_ne in H.
        -- right. exists file. split; [by right | done].
      * intros [H|(file & Hin & Hfile)].
        -- left. destruct (decide (py_int decimal (group m 1) = k)) as [<-|Hne].
           ++ rewrite lookup_insert_eq. by eexists.
           ++ by rewrite lookup_insert_ne.
        -- apply elem_of_cons in Hin as [->|Hin].
           ++ left. rewrite Hm in Hfile. injection Hfile as <-.
              rewrite lookup_insert_eq. by eexists.
           ++ right. by exists file.
    + split.
      * intros [H|(file & Hin & Hfile)]; [by left|].
        right. exists file. split; [by right | done].
      * intros [H|(file & Hin & Hfile)]; [by left|].
        apply elem_of_cons in Hin as [->|Hin].
        -- by rewrite Hm in Hfile.
        -- right. by exists file.
Qed.

Lemma run_file_dict_lookup w k :
  is_Some (run_file_dict decimal w !! k)
  <-> exists file,
        file ∈ glob_KR3k0059 (Merger.md_dir w)
        /\ file_number decimal file = Some k.
Proof.
  unfold run_file_dict, build_file_dict. rewrite fold_add_file_lookup.
  rewrite lookup_empty. split.
  - intros [[? [=]]|(file & Hin & Hfile)]. exists file. split; [|done].
    unfold sorted in Hin. by rewrite merge_sort_Permutation in Hin.
  - intros (file & Hin & Hfile). right. exists file. split; [|done].
    unfold sorted. by rewrite merge_sort_Permutation.
Qed.

(** The step for a complete pair whose files can be read, when its line
    can be printed and its output file written: the merged text is
    written under the catalog's number and the count goes up. *)
Lemma merge_step_complete file_dict num text merged_count w :
  complete_pair file_dict num = true ->
  pair_output (Merger.md_dir w) file_dict num = Some text ->
  obliging host ->
  exists log,
    merge_step file_dict num merged_count w
    = (inr (merged_count + 1)%Z,
       Merger.World (Merger.md_dir w)
         (Some (<[output_name num := text]> (output_files w))) log).
Proof.
  unfold complete_pair, pair_output. intros Hc Hp (Hprint & _ & Hwrite).
  revert Hc Hp. run_merger.
  destruct (num mod 2 =? 1)%Z; [|done].
  destruct (file_dict !! num) as [catalog_file|]; [|done].
  destruct (file_dict !! (num + 1)%Z) as [content_file|]; [|done].
  intros _. rewrite Hprint. cbn.
  destruct (read_text _ catalog_file) as [|catalog]; [done|].
  destruct (read_text _ content_file) as [|content]; [done|].
  intros [= <-]. unfold merge_texts.
  destruct (frontmatter_and_content catalog), (frontmatter_and_content content).
  cbn. rewrite Hwrite. by eexists.
Qed.

(** The step for a number that is no complete pair: nothing is written;
    the count stays when the step ends normally, as it does when its
    warning, if it has one, can be printed. *)
Lemma merge_step_incomplete file_dict num merged_count w :
  complete_pair file_dict num = false ->
  exists r log,
    merge_step file_dict num merged_count w
    = (r, Merger.World (Merger.md_dir w) (output_dir w) log)
    /\ ((forall m, Merger.printable m = true) -> r = inr merged_count).
Proof.
  unfold complete_pair. run_merger. destruct w as [md out log]. cbn.
  destruct (num mod 2 =? 1)%Z; [|by eexists _, _].
  destruct (file_dict !! num) as [catalog_file|]; [|by eexists _, _].
  destruct (file_dict !! (num + 1)%Z) as [content_file|].
  - rewrite !bool_decide_eq_true_2 by by eexists. done.
  - intros _. case_print; eexists _, _; (split; [done|]); [done|].
    intros Hall. congruence.
Qed.

(** The step for a complete pair with a file that cannot be read: an
    exception leaves the step, and nothing is written. *)
Lemma merge_step_unreadable file_dict num merged_count w :
  complete_pair file_dict num = true ->
  pair_output (Merger.md_dir w) file_dict num = None ->
  exists e log,
    merge_step file_dict num merged_count w
    = (inl e, Merger.World (Merger.md_dir w) (output_dir w) log)
    /\ ((forall m, Merger.printable m = true) ->
        exists name,
          e = FileNotFoundError name \/ e = ReadError name).
Proof.
  unfold complete_pair, pair_output. run_merger. destruct w as [md out log].
  cbn [Merger.md_dir Merger.output_dir Merger.stdout].
  destruct (num mod 2 =? 1)%Z; [|done].
  destruct (file_dict !! num) as [catalog_file|]; [|done].
  destruct (file_dict !! (num + 1)%Z) as [content_file|]; [|done].
  intros _ Hread. case_print.
  2:{ eexists _, _. split; [done|]. intros Hall. congruence. }
  unfold read_text in *. destruct md as [d|]; cbn.
  2:{ eexists _, _. split; [done|]. intros _. by eauto. }
  destruct (entries d !! catalog_file) as [[catalog| |]|]; cbn;
    try (eexists _, _; split; [done|]; intros _; by eauto).
  destruct (entries d !! content_file) as [[content| |]|]; cbn;
    first [done | eexists _, _; split; [done|]; intros _; by eauto].
Qed.

(** With every pair readable and an obliging host the loop runs to its
    end, and each complete pair of the numbers it went through has its
    merged text in the output directory, whatever incomplete pairs came
    before or after. *)
Lemma for_each_merge_complete file_dict nums : forall merged_count w,
  NoDup nums ->
  obliging host ->
  (forall num, num ∈ nums -> complete_pair file_dict num = true ->
               is_Some (pair_output (Merger.md_dir w) file_dict num)) ->
  exists merged_count' w',
    for_each nums (merge_step file_dict) merged_count w = (inr merged_count', w')
    /\ Merger.md_dir w' = Merger.md_dir w
    /\ forall num, num ∈ nums -> complete_pair file_dict num = true ->
         output_files w' !! output_name num
         = pair_output (Merger.md_dir w) file_dict num.
Proof.
  induction nums as [|num nums IH]; intros merged_count w Hnodup Hhost Hread.
  - exists merged_count, w. split; [done|]. split; [done|].
    by intros num ?%elem_of_nil.
  - apply NoDup_cons in Hnodup as [Hnotin Hnodup].
    assert (Hstep : exists count1 w1,
      merge_step file_dict num merged_count w = (inr count1, w1)
      /\ Merger.md_dir w1 = Merger.md_dir w
      /\ (complete_pair file_dict num = true ->
          output_files w1 !! output_name num
          = pair_output (Merger.md_dir w) file_dict num)).
    { destruct (complete_pair file_dict num) eqn:Hc.
      - destruct (Hread num) as [text Htext]; [by left | done |].
        destruct (merge_step_complete _ _ _ merged_count w Hc Htext Hhost)
          as [log ->].
        eexists _, _. split; [done|]. split; [done|]. intros _.
        unfold output_files at 1. cbn. by rewrite lookup_insert_eq.
      - destruct (merge_step_incomplete _ _ merged_count w Hc)
          as (r & log & -> & Hr).
        rewrite Hr by apply Hhost.
        eexists _, _. split; [done|]. split; done. }
    destruct Hstep as (count1 & w1 & Hstep & Hmd1 & Hout1).
    destruct (IH count1 w1 Hnodup Hhost) as (count' & w' & Hrest & Hmd' & Hout').
    { intros num' Hin Hc. rewrite Hmd1. apply Hread; [by right | done]. }
    exists count', w'. cbn [for_each]. unfold bind at 1. rewrite Hstep.
    split; [done|]. split; [congruence|].
    intros num' [->|Hin]%elem_of_cons Hc.
    + apply for_each_merge_effect in Hrest as (_ & Hkeep & _).
      rewrite Hkeep; [by apply Hout1|].
      intros num' Hin' _ Heq. apply output_name_inj in Heq as <-. done.
    + rewrite Hout' by done. by rewrite Hmd1.
Qed.

Lemma fold_add_file_lookup_Some files k file : forall file_dict,
  fold_left (add_file decimal) files file_dict !! k = Some file ->
  file_dict !! k = Some file \/ file ∈ files.
Proof.
  induction files as [|f files IH]; intros file_dict; cbn [fold_left];
    [by left|].
  intros [H|H]%IH; [|right; by right].
  unfold add_file in H.
  destruct (re_search (file_number_pattern decimal) f) as [m|]; [|by left].
  apply lookup_insert_Some in H as [[_ <-]|[_ H]]; [right; by left | by left].
Qed.

(** A file of [file_dict] is a file of the source directory. *)
Lemma run_file_dict_entry w k file :
  run_file_dict decimal w !! k = Some file ->
  exists d node,
    Merger.md_dir w = Some d /\ entries d !! file = Some node.
Proof.
  unfold run_file_dict, build_file_dict.
  intros [H|Hin]%fold_add_file_lookup_Some; [by rewrite lookup_empty in H|].
  unfold sorted in Hin. rewrite merge_sort_Permutation in Hin.
  unfold glob_KR3k0059 in Hin. destruct (Merger.md_dir w) as [d|].
  - apply list_elem_of_filter in Hin as [_ Hin].
    apply list_elem_of_fmap in Hin as ([name node] & -> & Hin).
    apply elem_of_map_to_list in Hin. by exists d, node.
  - by apply elem_of_nil in Hin.
Qed.

(** The run as the making of the output directory, the loop and the
    two closing lines. *)
Lemma merge_files_loop w :
  merge_files decimal w =
  match mkdir_exist_ok w with
  | (inl e, w0) => (inl e, w0)
  | (inr _, w0) =>
    match for_each (sorted_keys (run_file_dict decimal w))
            (merge_step (run_file_dict decimal w)) 0%Z w0 with
    | (inl e, w1) => (inl e, w1)
    | (inr merged_count, w1) =>
      (Merger.print (Done merged_count) ;;; Merger.print Output_dir_line) w1
    end
  end.
Proof.
  unfold merge_files, bind at 1.
  assert (Hmd : Merger.md_dir (mkdir_exist_ok w).2 = Merger.md_dir w).
  { unfold mkdir_exist_ok. by destruct (output_dir w), may_create. }
  destruct (mkdir_exist_ok w) as [[e|[]] w0]; [done|]. cbn [snd] in Hmd.
  unfold bind at 1, get. unfold run_file_dict. rewrite Hmd.
  unfold bind at 1. by destruct (for_each _ _ _ _) as [[e|merged_count] w1].
Qed.

Lemma mkdir_exist_ok_effect w r w0 :
  mkdir_exist_ok w = (r, w0) ->
  Merger.md_dir w0 = Merger.md_dir w
  /\ output_files w0 = output_files w
  /\ Merger.stdout w0 = Merger.stdout w
  /\ (may_create = true -> r = inr tt /\ output_dir w0 = Some (output_files w)).
Proof.
  unfold mkdir_exist_ok, output_files.
  destruct w as [md [out|] log]; cbn.
  - intros [= <- <-]. by repeat split.
  - destruct may_create; intros [= <- <-]; by repeat split.
Qed.

(** What any run, finished or cut short, leaves alone: the source
    directory, and every output file that is not the one of a complete
    pair. A run that ends normally has printed the number of complete
    pairs in its closing lines. *)
Lemma merge_files_effect w r w' :
  merge_files decimal w = (r, w') ->
  Merger.md_dir w' = Merger.md_dir w
  /\ (forall name,
        (forall num,
           complete_pair (run_file_dict decimal w) num = true ->
           name <> output_name num) ->
        output_files w' !! name = output_files w !! name)
  /\ (r = inr tt ->
      exists log,
        Merger.stdout w'
        = log ++ [Done (Z.of_nat (length
                     (filter (fun num =>
                                Is_true (complete_pair (run_file_dict decimal w) num))
                             (sorted_keys (run_file_dict decimal w)))));
                  Output_dir_line]).
Proof.
  rewrite merge_files_loop.
  destruct (mkdir_exist_ok w) as [[e0|[]] w0] eqn:Hmk;
    apply mkdir_exist_ok_effect in Hmk as (Hmd0 & Hout0 & Hlog0 & _).
  { intros [= <- <-]. split; [done|]. split; [by intros; rewrite Hout0 | done]. }
  destruct (for_each _ _ _ _) as [[e|merged_count] w1] eqn:Hloop;
    apply for_each_merge_effect in Hloop
      as (Hmd & Hout & Hcount & msgs & Hlog & Hmsgs).
  { intros [= <- <-]. split; [congruence|]. split; [|done].
    intros name Hname. rewrite Hout, Hout0; [done|].
    intros num _. apply Hname. }
  specialize (Hcount _ eq_refl). rewrite Z.add_0_l in Hcount.
  unfold bind, Merger.print. cbn [Merger.md_dir Merger.output_dir Merger.stdout].
  assert (Hkeep : forall name,
            (forall num,
               complete_pair (run_file_dict decimal w) num = true ->
               name <> output_name num) ->
            output_files w1 !! name = output_files w !! name).
  { intros name Hname. rewrite Hout, Hout0; [done|].
    intros num _. apply Hname. }
  destruct (Merger.printable (Done merged_count)) eqn:Hdone.
  2:{ intros [= <- <-]. split; [congruence|]. by split. }
  destruct (Merger.printable Output_dir_line) eqn:Hline.
  - intros [= <- <-]. cbn. split; [congruence|]. split; [done|].
    intros _. exists (Merger.stdout w1).
    by rewrite <- (assoc_L (++)), Hcount.
  - intros [= <- <-]. cbn. split; [congruence|]. by split.
Qed.

(** A run over a directory whose files can all be read, on an obliging
    host, ends normally; its output directory then holds the merged text
    of every complete pair. *)
Lemma merge_files_all_readable w :
  all_readable (Merger.md_dir w) ->
  obliging host ->
  exists w',
    merge_files decimal w = (inr tt, w')
    /\ (forall num,
          complete_pair (run_file_dict decimal w) num = true ->
          is_Some (pair_output (Merger.md_dir w) (run_file_dict decimal w) num)
          /\ output_files w' !! output_name num
             = pair_output (Merger.md_dir w) (run_file_dict decimal w) num).
Proof.
  intros Hread Hhost.
  assert (Hpair : forall num,
    complete_pair (run_file_dict decimal w) num = true ->
    is_Some (pair_output (Merger.md_dir w) (run_file_dict decimal w) num)).
  { intros num Hc. unfold complete_pair in Hc. unfold pair_output.
    apply andb_prop in Hc as [[_ Hcat]%andb_prop Hcon].
    apply bool_decide_eq_true in Hcat as [catalog_file Hcat].
    apply bool_decide_eq_true in Hcon as [content_file Hcon].
    rewrite Hcat, Hcon.
    destruct (run_file_dict_entry _ _ _ Hcat) as (d & node & Hd & Hnode).
    destruct (run_file_dict_entry _ _ _ Hcon) as (d' & node' & Hd' & Hnode').
    rewrite Hd in Hd'. injection Hd' as <-.
    destruct (Hread _ _ _ Hd Hnode) as [catalog ->].
    destruct (Hread _ _ _ Hd Hnode') as [content ->].
    unfold read_text. rewrite Hd, Hnode, Hnode'. by eexists. }
  rewrite merge_files_loop.
  destruct (mkdir_exist_ok w) as [r0 w0] eqn:Hmk.
  apply mkdir_exist_ok_effect in Hmk as (Hmd0 & Hout0 & _ & Hcreate).
  destruct Hcreate as [-> _]; [apply Hhost|].
  edestruct (for_each_merge_complete (run_file_dict decimal w)
               (sorted_keys (run_file_dict decimal w)) 0%Z w0)
    as (count' & w' & -> & Hmd & Hout).
  - unfold sorted_keys. rewrite merge_sort_Permutation.
    apply NoDup_fst_map_to_list.
  - done.
  - intros num _. rewrite Hmd0. apply Hpair.
  - unfold bind, Merger.print. destruct Hhost as (Hprint & _).
    rewrite !Hprint. cbn. eexists. split; [done|].
    intros num Hc. split; [by apply Hpair|].
    unfold output_files at 1. cbn [output_dir].
    change (default ∅ (output_dir w')) with (output_files w').
    rewrite Hout, Hmd0; [done | | done].
    unfold sorted_keys. rewrite merge_sort_Permutation.
    apply andb_prop in Hc as [[_ Hcat]%andb_prop _].
    apply bool_decide_eq_true in Hcat as [catalog_file Hcat].
    apply list_elem_of_fmap. exists (num, catalog_file). split; [done|].
    by apply elem_of_map_to_list.
Qed.

Lemma incomplete_pair_not_complete file_dict num :
  file_dict !! (num + 1)%Z = None -> complete_pair file_dict num = false.
Proof.
  intros H. unfold complete_pair. rewrite H.
  rewrite (bool_decide_eq_false_2 (is_Some None)); [|by intros [? ?]].
  apply andb_false_r.
Qed.

(** C7, with what the source adds to it: for a catalog file with odd
    number N and no file with number N+1, the step only prints a warning
    and the loop goes on with the numbers that remain, provided the
    warning can be written to standard output. In every run, however it
    ends, the output file of N is not written; a run that ends normally
    reports the number of complete pairs, of which N is not one. When
    the files can all be read and the host is obliging, the run ends
    normally with every complete pair merged. *)
Theorem merger_skips_incomplete_pair (w : Merger.world) (N : Z)
    (catalog_file : pystr) :
  (N mod 2 = 1)%Z ->
  run_file_dict decimal w !! N = Some catalog_file ->
  run_file_dict decimal w !! (N + 1)%Z = None ->
  (Merger.printable (No_content_file catalog_file) = true ->
   forall merged_count w0 rest,
     merge_step (run_file_dict decimal w) N merged_count w0
     = (inr merged_count,
        Merger.World (Merger.md_dir w0) (output_dir w0)
          (Merger.stdout w0 ++ [No_content_file catalog_file]))
     /\ for_each (N :: rest) (merge_step (run_file_dict decimal w)) merged_count w0
        = for_each rest (merge_step (run_file_dict decimal w)) merged_count
            (Merger.World (Merger.md_dir w0) (output_dir w0)
               (Merger.stdout w0 ++ [No_content_file catalog_file])))
  /\ (forall r w',
        merge_files decimal w = (r, w') ->
        output_files w' !! output_name N = output_files w !! output_name N
        /\ (r = inr tt ->
            (N ∉ filter (fun num =>
                           Is_true (complete_pair (run_file_dict decimal w) num))
                        (sorted_keys (run_file_dict decimal w)))
            /\ (exists log,
                  Merger.stdout w'
                  = log ++ [Done (Z.of_nat (length
                               (filter (fun num =>
                                          Is_true (complete_pair
                                                     (run_file_dict decimal w) num))
                                       (sorted_keys (run_file_dict decimal w)))));
                            Output_dir_line])))
  /\ (all_readable (Merger.md_dir w) -> obliging host ->
      exists w',
        merge_files decimal w = (inr tt, w')
        /\ forall num,
             complete_pair (run_file_dict decimal w) num = true ->
             is_Some (pair_output (Merger.md_dir w) (run_file_dict decimal w) num)
             /\ output_files w' !! output_name num
                = pair_output (Merger.md_dir w) (run_file_dict decimal w) num).
Proof.
  intros Hodd Hcat Hcon.
  pose proof (incomplete_pair_not_complete _ _ Hcon) as Hinc.
  split; [|split; [|apply merge_files_all_readable]].
  - intros Hprint merged_count w0 rest.
    pose proof (merge_step_skip _ _ _ merged_count w0 Hodd Hcat Hcon) as Hstep.
    rewrite Hprint in Hstep.
    split; [exact Hstep|]. cbn [for_each]. unfold bind at 1. by rewrite Hstep.
  - intros r w' Hrun.
    apply merge_files_effect in Hrun as (_ & Hout & Hdone). split.
    + apply Hout. intros num Hnum Heq.
      apply output_name_inj in Heq as <-. congruence.
    + intros Hr. split; [|by apply Hdone].
      intros Hin. apply list_elem_of_filter in Hin as [Hin _].
      by rewrite Hinc in Hin.
Qed.

End MergerRun.

Section MergerUtf8.
#[local] Existing Instance utf8_host.

Lemma merger_skips_incomplete_pair_witness :
  run_file_dict ascii_decimal (Merger.World (Some Examples.md_with_gap) None [])
    !! 3%Z = Some (str "KR3k0059_003.md")
  /\ Merger.printable (No_content_file (str "KR3k0059_003.md")) = true
  /\ output_files
       (merge_files ascii_decimal
          (Merger.World (Some Examples.md_with_gap) None [])).2
       !! output_name 3 = None
  /\ Merger.stdout
       (merge_files ascii_decimal
          (Merger.World (Some Examples.md_with_gap) None [])).2
     = [ Merging (str "KR3k0059_001.md") (str "KR3k0059_002.md");
         No_content_file (str "KR3k0059_003.md");
         Merging (str "KR3k0059_005.md") (str "KR3k0059_006.md");
         Done 2; Output_dir_line ]
  /\ output_files
       (merge_files ascii_decimal
          (Merger.World (Some Examples.md_with_gap) None [])).2
       !! output_name 5
     = Some (merge_texts (str "目録三") (str "正文三")).
Proof.
  split; [vm_compute; reflexivity|]. split; [reflexivity|].
  split; [|split; vm_compute; reflexivity].
  refine (proj1 (proj1 (proj2 (merger_skips_incomplete_pair ascii_decimal
            (Merger.World (Some Examples.md_with_gap) None []) 3
            (str "KR3k0059_003.md") _ _ _)) _ _ _)).
  - reflexivity.
  - vm_compute. reflexivity.
  - vm_compute. reflexivity.
  - apply surjective_pairing.
Defined.

(** C7 as it is written fails where the warning cannot be printed.
    Standard output is strict UTF-8; the catalog file with number 1 has
    no content file and a name with a lone surrogate; files 3 and 4 are
    a complete, readable pair. The warning for 1 raises, the Merger has
    no handler, and the run ends there: the pair 3 and 4 is never
    merged. *)
Lemma merger_skips_incomplete_pair_counterexample :
  run_file_dict ascii_decimal
    (Merger.World (Some More.md_surrogate_catalog) None []) !! 1%Z
  = Some More.surrogate_catalog
  /\ run_file_dict ascii_decimal
       (Merger.World (Some More.md_surrogate_catalog) None []) !! 2%Z
     = None
  /\ complete_pair
       (run_file_dict ascii_decimal
          (Merger.World (Some More.md_surrogate_catalog) None [])) 3
     = true
  /\ pair_output (Some More.md_surrogate_catalog)
       (run_file_dict ascii_decimal
          (Merger.World (Some More.md_surrogate_catalog) None [])) 3
     = Some (merge_texts (str "目録二") (str "正文二"))
  /\ merge_files ascii_decimal
       (Merger.World (Some More.md_surrogate_catalog) None [])
     = (inl UnicodeEncodeError,
        Merger.World (Some More.md_surrogate_catalog) (Some ∅) []).
Proof. repeat split; vm_compute; reflexivity. Qed.

End MergerUtf8.

(** * Further properties of the code *)

(** ** [chinese_to_number] *)

Section ConverterMore.
Local Open Scope Z_scope.

Lemma for_loop_app a : forall st b,
  for_loop st (a ++ b) = for_loop (for_loop st a) b.
Proof. induction a as [|c a IH]; intros st b; [done|]. cbn [app for_loop]. apply IH. Qed.

Lemma chinese_to_number_loop s : chinese_to_number s = More.loop_value s.
Proof.
  unfold More.loop_value. by rewrite chinese_to_number_fold_all, <- loop_eq_fold.
Qed.

Lemma loop_body_marker result temp m :
  More.is_marker m = true -> (loop_body (result, temp) m).2 = 0.
Proof.
  unfold More.is_marker, loop_body. intros [H|H]%orb_prop; rewrite H.
  - done.
  - by destruct (m =? chr "百")%N.
Qed.

Lemma loop_body_digit result temp c :
  More.is_marker c = false ->
  loop_body (result, temp) c = (result, dict_get chinese_nums c 0).
Proof.
  unfold More.is_marker, loop_body. intros [H1 H2]%orb_false_elim.
  by rewrite H1, H2.
Qed.

(** The running total only ever adds to what it starts from. *)
Lemma for_loop_shift s : forall result temp,
  for_loop (result, temp) s
  = (result + (for_loop (0, temp) s).1, (for_loop (0, temp) s).2).
Proof.
  induction s as [|c s IH]; intros result temp; cbn [for_loop].
  - cbn. f_equal. lia.
  - assert (Hb : loop_body (result, temp) c
                 = (result + (loop_body (0, temp) c).1,
                    (loop_body (0, temp) c).2)).
    { unfold loop_body.
      destruct (c =? chr "百")%N; [cbn; f_equal; lia|].
      destruct (c =? chr "十")%N; cbn; f_equal; lia. }
    rewrite Hb. destruct (loop_body (0, temp) c) as [r1 t1]. cbn [fst snd].
    rewrite (IH (result + r1) t1), (IH r1 t1). cbn [fst snd]. f_equal. lia.
Qed.

Lemma for_loop_committed s result :
  More.ends_committed s -> (for_loop (result, 0) s).2 = 0.
Proof.
  intros [->|(s' & m & -> & Hm)]; [done|].
  rewrite for_loop_app. cbn [for_loop].
  destruct (for_loop (result, 0) s') as [r t]. by apply loop_body_marker.
Qed.

(** X1: a number below one thousand written the corpus's way, each
    non-zero digit followed by its marker, converts to that number. *)
Theorem converter_reads_written_numeral (h t o : nat) :
  (h <= 9)%nat -> (t <= 9)%nat -> (o <= 9)%nat ->
  chinese_to_number (More.write_numeral h t o)
  = Z.of_nat (100 * h + 10 * t + o).
Proof.
  intros Hh Ht Ho.
  assert (Hall :
    forallb (fun h => forallb (fun t => forallb (fun o =>
      chinese_to_number (More.write_numeral h t o)
      =? Z.of_nat (100 * h + 10 * t + o))
      (seq 0 10)) (seq 0 10)) (seq 0 10) = true)
    by (vm_compute; reflexivity).
  rewrite forallb_forall in Hall.
  specialize (Hall h ltac:(apply in_seq; lia)).
  rewrite forallb_forall in Hall.
  specialize (Hall t ltac:(apply in_seq; lia)).
  rewrite forallb_forall in Hall.
  specialize (Hall o ltac:(apply in_seq; lia)).
  by apply Z.eqb_eq in Hall.
Qed.

Lemma converter_reads_written_numeral_witness :
  More.write_numeral 1 6 1 = str "一百六十一"
  /\ chinese_to_number (More.write_numeral 1 6 1) = 161.
Proof.
  split; [vm_compute; reflexivity|].
  apply (converter_reads_written_numeral 1 6 1); lia.
Defined.

(** X2: a marker met with no digit pending (at the start, or right after
    another marker) counts as if "一" stood before it. *)
Theorem converter_elides_one (pre post : pystr) (m : pychar) :
  More.ends_committed pre -> More.is_marker m = true ->
  chinese_to_number (pre ++ m :: post)
  = chinese_to_number (pre ++ chr "一" :: m :: post).
Proof.
  intros Hpre Hm. rewrite !chinese_to_number_loop. unfold More.loop_value.
  rewrite !for_loop_app. cbn [for_loop].
  pose proof (for_loop_committed pre 0 Hpre) as Hp.
  destruct (for_loop (0, 0) pre) as [r t]. cbn in Hp. subst t.
  assert (Hb : loop_body (loop_body (r, 0) (chr "一")) m = loop_body (r, 0) m).
  { unfold More.is_marker in Hm. apply orb_prop in Hm as [H|H].
    - apply N.eqb_eq in H as ->. reflexivity.
    - apply N.eqb_eq in H as ->. reflexivity. }
  by rewrite Hb.
Qed.

Lemma converter_elides_one_witness :
  chinese_to_number (str "一百十") = chinese_to_number (str "一百一十")
  /\ chinese_to_number (str "一百十") = 110.
Proof.
  split; [|reflexivity].
  apply (converter_elides_one (str "一百") [] (chr "十")).
  - right. exists [chr "一"], (chr "百"). split; reflexivity.
  - reflexivity.
Defined.

(** X3: of two characters in a row that are not markers only the second
    counts: the first is dropped without a trace, so "二三" is 3. *)
Theorem converter_keeps_last_digit (pre post : pystr) (c d : pychar) :
  More.is_marker c = false -> More.is_marker d = false ->
  chinese_to_number (pre ++ c :: d :: post)
  = chinese_to_number (pre ++ d :: post).
Proof.
  intros Hc Hd. rewrite !chinese_to_number_loop. unfold More.loop_value.
  rewrite !for_loop_app. cbn [for_loop].
  destruct (for_loop (0, 0) pre) as [r t].
  by rewrite (loop_body_digit _ _ c Hc), !(loop_body_digit _ _ d Hd).
Qed.

Lemma converter_keeps_last_digit_witness :
  chinese_to_number (str "二三") = chinese_to_number (str "三")
  /\ chinese_to_number (str "二三") = 3.
Proof.
  split; [|reflexivity].
  apply (converter_keeps_last_digit [] [] (chr "二") (chr "三")); reflexivity.
Defined.

(** X4: a character that is no key of the table counts exactly as "零"
    does, wherever it stands. *)
Theorem converter_unknown_as_zero (pre post : pystr) (x : pychar) :
  Forall (fun kv => kv.1 <> x) chinese_nums ->
  chinese_to_number (pre ++ x :: post)
  = chinese_to_number (pre ++ chr "零" :: post).
Proof.
  intros Hx. rewrite !chinese_to_number_loop. unfold More.loop_value.
  rewrite !for_loop_app. cbn [for_loop].
  assert (Hget : dict_get chinese_nums x 0 = 0).
  { induction Hx as [|[k v] l Hk _ IH]; [done|]. cbn [dict_get].
    cbn in Hk. apply N.eqb_neq in Hk. by rewrite Hk. }
  assert (Hm : More.is_marker x = false).
  { unfold More.is_marker. apply orb_false_intro; apply N.eqb_neq; intros ->.
    - apply Forall_forall with (x := (chr "百", 100)) in Hx; [done|].
      unfold chinese_nums. set_solver.
    - apply Forall_forall with (x := (chr "十", 10)) in Hx; [done|].
      unfold chinese_nums. set_solver. }
  destruct (for_loop (0, 0) pre) as [r t].
  by rewrite (loop_body_digit _ _ x Hm), Hget.
Qed.

Lemma converter_unknown_as_zero_witness :
  chinese_to_number (str "一百x二") = chinese_to_number (str "一百零二")
  /\ chinese_to_number (str "一百x二") = 102.
Proof.
  split; [|reflexivity].
  apply (converter_unknown_as_zero (str "一百") (str "二") (chr "x")).
  repeat constructor; vm_compute; discriminate.
Defined.

(** X5: the shortcut for a string of one character returns what the
    loop would have returned: on every input the result is the loop's. *)
Theorem converter_shortcut_agrees (s : pystr) :
  chinese_to_number s = More.loop_value s
  /\ forall c, dict_get chinese_nums c 0 = More.loop_value [c].
Proof.
  split; [apply chinese_to_number_loop|].
  intros c. by rewrite <- chinese_to_number_loop.
Qed.

(** X6: after a text that ends with a marker the count starts afresh:
    the value of the whole is the sum of the values of the two parts. *)
Theorem converter_adds_after_marker (a b : pystr) :
  More.ends_committed a ->
  chinese_to_number (a ++ b) = chinese_to_number a + chinese_to_number b.
Proof.
  intros Ha. rewrite !chinese_to_number_loop. unfold More.loop_value.
  rewrite for_loop_app.
  pose proof (for_loop_committed a 0 Ha) as Hp.
  destruct (for_loop (0, 0) a) as [ra ta]. cbn in Hp. subst ta.
  rewrite (for_loop_shift b ra 0).
  destruct (for_loop (0, 0) b) as [rb tb]. cbn. lia.
Qed.

Lemma converter_adds_after_marker_witness :
  chinese_to_number (str "一百" ++ str "六十一")
  = chinese_to_number (str "一百") + chinese_to_number (str "六十一").
Proof.
  apply (converter_adds_after_marker (str "一百") (str "六十一")).
  right. exists [chr "一"], (chr "百"). split; reflexivity.
Defined.

End ConverterMore.

(** ** [parse_chapter_title] *)

Section ParserMore.
Local Open Scope Z_scope.

Lemma split_lines_app_lf a b :
  split_lines (a ++ LF :: b) = split_lines a ++ split_lines b.
Proof.
  induction a as [|c a IH]; [done|]. cbn [app].
  destruct (N.eqb_spec c LF) as [->|Hc].
  - change (split_lines (LF :: ?x)) with ([] :: split_lines x).
    by rewrite IH.
  - rewrite !split_lines_cons by done. unfold first_line. rewrite IH.
    pose proof (split_lines_nonempty a). by destruct (split_lines a).
Qed.

Lemma split_lines_no_lf l : Forall (fun c => c <> LF) l -> split_lines l = [l].
Proof.
  induction 1 as [|c l Hc _ IH]; [done|].
  rewrite split_lines_cons by done. unfold first_line. by rewrite IH.
Qed.

Lemma scan_lines_app l1 l2 :
  scan_lines (l1 ++ l2)
  = match scan_lines l1 with Some c => Some c | None => scan_lines l2 end.
Proof.
  induction l1 as [|l l1 IH]; [done|]. cbn [app scan_lines].
  destruct (re_match pattern_with_section l); [done|].
  by destruct (re_match pattern_without_section l).
Qed.

(** X7: the Parser's answer for two texts joined by a line break is its
    answer for the first, and its answer for the second only when the
    first has no heading: text after the first heading is never looked
    at. *)
Theorem parser_of_joined_texts (a b : pystr) :
  parse_chapter_title (a ++ LF :: b)
  = match parse_chapter_title a with
    | Some c => Some c
    | None => parse_chapter_title b
    end.
Proof.
  unfold parse_chapter_title. by rewrite split_lines_app_lf, scan_lines_app.
Qed.

(** X8: no line matches both heading patterns, so the order in which
    the loop tries them changes no result. *)
Theorem heading_patterns_disjoint (line : pystr) :
  re_match pattern_with_section line = None
  \/ re_match pattern_without_section line = None.
Proof.
  destruct (re_match pattern_with_section line) as [m|] eqn:H; [|by left].
  right. apply heading_patterns_exclusive. rewrite H. by eexists.
Qed.

Lemma leading_Forall p s : Forall (fun c => p c = true) (leading p s).
Proof.
  induction s as [|c s IH]; cbn; [constructor|].
  destruct (p c) eqn:Hc; by constructor.
Qed.

Lemma some_of_Some p s v r :
  some_of p s = Some (v, r) -> v <> [] /\ Forall (fun c => p c = true) v.
Proof.
  unfold some_of. pose proof (leading_Forall p s) as H.
  destruct (leading p s) as [|c l]; [done|]. by intros [= <- <-].
Qed.

Lemma leading_exact p v rest :
  Forall (fun c => p c = true) v ->
  (forall c rest', rest = c :: rest' -> p c = false) ->
  leading p (v ++ rest) = v /\ after_leading p (v ++ rest) = rest.
Proof.
  intros Hv Hrest. induction Hv as [|c v Hc _ [IH1 IH2]].
  - destruct rest as [|c rest']; [done|]. cbn. by rewrite (Hrest c rest').
  - cbn. rewrite Hc. by rewrite IH1, IH2.
Qed.

Lemma some_of_exact p v rest :
  v <> [] -> Forall (fun c => p c = true) v ->
  (forall c rest', rest = c :: rest' -> p c = false) ->
  some_of p (v ++ rest) = Some (v, rest).
Proof.
  intros Hne Hv Hrest. unfold some_of.
  destruct (leading_exact p v rest Hv Hrest) as [-> ->]. by destruct v.
Qed.

Lemma numeral_cases c :
  one_of numerals c = true ->
  More.is_marker c = true
  \/ (More.is_marker c = false /\ 1 <= dict_get chinese_nums c 0).
Proof.
  unfold one_of. rewrite existsb_exists. intros (k & Hin & ->%N.eqb_eq).
  vm_compute in Hin. decompose [or] Hin; subst; try done;
    first [left; reflexivity | right; split; [reflexivity | vm_compute; discriminate]].
Qed.

Lemma loop_body_numeral result temp c :
  0 <= result -> 0 <= temp -> one_of numerals c = true ->
  0 <= (loop_body (result, temp) c).1
  /\ 0 <= (loop_body (result, temp) c).2
  /\ 1 <= (loop_body (result, temp) c).1 + (loop_body (result, temp) c).2.
Proof.
  intros Hr Ht [Hm|[Hm Hd]]%numeral_cases.
  - unfold More.is_marker in Hm. unfold loop_body.
    destruct (c =? chr "百")%N; [|destruct (c =? chr "十")%N; [|done]];
      destruct (Z.eqb_spec temp 0); cbn [fst snd]; lia.
  - rewrite (loop_body_digit _ _ _ Hm). cbn [fst snd]. lia.
Qed.

Lemma for_loop_numerals s : forall result temp,
  0 <= result -> 0 <= temp -> 1 <= result + temp ->
  Forall (fun c => one_of numerals c = true) s ->
  1 <= (for_loop (result, temp) s).1 + (for_loop (result, temp) s).2.
Proof.
  induction s as [|c s IH]; intros result temp Hr Ht Hsum Hs; [done|].
  apply Forall_cons_1 in Hs as [Hc Hs]. cbn [for_loop].
  destruct (loop_body_numeral result temp c Hr Ht Hc) as (H1 & H2 & H3).
  destruct (loop_body (result, temp) c) as [r1 t1]. by apply IH.
Qed.

(** A run of one or more numeral characters converts to at least one. *)
Lemma chinese_to_number_numerals s :
  s <> [] -> Forall (fun c => one_of numerals c = true) s ->
  1 <= chinese_to_number s.
Proof.
  intros Hne Hs. rewrite chinese_to_number_loop. unfold More.loop_value.
  destruct s as [|c s]; [done|]. apply Forall_cons_1 in Hs as [Hc Hs].
  cbn [for_loop].
  destruct (loop_body_numeral 0 0 c) as (H1 & H2 & H3); [lia | lia | done |].
  destruct (loop_body (0, 0) c) as [r1 t1]. cbn [fst snd] in *.
  pose proof (for_loop_numerals s r1 t1 H1 H2 H3 Hs) as H.
  destruct (for_loop (r1, t1) s). exact H.
Qed.

Lemma heading_volume_numerals line v r :
  heading_volume line = Some (v, r) ->
  v <> [] /\ Forall (fun c => one_of numerals c = true) v.
Proof.
  unfold heading_volume.
  destruct (expect (chr "#") line) as [r0|]; [|done]. cbn [mbind option_bind].
  destruct (some_of py_isspace r0) as [wr|]; [|done]. cbn [mbind option_bind].
  destruct (expect (chr "卷") wr.2) as [r1|]; [|done]. cbn [mbind option_bind].
  apply some_of_Some.
Qed.

(** X9: a chapter reference the Parser returns has a volume of at least
    one and, when it has a section, a section of at least one: the
    numerals of a heading never read as zero. *)
Theorem parser_numbers_positive (content : pystr) (volume : Z)
    (section : option Z) :
  parse_chapter_title content = Some (volume, section) ->
  1 <= volume /\ forall n, section = Some n -> 1 <= n.
Proof.
  unfold parse_chapter_title. induction (split_lines content) as [|line ls IH];
    [done|].
  cbn [scan_lines].
  rewrite pattern_with_section_match, pattern_without_section_match.
  unfold heading_with_section, heading_without_section.
  destruct (heading_volume line) as [[v r]|] eqn:Hv; [|exact IH].
  destruct (heading_volume_numerals _ _ _ Hv) as [Hne Hnum].
  cbn [mbind option_bind fst snd].
  destruct (expect (chr "之") r) as [r'|]; cbn [mbind option_bind].
  - destruct (some_of (one_of numerals) r') as [[sec r'']|] eqn:Hs;
      cbn [fmap option_fmap option_map mbind option_bind fst snd].
    + apply some_of_Some in Hs as [Hne' Hnum'].
      unfold group. rewrite lookup_insert_ne by done.
      rewrite !lookup_insert_eq. cbn [default].
      intros [= <- <-]. split; [by apply chinese_to_number_numerals|].
      intros n [= <-]. by apply chinese_to_number_numerals.
    + destruct (_ || _); cbn [fmap option_fmap option_map]; [|exact IH].
      unfold group. rewrite lookup_insert_eq. cbn [default].
      intros [= <- <-]. split; [by apply chinese_to_number_numerals | done].
  - destruct (_ || _); cbn [fmap option_fmap option_map]; [|exact IH].
    unfold group. rewrite lookup_insert_eq. cbn [default].
    intros [= <- <-]. split; [by apply chinese_to_number_numerals | done].
Qed.

Lemma parser_numbers_positive_witness :
  parse_chapter_title Examples.document_with_section = Some (1, Some 1)
  /\ 1 <= 1.
Proof.
  assert (H : parse_chapter_title Examples.document_with_section
              = Some (1, Some 1)) by (vm_compute; reflexivity).
  split; [exact H|].
  exact (proj1 (parser_numbers_positive _ _ _ H)).
Defined.

Lemma numerals_no_lf v :
  Forall (fun c => one_of numerals c = true) v -> Forall (fun c => c <> LF) v.
Proof.
  intros Hv. eapply Forall_impl; [exact Hv|].
  intros c Hc ->. vm_compute in Hc. discriminate.
Qed.

Lemma heading_volume_exact ws v rest :
  ws <> [] -> Forall (fun c => py_isspace c = true) ws ->
  v <> [] -> Forall (fun c => one_of numerals c = true) v ->
  (forall c rest', rest = c :: rest' -> one_of numerals c = false) ->
  heading_volume ([chr "#"] ++ ws ++ [chr "卷"] ++ v ++ rest) = Some (v, rest).
Proof.
  intros Hws Hsp Hv Hnum Hrest. unfold heading_volume. cbn [app expect].
  rewrite N.eqb_refl. cbn [mbind option_bind].
  rewrite (some_of_exact py_isspace ws (chr "卷" :: v ++ rest)); [|done|done|].
  2:{ intros c rest' [= <- _]. reflexivity. }
  cbn [mbind option_bind snd expect]. rewrite N.eqb_refl.
  by apply some_of_exact.
Qed.

Lemma parse_one_line line :
  Forall (fun c => c <> LF) line ->
  parse_chapter_title line
  = match heading_with_section line with
    | Some vs => Some (chinese_to_number vs.1, Some (chinese_to_number vs.2))
    | None =>
      match heading_without_section line with
      | Some v => Some (chinese_to_number v, None)
      | None => None
      end
    end.
Proof.
  intros Hline. unfold parse_chapter_title.
  rewrite (split_lines_no_lf _ Hline). cbn [scan_lines].
  rewrite pattern_with_section_match, pattern_without_section_match.
  destruct (heading_with_section line) as [vs|];
    cbn [fmap option_fmap option_map].
  - unfold group. rewrite lookup_insert_ne by done.
    by rewrite !lookup_insert_eq.
  - destruct (heading_without_section line) as [v|];
      cbn [fmap option_fmap option_map]; [|done].
    unfold group. by rewrite lookup_insert_eq.
Qed.

(** X10: a line made of "#", white space, "卷", volume numerals, "之",
    section numerals and then any text that does not go on with a
    numeral is read as (volume, section). A line that has no section
    numeral after "之", or no "之" at all, after its volume numerals is
    read as (volume, None) when it ends after the numerals or after
    "目録", and is no heading when any other text follows on the line,
    whatever that text is. *)
Theorem parser_reads_heading_lines (ws v : pystr) :
  ws <> [] -> Forall (fun c => py_isspace c = true /\ c <> LF) ws ->
  v <> [] -> Forall (fun c => one_of numerals c = true) v ->
  (forall s tail,
     s <> [] -> Forall (fun c => one_of numerals c = true) s ->
     Forall (fun c => c <> LF) tail ->
     (forall c tail', tail = c :: tail' -> one_of numerals c = false) ->
     parse_chapter_title
       ([chr "#"] ++ ws ++ [chr "卷"] ++ v ++ [chr "之"] ++ s ++ tail)
     = Some (chinese_to_number v, Some (chinese_to_number s)))
  /\ parse_chapter_title ([chr "#"] ++ ws ++ [chr "卷"] ++ v)
     = Some (chinese_to_number v, None)
  /\ parse_chapter_title ([chr "#"] ++ ws ++ [chr "卷"] ++ v ++ str "目録")
     = Some (chinese_to_number v, None)
  /\ (forall tail,
        tail <> [] -> tail <> str "目録" ->
        Forall (fun c => c <> LF) tail ->
        (forall c tail', tail = c :: tail' -> one_of numerals c = false) ->
        (forall s tail',
           tail = chr "之" :: s :: tail' -> one_of numerals s = false) ->
        parse_chapter_title ([chr "#"] ++ ws ++ [chr "卷"] ++ v ++ tail)
        = None).
Proof.
  intros Hws Hsp Hv Hnum.
  assert (Hsp1 : Forall (fun c => py_isspace c = true) ws)
    by (eapply Forall_impl; [exact Hsp | by intros c [? ?]]).
  assert (Hsp2 : Forall (fun c => c <> LF) ws)
    by (eapply Forall_impl; [exact Hsp | by intros c [? ?]]).
  pose proof (numerals_no_lf v Hnum) as Hvlf.
  assert (Hline : forall rest,
    Forall (fun c => c <> LF) rest ->
    Forall (fun c => c <> LF) ([chr "#"] ++ ws ++ [chr "卷"] ++ v ++ rest)).
  { intros rest Hr. repeat (apply Forall_app; split); try done;
      by repeat constructor. }
  split; [|split; [|split]].
  - intros s tail Hs Hsnum Htail Hnext.
    rewrite parse_one_line.
    2:{ apply Hline. repeat (apply Forall_app; split); try done.
        + by repeat constructor.
        + by apply numerals_no_lf. }
    unfold heading_with_section.
    rewrite (heading_volume_exact ws v _ Hws Hsp1 Hv Hnum).
    2:{ intros c rest' [= <- _]. reflexivity. }
    cbn [mbind option_bind fst snd app expect]. rewrite N.eqb_refl.
    cbn [mbind option_bind]. by rewrite (some_of_exact _ s tail).
  - rewrite <- (app_nil_r v) at 1. rewrite parse_one_line by (by apply Hline).
    unfold heading_with_section, heading_without_section.
    rewrite (heading_volume_exact ws v [] Hws Hsp1 Hv Hnum) by done.
    reflexivity.
  - rewrite parse_one_line by (apply Hline; by repeat constructor).
    unfold heading_with_section, heading_without_section.
    rewrite (heading_volume_exact ws v _ Hws Hsp1 Hv Hnum).
    2:{ intros c rest' [= <- _]. reflexivity. }
    reflexivity.
  - intros tail Hne Hnot Htail Hnext Hsec.
    rewrite parse_one_line by (by apply Hline).
    unfold heading_with_section, heading_without_section.
    rewrite (heading_volume_exact ws v _ Hws Hsp1 Hv Hnum) by done.
    cbn [mbind option_bind fst snd].
    assert (Hend : forall r,
              Forall (fun c => c <> LF) r -> r <> [] -> at_end r = false).
    { intros [|c [|c' r]] Hr Hr0; [done| |done]. cbn.
      apply N.eqb_neq. by apply Forall_cons_1 in Hr as [? _]. }
    assert (Hwith : expect (chr "之") tail
                    ≫= (fun r => some_of (one_of numerals) r
                                 ≫= (fun sr => Some (v, sr.1)))
                    = None).
    { destruct tail as [|c tail']; [done|]. cbn [expect].
      destruct (N.eqb_spec (chr "之") c) as [<-|]; [|done].
      cbn [mbind option_bind]. unfold some_of.
      destruct tail' as [|s tail'']; [done|]. cbn [leading].
      by rewrite (Hsec s tail'' eq_refl). }
    rewrite Hwith, (Hend tail) by done. cbn [orb].
    destruct (strip_prefix (str "目録") tail) as [r|] eqn:Hp; [|done].
    apply strip_prefix_Some in Hp. rewrite Hend; [done| |].
    + rewrite Hp in Htail. by apply Forall_app in Htail as [_ ?].
    + intros ->. apply Hnot. by rewrite Hp, app_nil_r.
Qed.

Lemma parser_reads_heading_lines_witness :
  parse_chapter_title (str "# 卷一百六之十二 上")
  = Some (106, Some 12)
  /\ parse_chapter_title (str "# 卷一百六目録上") = None.
Proof.
  assert (Hsp : Forall (fun c => py_isspace c = true /\ c <> LF) (str " "))
    by (repeat constructor; vm_compute; discriminate).
  assert (Hnum : Forall (fun c => one_of numerals c = true) (str "一百六"))
    by (repeat constructor).
  split.
  - refine (proj1 (parser_reads_heading_lines (str " ") (str "一百六")
                     _ Hsp _ Hnum) (str "十二") (str " 上") _ _ _ _);
      try discriminate.
    + repeat constructor.
    + repeat constructor; vm_compute; discriminate.
    + intros c tail' [= <- _]. reflexivity.
  - refine (proj2 (proj2 (proj2 (parser_reads_heading_lines (str " ")
                     (str "一百六") _ Hsp _ Hnum))) (str "目録上") _ _ _ _ _);
      try discriminate.
    + repeat constructor; vm_compute; discriminate.
    + intros c tail' [= <- _]. reflexivity.
Defined.

End ParserMore.

(** ** [format_chapter_number] *)

Section FormatMore.

Lemma format_0d_chars width n :
  Forall (fun c => c = 45%N \/ (48 <= c <= 57)%N) (format_0d width n).
Proof.
  unfold format_0d. destruct (n <? 0)%Z.
  - constructor; [by left|].
    eapply Forall_impl; [apply zfill_digits | by right].
  - eapply Forall_impl; [apply zfill_digits | by right].
Qed.

Lemma underscore_split a : forall a' b b',
  Forall (fun c => c <> 95%N) a -> Forall (fun c => c <> 95%N) a' ->
  a ++ 95%N :: b = a' ++ 95%N :: b' -> a = a' /\ b = b'.
Proof.
  induction a as [|c a IH]; intros a' b b' Ha Ha' Heq.
  - destruct a' as [|c' a']; [by injection Heq|].
    injection Heq as <- _. by apply Forall_cons_1 in Ha' as [? _].
  - apply Forall_cons_1 in Ha as [Hc Ha].
    destruct a' as [|c' a']; [by injection Heq as -> _|].
    apply Forall_cons_1 in Ha' as [_ Ha']. injection Heq as <- Heq.
    destruct (IH _ _ _ Ha Ha' Heq) as [-> ->]. done.
Qed.

Lemma format_0d_no_underscore width n :
  Forall (fun c => c <> 95%N) (format_0d width n).
Proof.
  eapply Forall_impl; [apply format_0d_chars|]. intros c [->|?]; [done | lia].
Qed.

(** X11: different chapter references never get the same file name:
    the name determines both the volume and the section (or that there
    is none). *)
Theorem format_chapter_number_inj (volume volume' : Z)
    (section section' : option Z) :
  format_chapter_number volume section = format_chapter_number volume' section' ->
  volume = volume' /\ section = section'.
Proof.
  unfold format_chapter_number. change (str "_") with [95%N].
  pose proof (format_0d_no_underscore 3 volume) as Hv.
  pose proof (format_0d_no_underscore 3 volume') as Hv'.
  destruct section as [s|], section' as [s'|]; intros Heq.
  - apply underscore_split in Heq as [H1 H2]; [|done|done].
    apply format_0d_inj in H1, H2. by subst.
  - rewrite <- Heq in Hv'. apply Forall_app in Hv' as [_ Hv'].
    by apply Forall_cons_1 in Hv' as [? _].
  - rewrite Heq in Hv. apply Forall_app in Hv as [_ Hv].
    by apply Forall_cons_1 in Hv as [? _].
  - apply format_0d_inj in Heq. by subst.
Qed.

Lemma format_chapter_number_inj_witness :
  format_chapter_number 43 (Some 2%Z) = str "043_02"
  /\ (43 = 43 /\ Some 2 = Some 2)%Z.
Proof.
  split; [reflexivity|].
  apply (format_chapter_number_inj 43 43 (Some 2%Z) (Some 2%Z)). reflexivity.
Defined.

Lemma length_zfill width s : length (zfill width s) = Nat.max width (length s).
Proof. unfold zfill. rewrite length_app, repeat_length. lia. Qed.

(** X12: a number that is not negative is written with digits only, at
    least [width] of them, and reading the digits back gives the
    number. *)
Theorem format_0d_reads_back (width : nat) (n : Z) :
  (0 <= n)%Z ->
  Forall (fun c => (48 <= c <= 57)%N) (format_0d width n)
  /\ width <= length (format_0d width n)
  /\ Z.of_N (parse_nat (format_0d width n)) = n.
Proof.
  intros Hn. unfold format_0d.
  destruct (Z.ltb_spec n 0) as [?|_]; [lia|]. split; [apply zfill_digits|].
  split.
  - rewrite length_zfill. lia.
  - rewrite parse_nat_zfill. lia.
Qed.

Lemma format_0d_reads_back_witness :
  format_0d 3 43 = str "043" /\ Z.of_N (parse_nat (format_0d 3 43)) = 43%Z.
Proof.
  split; [reflexivity|].
  apply (format_0d_reads_back 3 43). lia.
Defined.

(** X13: for volumes up to 999 and sections up to 99 the names have a
    fixed width: three characters without a section, six with one. *)
Theorem format_chapter_number_width (volume section : Z) :
  (0 <= volume <= 999)%Z -> (0 <= section <= 99)%Z ->
  length (format_chapter_number volume None) = 3
  /\ length (format_chapter_number volume (Some section)) = 6.
Proof.
  intros Hv Hs.
  assert (H3 : forallb (fun k => length (format_0d 3 (Z.of_nat k)) =? 3)
                       (seq 0 1000) = true) by (vm_compute; reflexivity).
  assert (H2 : forallb (fun k => length (format_0d 2 (Z.of_nat k)) =? 2)
                       (seq 0 100) = true) by (vm_compute; reflexivity).
  rewrite forallb_forall in H3, H2.
  specialize (H3 (Z.to_nat volume) ltac:(apply in_seq; lia)).
  specialize (H2 (Z.to_nat section) ltac:(apply in_seq; lia)).
  apply Nat.eqb_eq in H3, H2. rewrite Z2Nat.id in H3, H2 by lia.
  unfold format_chapter_number. rewrite !length_app, H3, H2. done.
Qed.

Lemma format_chapter_number_width_witness :
  length (format_chapter_number 106 None) = 3
  /\ length (format_chapter_number 106 (Some 12%Z)) = 6.
Proof. apply (format_chapter_number_width 106 12); lia. Defined.

End FormatMore.

(** ** [process_md_files] *)

Section RenamerMore.
Context {console : Stdout}.

(** X14: a dry run leaves the directory exactly as it found it, missing
    or not, and none of the lines it prints reports a rename as done;
    this holds also of a run that an exception of [print] cuts short.
    When standard output takes every line, the dry run ends without an
    exception. *)
Theorem renamer_dry_run_changes_nothing (w : Renamer.world) :
  exists msgs,
    Renamer.md_dir (process_md_files true w).2 = Renamer.md_dir w
    /\ Renamer.stdout (process_md_files true w).2 = Renamer.stdout w ++ msgs
    /\ Forall (fun m => More.is_renamed m = false) msgs
    /\ ((forall m, Renamer.printable m = true) ->
        (process_md_files true w).1 = inr tt).
Proof.
  destruct w as [[d|] out]; cbn [Renamer.md_dir Renamer.stdout].
  - destruct (process_md_files_run true d out)
      as (r & d' & msgs & -> & _ & Hsame & _ & _ & _ & Hlive).
    destruct Hsame as [-> Hmsgs]; [by left|]. by exists msgs.
  - unfold process_md_files, bind, get, Renamer.print.
    cbn [Renamer.md_dir Renamer.stdout].
    destruct (Renamer.printable Dir_missing) eqn:Hp; cbn.
    + exists [Dir_missing]. by repeat split; try constructor.
    + exists []. rewrite app_nil_r. repeat split; try constructor.
      intros Hall. congruence.
Qed.


(** X16: every rename a run reports was done, and done as reported. If
    the output has a new line "renamed name to new (chapter)", the run
    was not a dry one, name was a listed readable file whose first
    heading gives that chapter, new is the chapter's canonical name, and
    in the directory the run leaves name is gone and new holds the text
    that name held. *)
Theorem renamer_reports_true_renames (dry_run : bool) (d : directory)
    (out : list Renamer.message) (name new : pystr) (chap : chapter) :
  Renamed name new chap
    ∈ Renamer.stdout (process_md_files dry_run (Renamer.World (Some d) out)).2 ->
  Renamed name new chap ∉ out ->
  dry_run = false
  /\ More.listed name = true
  /\ new = canonical_name chap
  /\ exists d' content,
      Renamer.md_dir (process_md_files dry_run (Renamer.World (Some d) out)).2
      = Some d'
      /\ entries d !! name = Some (Readable content)
      /\ parse_chapter_title content = Some chap
      /\ entries d' !! name = None
      /\ entries d' !! new = Some (Readable content).
Proof.
  destruct (process_md_files_run dry_run d out)
    as (r & d' & msgs & -> & _ & Hsame & _ & Hrenamed & _).
  cbn [snd Renamer.stdout Renamer.md_dir]. intros Hin Hout.
  apply elem_of_app in Hin as [Hin|Hin]; [done|].
  split.
  { destruct dry_run; [|done]. destruct Hsame as [_ Hmsgs]; [by left|].
    rewrite Forall_forall in Hmsgs. by apply Hmsgs in Hin. }
  destruct (Hrenamed _ _ _ Hin)
    as (Hl & -> & Hgone & content & Hnode & Hparse & Hnew).
  split; [done|]. split; [done|]. by exists d', content.
Qed.







End RenamerMore.

Section RenamerMoreStrictUtf8.
#[local] Existing Instance strict_utf8.

Lemma renamer_reports_true_renames_witness :
  entries Examples.md_with_unreadable !! str "KR3k0059_003.md"
  = Some (Readable (str "# 卷一之一"))
  /\ exists d',
      Renamer.md_dir
        (process_md_files false
           (Renamer.World (Some Examples.md_with_unreadable) [])).2
      = Some d'
      /\ entries d' !! str "KR3k0059_003.md" = None
      /\ entries d' !! str "001_01.md" = Some (Readable (str "# 卷一之一")).
Proof.
  split; [vm_compute; reflexivity|].
  destruct (renamer_reports_true_renames false Examples.md_with_unreadable []
              (str "KR3k0059_003.md") (str "001_01.md") (1%Z, Some 1%Z))
    as (_ & _ & _ & d' & content & Hd' & Hnode & _ & Hgone & Hnew).
  - replace (Renamer.stdout _)
      with [ Found 3; Blank;
             Renamed (str "KR3k0059_001.md") (str "003.md") (3%Z, None);
             Failed_with (str "KR3k0059_002.md")
               (ReadError (str "KR3k0059_002.md"));
             Renamed (str "KR3k0059_003.md") (str "001_01.md") (1%Z, Some 1%Z);
             Blank; Rule; Finished; Renamed_total 2; Skipped_total 0;
             Failed_total 1 ]
      by (vm_compute; reflexivity).
    do 4 apply list_elem_of_further. apply list_elem_of_here.
  - apply not_elem_of_nil.
  - exists d'. split; [exact Hd'|]. split; [exact Hgone|].
    replace (entries Examples.md_with_unreadable !! str "KR3k0059_003.md")
      with (Some (Readable (str "# 卷一之一"))) in Hnode
      by (vm_compute; reflexivity).
    injection Hnode as <-. exact Hnew.
Defined.



(** Without distinct chapters the preview can be wrong: with two files
    of the same chapter the dry run announces both renames, and the real
    run does the first and refuses the second. *)
Example dry_run_misses_collision :
  Renamer.stdout
    (process_md_files true (Renamer.World (Some More.md_same_chapter) [])).2
  = [ Found 2; Blank;
      Would_rename (str "KR3k0059_001.md") (str "001_01.md") (1%Z, Some 1%Z);
      Would_rename (str "KR3k0059_002.md") (str "001_01.md") (1%Z, Some 1%Z);
      Blank; Rule; Finished; Renamed_total 2; Skipped_total 0; Failed_total 0;
      Blank; Dry_run_note; Dry_run_hint ]
  /\ Renamer.stdout
       (process_md_files false (Renamer.World (Some More.md_same_chapter) [])).2
     = [ Found 2; Blank;
         Renamed (str "KR3k0059_001.md") (str "001_01.md") (1%Z, Some 1%Z);
         Target_exists (str "KR3k0059_002.md") (str "001_01.md");
         Blank; Rule; Finished; Renamed_total 1; Skipped_total 0;
         Failed_total 1 ].
Proof. split; vm_compute; reflexivity. Qed.

(** A dangling link at the name of a chapter does not stop the move:
    the link is replaced. *)
Example rename_replaces_dangling_link :
  process_md_files false (Renamer.World (Some More.md_dangling) [])
  = (inr tt,
     Renamer.World
       (Some (Directory
                (list_to_map [ (str "001_01.md", Readable (str "# 卷一之一")) ])
                true))
       [ Found 1; Blank;
         Renamed (str "KR3k0059_001.md") (str "001_01.md") (1%Z, Some 1%Z);
         Blank; Rule; Finished; Renamed_total 1; Skipped_total 0;
         Failed_total 0 ]).
Proof. vm_compute. reflexivity. Qed.

End RenamerMoreStrictUtf8.

Section RenamerMoreLenient.
#[local] Existing Instance lenient.



End RenamerMoreLenient.

(** ** [extract_frontmatter_and_content] *)

Section SplitterMore.

(** X20: the Splitter loses nothing, whatever the text. When it finds no
    block the body is the whole text; when it finds one, the text is the
    opening marker line, the block, a line feed, the closing marker line
    and the body, and no line of the block after its first is a
    three-dash line. The first line of the block can be one. *)
Theorem splitter_rebuilds_text (text : pystr) :
  match frontmatter_and_content text with
  | (Some metadata, body) =>
    text = str "---" ++ [LF] ++ metadata ++ [LF] ++ str "---" ++ [LF] ++ body
    /\ str "---" ∉ tl (split_lines metadata)
  | (None, body) => body = text
  end.
Proof.
  destruct (frontmatter_and_content text) as [[metadata|] body] eqn:H.
  - apply frontmatter_and_content_Some in H as [-> Hfirst].
    split; [|by apply closes_first_lines].
    unfold Spec.wrap, Spec.opening, Spec.closing.
    by rewrite <- !(assoc_L (++)).
  - by apply frontmatter_and_content_None in H.
Qed.

(** X21: the Splitter finds a block exactly in the texts that start with
    a marker line and have a line feed, three dashes and a line feed
    after it. A text that is only two marker lines one after the other,
    with no line between them, has no block. *)
Theorem splitter_finds_block_iff (text : pystr) :
  ((frontmatter_and_content text).1 <> None
   <-> exists metadata body, text = Spec.wrap metadata body)
  /\ forall body,
       find Spec.closing (str "---" ++ [LF] ++ body) = None ->
       frontmatter_and_content (Spec.opening ++ str "---" ++ [LF] ++ body)
       = (None, Spec.opening ++ str "---" ++ [LF] ++ body).
Proof.
  split; [split|].
  - destruct (frontmatter_and_content text) as [[metadata|] body] eqn:H; [|done].
    intros _. apply frontmatter_and_content_Some in H as [-> _].
    by exists metadata, body.
  - intros (metadata & body & ->).
    destruct (frontmatter_and_content_wrap_Some metadata body)
      as (fm & body' & ->). done.
  - intros body Hnone. rewrite frontmatter_and_content_search.
    unfold frontmatter_by_search. by rewrite strip_prefix_app, Hnone.
Qed.

(** X22: the text written for a pair is always in the delimited form,
    and splitting it gives back the block the Merger chose and, as body,
    the two bodies with one line feed between them; the block of the
    file that was not chosen is in neither. *)
Theorem merged_text_splits_back (catalog content : pystr) :
  frontmatter_and_content (merge_texts catalog content)
  = (Some (format_value
             (if truthy (frontmatter_and_content catalog).1
              then (frontmatter_and_content catalog).1
              else (frontmatter_and_content content).1)),
     (frontmatter_and_content catalog).2 ++ [LF]
     ++ (frontmatter_and_content content).2).
Proof.
  rewrite merge_texts_unfold, merged_content_wrap.
  apply frontmatter_and_content_wrap.
  destruct (frontmatter_and_content catalog) as [[[|c m]|] b] eqn:Hcat;
    cbn [fst truthy].
  2:{ by apply frontmatter_and_content_Some in Hcat as [_ ?]. }
  all: destruct (frontmatter_and_content content) as [[m'|] b'] eqn:Hcon;
    cbn [fst format_value];
    [by apply frontmatter_and_content_Some in Hcon as [_ ?]
    | vm_compute; reflexivity].
Qed.

End SplitterMore.

(** ** [merge_files] *)

Section MergerMore.
Variable decimal : pychar -> option Z.
Context {host : Host}.

Lemma for_each_app {S A B} (l1 l2 : list A) (body : A -> B -> M S B) :
  forall acc s acc1 s1,
    for_each l1 body acc s = (inr acc1, s1) ->
    for_each (l1 ++ l2) body acc s = for_each l2 body acc1 s1.
Proof.
  induction l1 as [|x l1 IH]; intros acc s acc1 s1; cbn [for_each app].
  - by intros [= -> ->].
  - unfold bind. destruct (body x acc s) as [[e|acc'] s']; [done|]. apply IH.
Qed.

Lemma for_each_app_raise {S A B} (l1 l2 : list A) (body : A -> B -> M S B) :
  forall acc s e s1,
    for_each l1 body acc s = (inl e, s1) ->
    for_each (l1 ++ l2) body acc s = (inl e, s1).
Proof.
  induction l1 as [|x l1 IH]; intros acc s e s1; cbn [for_each app].
  - by intros [=].
  - unfold bind. destruct (body x acc s) as [[e'|acc'] s']; [done|]. apply IH.
Qed.

(** Lines 41 to 46 for one more file. *)
Lemma build_file_dict_snoc files file :
  build_file_dict decimal (files ++ [file])
  = add_file decimal (build_file_dict decimal files) file.
Proof. unfold build_file_dict. by rewrite fold_left_app. Qed.

(** X23: of the files whose names carry the same number, [file_dict]
    keeps the last one in the order of the list, which in a run is the
    sorted order of the names; the others are dropped without a word.
    A number no name carries has no entry. *)
Theorem file_dict_last_wins (files : list pystr) (k : Z) :
  build_file_dict decimal files !! k
  = last (filter (fun file => file_number decimal file = Some k) files).
Proof.
  induction files as [|file files IH] using rev_ind; [done|].
  rewrite build_file_dict_snoc, filter_app. unfold add_file.
  assert (Hnum : file_number decimal file
                 = (fun m => py_int decimal (group m 1))
                   <$> re_search (file_number_pattern decimal) file) by done.
  destruct (re_search (file_number_pattern decimal) file) as [m|];
    cbn [fmap option_fmap option_map] in Hnum.
  - destruct (decide (py_int decimal (group m 1) = k)) as [Hk|Hk].
    + rewrite filter_cons_True, filter_nil by congruence.
      rewrite last_snoc, Hk. apply lookup_insert_eq.
    + rewrite filter_cons_False, filter_nil, app_nil_r by congruence.
      by rewrite lookup_insert_ne.
  - rewrite filter_cons_False, filter_nil, app_nil_r by congruence. done.
Qed.

(** X24: a run of the Merger, finished or cut short, leaves the source
    directory as it was, and in the output directory it leaves alone
    every file that is not the output file of a complete pair. *)
Theorem merger_writes_only_pair_outputs (w : Merger.world) (name : pystr) :
  (forall num,
     complete_pair (run_file_dict decimal w) num = true ->
     name <> output_name num) ->
  Merger.md_dir (merge_files decimal w).2 = Merger.md_dir w
  /\ output_files (merge_files decimal w).2 !! name = output_files w !! name.
Proof.
  intros Hname.
  destruct (merge_files decimal w) as [r w'] eqn:Hrun.
  apply merge_files_effect in Hrun as (Hmd & Hout & _). split; [done|].
  by apply Hout.
Qed.

(** A number of a sorted list without repetitions splits it into the
    smaller ones before it and the larger ones after it. *)
Lemma sorted_keys_split (file_dict : gmap Z pystr) num :
  is_Some (file_dict !! num) ->
  exists before after,
    sorted_keys file_dict = before ++ num :: after
    /\ NoDup before
    /\ (forall n, n ∈ before <-> is_Some (file_dict !! n) /\ (n < num)%Z).
Proof.
  intros [file Hfile]. unfold sorted_keys.
  assert (Hin : num ∈ merge_sort Z.le (map_to_list file_dict).*1).
  { rewrite merge_sort_Permutation. apply list_elem_of_fmap.
    exists (num, file). split; [done|]. by apply elem_of_map_to_list. }
  assert (Hnodup : NoDup (merge_sort Z.le (map_to_list file_dict).*1)).
  { rewrite merge_sort_Permutation. apply NoDup_fst_map_to_list. }
  assert (Hkeys : forall n, n ∈ merge_sort Z.le (map_to_list file_dict).*1
                            <-> is_Some (file_dict !! n)).
  { intros n. rewrite merge_sort_Permutation, list_elem_of_fmap. split.
    - intros ([n' f] & -> & Hf%elem_of_map_to_list). by exists f.
    - intros [f Hf]. exists (n, f). split; [done|]. by apply elem_of_map_to_list. }
  pose proof (StronglySorted_merge_sort Z.le (map_to_list file_dict).*1) as Hsorted.
  apply list_elem_of_split in Hin as (before & after & Hsplit).
  rewrite Hsplit in Hnodup, Hsorted, Hkeys. exists before, after.
  split; [done|]. apply NoDup_app in Hnodup as (Hbefore & Hdisj & Hafter).
  split; [done|]. intros n. split.
  - intros Hn. split; [apply Hkeys, elem_of_app; by left|].
    pose proof (StronglySorted_app_1_elem_of _ _ _ n num Hsorted Hn
                  ltac:(by left)) as Hle.
    assert (n <> num) by (intros ->; apply (Hdisj num Hn); by left).
    lia.
  - intros [Hn Hlt]. apply Hkeys in Hn.
    apply elem_of_app in Hn as [Hn|Hn]; [done|].
    apply elem_of_cons in Hn as [->|Hn]; [lia|].
    apply StronglySorted_app_1_r, StronglySorted_inv in Hsorted as [_ Hall].
    rewrite Forall_forall in Hall. apply Hall in Hn. lia.
Qed.

(** X25: the Merger has no handler, so a complete pair with a file
    that cannot be read ends the run with an exception, at that pair or
    before it: the run does not end normally, no output file of that
    number or a larger one is touched, and the closing line with the
    count is not printed. On an obliging host, when the pairs with
    smaller numbers can be read, the exception is the one of the read
    and those pairs have been written. *)
Theorem merger_aborts_on_unreadable (w : Merger.world) (num : Z) :
  complete_pair (run_file_dict decimal w) num = true ->
  pair_output (Merger.md_dir w) (run_file_dict decimal w) num = None ->
  (exists e, (merge_files decimal w).1 = inl e)
  /\ (forall n,
        (num <= n)%Z ->
        output_files (merge_files decimal w).2 !! output_name n
        = output_files w !! output_name n)
  /\ (forall k,
        Done k ∈ Merger.stdout (merge_files decimal w).2 ->
        Done k ∈ Merger.stdout w)
  /\ (obliging host ->
      (forall n,
         complete_pair (run_file_dict decimal w) n = true -> (n < num)%Z ->
         is_Some (pair_output (Merger.md_dir w) (run_file_dict decimal w) n)) ->
      (exists name,
         (merge_files decimal w).1 = inl (FileNotFoundError name)
         \/ (merge_files decimal w).1 = inl (ReadError name))
      /\ forall n,
           complete_pair (run_file_dict decimal w) n = true -> (n < num)%Z ->
           output_files (merge_files decimal w).2 !! output_name n
           = pair_output (Merger.md_dir w) (run_file_dict decimal w) n).
Proof.
  intros Hpair Hnone.
  assert (Hkey : is_Some (run_file_dict decimal w !! num)).
  { apply andb_prop in Hpair as [[_ H]%andb_prop _].
    by apply bool_decide_eq_true in H. }
  destruct (sorted_keys_split _ _ Hkey)
    as (before & after & Hsplit & Hnodup & Hbefore).
  assert (Hrun : exists e wf,
    merge_files decimal w = (inl e, wf)
    /\ (forall n, (num <= n)%Z ->
          output_files wf !! output_name n = output_files w !! output_name n)
    /\ (forall k, Done k ∈ Merger.stdout wf -> Done k ∈ Merger.stdout w)
    /\ (obliging host ->
        (forall n,
           complete_pair (run_file_dict decimal w) n = true -> (n < num)%Z ->
           is_Some (pair_output (Merger.md_dir w) (run_file_dict decimal w) n)) ->
        (exists name, e = FileNotFoundError name \/ e = ReadError name)
        /\ forall n,
             complete_pair (run_file_dict decimal w) n = true -> (n < num)%Z ->
             output_files wf !! output_name n
             = pair_output (Merger.md_dir w) (run_file_dict decimal w) n)).
  { rewrite merge_files_loop, Hsplit.
    destruct (mkdir_exist_ok w) as [[e0|[]] w0] eqn:Hmk;
      apply mkdir_exist_ok_effect in Hmk as (Hmd0 & Hout0 & Hlog0 & Hcreate).
    { eexists _, _. split; [done|]. split; [by intros; rewrite Hout0|].
      split; [by rewrite Hlog0|]. intros (_ & Hc & _) _.
      by destruct (Hcreate Hc) as [[=] _]. }
    destruct (for_each before (merge_step (run_file_dict decimal w)) 0%Z w0)
      as [r1 w1] eqn:Hloop.
    pose proof (for_each_merge_effect _ _ _ _ _ _ Hloop)
      as (Hmd1 & Hout1 & _ & msgs1 & Hlog1 & Hmsgs1).
    assert (Hkeep : forall n, (num <= n)%Z ->
              output_files w1 !! output_name n = output_files w !! output_name n).
    { intros n Hn. rewrite Hout1, Hout0; [done|].
      intros n' Hn' _ Heq. apply output_name_inj in Heq as <-.
      apply Hbefore in Hn' as [_ ?]. lia. }
    assert (Hdone : forall k,
              Done k ∈ Merger.stdout w1 -> Done k ∈ Merger.stdout w).
    { intros k Hin. rewrite Hlog1, Hlog0 in Hin.
      apply elem_of_app in Hin as [?|Hin]; [done|]. by apply Hmsgs1 in Hin. }
    destruct r1 as [e1|count1].
    - rewrite (for_each_app_raise _ _ _ _ _ _ _ Hloop).
      eexists _, _. split; [done|]. split; [done|]. split; [done|].
      intros Hhost Hfirst. exfalso.
      destruct (for_each_merge_complete (run_file_dict decimal w)
                  before 0%Z w0 Hnodup Hhost) as (c' & w' & Hok & _).
      { intros n Hn Hc. rewrite Hmd0. apply Hfirst; [done|].
        by apply Hbefore in Hn as [_ ?]. }
      congruence.
    - rewrite (for_each_app _ _ _ _ _ _ _ Hloop). cbn [for_each].
      unfold bind at 1.
      destruct (merge_step_unreadable (run_file_dict decimal w) num count1 w1
                  Hpair) as (e & log & Hstep & He); [by rewrite Hmd1, Hmd0|].
      pose proof Hstep as Hstep'. rewrite Hstep.
      apply merge_step_effect in Hstep'
        as (_ & _ & _ & msgs' & Hlog' & Hmsgs').
      cbn [Merger.stdout] in Hlog'.
      eexists _, _. split; [done|]. split; [|split].
      + intros n Hn. unfold output_files at 1. cbn [output_dir].
        change (default ∅ (output_dir w1)) with (output_files w1).
        by apply Hkeep.
      + intros k Hin. cbn [Merger.stdout] in Hin. rewrite Hlog' in Hin.
        apply elem_of_app in Hin as [?|Hin]; [by apply Hdone|].
        by apply Hmsgs' in Hin.
      + intros Hhost Hfirst. split; [apply He, Hhost|].
        intros n Hc Hlt. unfold output_files at 1. cbn [output_dir].
        change (default ∅ (output_dir w1)) with (output_files w1).
        destruct (for_each_merge_complete (run_file_dict decimal w)
                    before 0%Z w0 Hnodup Hhost) as (c' & w' & Hok & _ & Hall).
        { intros n' Hn' Hc'. rewrite Hmd0. apply Hfirst; [done|].
          by apply Hbefore in Hn' as [_ ?]. }
        rewrite Hloop in Hok. injection Hok as _ <-.
        rewrite Hall, Hmd0; [done | | done].
        apply Hbefore. split; [|done].
        apply andb_prop in Hc as [[_ H]%andb_prop _].
        by apply bool_decide_eq_true in H. }
  destruct Hrun as (e & wf & -> & Hlarger & Hdone & Hfirst). cbn [fst snd].
  split; [by exists e|]. split; [done|]. split; [done|].
  intros Hhost Hsmaller. destruct (Hfirst Hhost Hsmaller) as [[name He] Hout].
  split; [|done]. exists name. destruct He as [->| ->]; by eauto.
Qed.

(** A step in two worlds with the same source directory: the same
    result, and the same change, if any, to the output files. *)
Lemma merge_step_same file_dict num merged_count w w2 :
  Merger.md_dir w2 = Merger.md_dir w ->
  exists r w' w2',
    merge_step file_dict num merged_count w = (r, w')
    /\ merge_step file_dict num merged_count w2 = (r, w2')
    /\ Merger.md_dir w' = Merger.md_dir w
    /\ Merger.md_dir w2' = Merger.md_dir w
    /\ ((output_files w' = output_files w
         /\ output_files w2' = output_files w2)
        \/ exists text,
            output_files w' = <[output_name num := text]> (output_files w)
            /\ output_files w2'
               = <[output_name num := text]> (output_files w2)).
Proof.
  destruct w as [md out log], w2 as [md2 out2 log2]. cbn. intros ->.
  run_merger.
  destruct (num mod 2 =? 1)%Z; [|eexists _, _, _; by eauto 10].
  destruct (file_dict !! num) as [catalog_file|];
    [|eexists _, _, _; by eauto 10].
  destruct (file_dict !! (num + 1)%Z) as [content_file|]; cbn;
    [|case_print; eexists _, _, _; by eauto 10].
  case_print; [|eexists _, _, _; by eauto 10].
  destruct (read_text md catalog_file) as [e|catalog]; cbn;
    [eexists _, _, _; by eauto 10|].
  destruct (read_text md content_file) as [e|content]; cbn;
    [eexists _, _, _; by eauto 10|].
  destruct (frontmatter_and_content catalog) as [catalog_fm catalog_body].
  destruct (frontmatter_and_content content) as [content_fm content_body].
  cbn. destruct (may_write (output_name num)); cbn;
    [|eexists _, _, _; by eauto 10].
  eexists _, _, _. do 4 (split; [done|]). right. by eexists.
Qed.

(** The loop once more, over the output files its first pass left. *)
Lemma for_each_merge_again file_dict nums : forall merged_count w r w' w2,
  NoDup nums ->
  for_each nums (merge_step file_dict) merged_count w = (r, w') ->
  Merger.md_dir w2 = Merger.md_dir w ->
  output_files w2 = output_files w' ->
  exists w2',
    for_each nums (merge_step file_dict) merged_count w2 = (r, w2')
    /\ Merger.md_dir w2' = Merger.md_dir w
    /\ output_files w2' = output_files w'.
Proof.
  induction nums as [|num nums IH]; intros merged_count w r w' w2 Hnodup;
    cbn [for_each].
  - intros [= <- <-] Hmd Hout. by exists w2.
  - apply NoDup_cons in Hnodup as [Hnotin Hnodup]. unfold bind at 1 2.
    intros Hrun Hmd Hout.
    destruct (merge_step_same file_dict num merged_count w w2 Hmd)
      as (r1 & w1 & w21 & Hstep & Hstep2 & Hmd1 & Hmd21 & Hfiles).
    rewrite Hstep in Hrun. rewrite Hstep2.
    assert (Hkeep : forall wf rf c1,
              for_each nums (merge_step file_dict) c1 w1 = (rf, wf) ->
              output_files wf !! output_name num
              = output_files w1 !! output_name num).
    { intros wf rf c1 (_ & Hk & _)%for_each_merge_effect. apply Hk.
      intros num' Hin _ Heq. apply output_name_inj in Heq as <-. done. }
    assert (Hsame : forall wf,
              output_files w2 = output_files wf ->
              output_files wf !! output_name num
              = output_files w1 !! output_name num ->
              output_files w21 = output_files wf).
    { intros wf Hwf Hname.
      destruct Hfiles as [[_ ->]|(text & Hw1 & ->)]; [done|].
      rewrite Hwf. apply insert_id. rewrite Hname, Hw1.
      apply lookup_insert_eq. }
    destruct r1 as [e|count1].
    + injection Hrun as <- <-. exists w21. split; [done|]. split; [done|].
      by apply Hsame.
    + destruct (IH count1 w1 r w' w21 Hnodup Hrun) as (w2' & Hrun2 & Hmd2 & Hout2).
      * congruence.
      * apply Hsame; [done | by eapply Hkeep].
      * exists w2'. split; [done|]. split; [congruence | done].
Qed.

(** The two closing lines change no file. *)
Lemma closing_prints_effect merged_count w :
  output_files
    ((Merger.print (Done merged_count) ;;; Merger.print Output_dir_line) w).2
  = output_files w
  /\ output_dir
       ((Merger.print (Done merged_count) ;;; Merger.print Output_dir_line) w).2
     = output_dir w
  /\ forall w2,
       ((Merger.print (Done merged_count) ;;; Merger.print Output_dir_line) w2).1
       = ((Merger.print (Done merged_count) ;;; Merger.print Output_dir_line) w).1.
Proof.
  unfold bind, Merger.print.
  destruct (Merger.printable (Done merged_count)); [|done].
  cbn. by destruct (Merger.printable Output_dir_line).
Qed.

(** X26: running the Merger again on the same source directory and the
    output directory it left changes nothing there: the second run ends
    as the first did, with the same result or the same exception, and
    leaves the same output files. *)
Theorem merger_second_run_same_output (w : Merger.world) :
  (merge_files decimal (merge_files decimal w).2).1 = (merge_files decimal w).1
  /\ output_files (merge_files decimal (merge_files decimal w).2).2
     = output_files (merge_files decimal w).2.
Proof.
  destruct (merge_files decimal w) as [r w1] eqn:Hrun. cbn [fst snd].
  pose proof (merge_files_effect _ _ _ _ Hrun) as (Hmd1 & _).
  assert (Hfd : run_file_dict decimal w1 = run_file_dict decimal w)
    by (unfold run_file_dict; by rewrite Hmd1).
  rewrite merge_files_loop in Hrun. rewrite merge_files_loop, Hfd.
  set (fd := run_file_dict decimal w) in *.
  assert (Hnodup : NoDup (sorted_keys fd)).
  { unfold sorted_keys. rewrite merge_sort_Permutation.
    apply NoDup_fst_map_to_list. }
  destruct (mkdir_exist_ok w) as [[e0|[]] w0] eqn:Hmk.
  { injection Hrun as <- <-.
    assert (w0 = w) as ->.
    { revert Hmk. unfold mkdir_exist_ok.
      destruct (output_dir w); [done|]. destruct may_create; [done|].
      by intros [= _ <-]. }
    by rewrite Hmk. }
  assert (Hdir0 : is_Some (output_dir w0) /\ Merger.md_dir w0 = Merger.md_dir w).
  { revert Hmk. unfold mkdir_exist_ok.
    destruct (output_dir w) eqn:Hw; [intros [= <-]; by rewrite Hw|].
    destruct may_create; intros [= <-]; cbn; by eauto. }
  destruct Hdir0 as [Hsome0 Hmd0].
  destruct (for_each (sorted_keys fd) (merge_step fd) 0%Z w0)
    as [r0 w0'] eqn:Hloop.
  assert (Hsome : forall nums c wa ra wb,
            for_each nums (merge_step fd) c wa = (ra, wb) ->
            is_Some (output_dir wa) -> is_Some (output_dir wb)).
  { induction nums as [|n nums IH]; intros c wa ra wb; cbn [for_each].
    - by intros [= _ <-].
    - unfold bind at 1. intros Hr Hs.
      assert (Hstep : is_Some (output_dir (merge_step fd n c wa).2)).
      { destruct wa as [md out log]. run_merger.
        destruct (n mod 2 =? 1)%Z; [|done].
        destruct (fd !! n); [|done].
        destruct (fd !! (n + 1)%Z); cbn; [|by case_print].
        case_print; [|done].
        destruct (read_text md _); cbn; [done|].
        destruct (read_text md _); cbn; [done|].
        destruct (frontmatter_and_content _), (frontmatter_and_content _).
        cbn. by destruct (may_write _). }
      destruct (merge_step fd n c wa) as [[e|c1] w1']; [by injection Hr as _ <-|].
      by eapply IH. }
  pose proof (Hsome _ _ _ _ _ Hloop Hsome0) as Hsome1.
  assert (Hmk1 : mkdir_exist_ok w1 = (inr tt, w1)
                 /\ output_files w1 = output_files w0').
  { destruct r0 as [e|n].
    - injection Hrun as _ <-. unfold mkdir_exist_ok.
      by destruct Hsome1 as [o ->].
    - destruct (closing_prints_effect n w0') as (Hout & Hdir & _).
      assert (Hw1 : w1 = ((Merger.print (Done n) ;;; Merger.print Output_dir_line) w0').2)
        by (by rewrite Hrun).
      rewrite <- Hw1 in Hout, Hdir. split; [|done].
      unfold mkdir_exist_ok. rewrite Hdir. by destruct Hsome1 as [o ->]. }
  destruct Hmk1 as [-> Hout1].
  destruct (for_each_merge_again fd (sorted_keys fd) 0%Z w0 r0 w0' w1
              Hnodup Hloop) as (w2' & -> & _ & Hout2); [congruence | done |].
  destruct r0 as [e|n].
  - injection Hrun as <- _. cbn. split; [done | congruence].
  - destruct (closing_prints_effect n w2') as (Hout & _ & Hres).
    rewrite Hout, <- (Hres w0'), Hrun. cbn. split; [done | congruence].
Qed.

End MergerMore.

Section MergerMoreUtf8.
#[local] Existing Instance utf8_host.

Lemma merger_writes_only_pair_outputs_witness :
  output_files More.world_with_notes !! str "notes.txt" = Some (str "x")
  /\ output_files (merge_files ascii_decimal More.world_with_notes).2
       !! str "notes.txt" = Some (str "x").
Proof.
  assert (Hbefore : output_files More.world_with_notes !! str "notes.txt"
                    = Some (str "x")) by (vm_compute; reflexivity).
  split; [exact Hbefore|].
  destruct (merger_writes_only_pair_outputs ascii_decimal More.world_with_notes
              (str "notes.txt")) as [_ H].
  - intros num _ Heq. apply (f_equal (take 1)) in Heq.
    vm_compute in Heq. discriminate Heq.
  - rewrite H. exact Hbefore.
Defined.

Lemma merger_aborts_on_unreadable_witness :
  (merge_files ascii_decimal
     (Merger.World (Some More.md_pair_unreadable) None [])).1
  = inl (ReadError (str "KR3k0059_004.md"))
  /\ output_files
       (merge_files ascii_decimal
          (Merger.World (Some More.md_pair_unreadable) None [])).2
       !! output_name 1
     = Some (merge_texts (str "目録一") (str "正文一"))
  /\ output_files
       (merge_files ascii_decimal
          (Merger.World (Some More.md_pair_unreadable) None [])).2
       !! output_name 5 = None.
Proof.
  destruct (merger_aborts_on_unreadable ascii_decimal
              (Merger.World (Some More.md_pair_unreadable) None []) 3)
    as (_ & Hlarger & _).
  - vm_compute. reflexivity.
  - vm_compute. reflexivity.
  - split; [vm_compute; reflexivity|]. split; [vm_compute; reflexivity|].
    rewrite Hlarger by lia. vm_compute. reflexivity.
Defined.

End MergerMoreUtf8.

(** ** File names and numbers *)

Section NamesMore.

Lemma search_from_hit n r s g :
  run n r s ∅ (fun _ g' => Some g') = Some g -> search_from n r s = Some g.
Proof. intros H. destruct s; cbn [search_from]; by rewrite H. Qed.

(** The number the Merger reads off a name made of the prefix, ASCII
    digits and the suffix. *)
Lemma file_number_of_name ds :
  ds <> [] -> Forall (fun c => (48 <= c <= 57)%N) ds ->
  file_number ascii_decimal (str "KR3k0059_" ++ ds ++ str ".md")
  = Some (py_int ascii_decimal ds).
Proof.
  intros Hne Hds. unfold file_number, re_search.
  erewrite search_from_hit; [cbn [fmap option_fmap option_map]|].
  2:{ unfold file_number_pattern.
      rewrite run_cat, run_lits, strip_prefix_app, run_cat.
      rewrite run_group_plus_commit.
      - rewrite some_of_exact; [cbn [fst snd]| done | |].
        + rewrite run_lits, <- (app_nil_r (str ".md")), strip_prefix_app.
          reflexivity.
        + eapply Forall_impl; [exact Hds|]. intros c Hc. cbn beta in *.
          unfold is_digit, ascii_decimal.
          replace ((48 <=? c)%N && (c <=? 57)%N) with true; [done|].
          symmetry. apply andb_true_intro. split; apply N.leb_le; lia.
        + intros c rest' [= <- _]. reflexivity.
      - intros c s' g' Hc. rewrite run_lits.
        change (str ".md") with [46%N; 109%N; 100%N]. cbn [strip_prefix].
        destruct (N.eqb_spec 46 c) as [<-|]; [|done]. discriminate Hc. }
  unfold group. by rewrite lookup_insert_eq.
Qed.

(** The ten ASCII digits. *)
Lemma ascii_digit_cases c :
  (48 <= c <= 57)%N -> c ∈ (N.of_nat <$> seq 48 10).
Proof.
  intros Hc. apply list_elem_of_fmap. exists (N.to_nat c).
  split; [lia|]. apply list_elem_of_In, in_seq. lia.
Qed.

(** X27: a catalog file named with three digits is merged into an
    output file of the same name. The loop reads the digits as the pair's
    number, and writing that number back with three digits gives the
    digits again. *)
Theorem merger_output_keeps_catalog_name (ds : pystr) :
  length ds = 3 ->
  Forall (fun c => (48 <= c <= 57)%N) ds ->
  file_number ascii_decimal (str "KR3k0059_" ++ ds ++ str ".md")
  = Some (py_int ascii_decimal ds)
  /\ output_name (py_int ascii_decimal ds)
     = str "KR3k0059_" ++ ds ++ str ".md".
Proof.
  intros Hlen Hds. split.
  { apply file_number_of_name; [by destruct ds | done]. }
  unfold output_name. do 2 f_equal.
  destruct ds as [|a [|b [|c [|? ?]]]]; try discriminate Hlen.
  apply Forall_cons_1 in Hds as [Ha Hds].
  apply Forall_cons_1 in Hds as [Hb Hds].
  apply Forall_cons_1 in Hds as [Hc _].
  apply ascii_digit_cases in Ha, Hb, Hc.
  assert (Hall :
    forallb (fun a => forallb (fun b => forallb (fun c =>
      bool_decide (format_0d 3 (py_int ascii_decimal [a; b; c]) = [a; b; c]))
      (N.of_nat <$> seq 48 10)) (N.of_nat <$> seq 48 10))
      (N.of_nat <$> seq 48 10) = true) by (vm_compute; reflexivity).
  rewrite forallb_forall in Hall.
  specialize (Hall a ltac:(by apply list_elem_of_In)).
  rewrite forallb_forall in Hall.
  specialize (Hall b ltac:(by apply list_elem_of_In)).
  rewrite forallb_forall in Hall.
  specialize (Hall c ltac:(by apply list_elem_of_In)).
  by apply bool_decide_eq_true in Hall.
Qed.

Lemma merger_output_keeps_catalog_name_witness :
  file_number ascii_decimal (str "KR3k0059_" ++ str "043" ++ str ".md")
  = Some 43%Z
  /\ output_name 43 = str "KR3k0059_" ++ str "043" ++ str ".md".
Proof.
  exact (merger_output_keeps_catalog_name (str "043") eq_refl
           ltac:(repeat constructor; vm_compute; discriminate)).
Defined.

End NamesMore.

